(** * takeaway: Google Photos Takeout cleanup tool (main.go)

    A shallow embedding of the sidecar matcher, the timestamp extractor,
    the ExifTool process handle, the pool manager and the per-file
    pipeline of [main.go], with the properties stated about them.

    Go strings are byte strings: they are modelled by [string], whose
    characters ([ascii]) are the bytes; [len] is [String.length].  The
    functions of [main.go] keep their names; the functions of the Go
    libraries they call are modelled in modules named after the packages
    ([strings], [filepath], [regexp], [json], [strconv], [time]).  What the
    program meets outside itself (the file system, the subprocesses, the
    clock's calendar) is passed as data: a directory and its files in [FS],
    the output of a subprocess in [Scanner], the results of starting and
    ending subprocesses in [Host] and [ExifToolProcess], the rest in
    [Env].  The goroutines of [processFiles] and [worker] are not
    modelled: every function here runs on one handle at a time. *)

From Stdlib Require Import ZArith Ascii String List Bool Lia DecimalString.
From stdpp Require Import base option list strings gmap.

Local Open Scope Z_scope.

(** ** The [strings] package *)

Module strings.

(** [strings.HasPrefix(s, prefix)]. *)
Definition HasPrefix (s prefix : string) : bool := String.prefix prefix s.

(** [strings.HasSuffix(s, suffix)]: some tail of [s] is [suffix]. *)
Fixpoint HasSuffix (s suffix : string) : bool :=
  String.eqb s suffix ||
  match s with
  | EmptyString => false
  | String _ s' => HasSuffix s' suffix
  end.

(** [strings.TrimSuffix(s, suffix)]:
    [if HasSuffix(s, suffix) { return s[:len(s)-len(suffix)] }; return s]. *)
Definition TrimSuffix (s suffix : string) : string :=
  if HasSuffix s suffix
  then String.substring 0 (String.length s - String.length suffix) s
  else s.

(** [strings.Contains(s, substr)]. *)
Fixpoint Contains (s substr : string) : bool :=
  String.prefix substr s ||
  match s with
  | EmptyString => false
  | String _ s' => Contains s' substr
  end.

(** [unicode.IsSpace] on single bytes: tab, line feed, vertical tab, form
    feed, carriage return and space. *)
Definition isSpaceByte (c : ascii) : bool :=
  let n := N_of_ascii c in
  ((9 <=? n) && (n <=? 13))%N || (n =? 32)%N.

Definition isByte (n : N) (c : ascii) : bool := (N_of_ascii c =? n)%N.

(** The third byte of the white space characters U+2000..U+200A, U+2028,
    U+2029 and U+202F, whose encodings start with E2 80. *)
Definition isSpaceE280 (c : ascii) : bool :=
  let n := N_of_ascii c in
  ((128 <=? n) && (n <=? 138))%N || (n =? 168)%N || (n =? 169)%N
  || (n =? 175)%N.

(** [strings.TrimLeftFunc(s, unicode.IsSpace)]: the white space characters
    outside ASCII are U+0085, U+00A0, U+1680, U+2000..U+200A, U+2028,
    U+2029, U+202F, U+205F and U+3000, here in their UTF-8 encodings. *)
Fixpoint trimLeftSpace (s : list ascii) : list ascii :=
  match s with
  | [] => []
  | b0 :: r0 =>
      if isSpaceByte b0 then trimLeftSpace r0
      else match r0 with
      | [] => s
      | b1 :: r1 =>
          if isByte 194 b0 && (isByte 133 b1 || isByte 160 b1) then trimLeftSpace r1
          else match r1 with
          | [] => s
          | b2 :: r2 =>
              if (isByte 225 b0 && isByte 154 b1 && isByte 128 b2)
                 || (isByte 226 b0 && isByte 128 b1 && isSpaceE280 b2)
                 || (isByte 226 b0 && isByte 129 b1 && isByte 159 b2)
                 || (isByte 227 b0 && isByte 128 b1 && isByte 128 b2)
              then trimLeftSpace r2
              else s
          end
      end
  end.

(** [strings.TrimRightFunc(s, unicode.IsSpace)], on the reversed string:
    the same characters, read from their last byte. *)
Fixpoint trimLeftSpaceRev (s : list ascii) : list ascii :=
  match s with
  | [] => []
  | b0 :: r0 =>
      if isSpaceByte b0 then trimLeftSpaceRev r0
      else match r0 with
      | [] => s
      | b1 :: r1 =>
          if isByte 194 b1 && (isByte 133 b0 || isByte 160 b0) then trimLeftSpaceRev r1
          else match r1 with
          | [] => s
          | b2 :: r2 =>
              if (isByte 225 b2 && isByte 154 b1 && isByte 128 b0)
                 || (isByte 226 b2 && isByte 128 b1 && isSpaceE280 b0)
                 || (isByte 226 b2 && isByte 129 b1 && isByte 159 b0)
                 || (isByte 227 b2 && isByte 128 b1 && isByte 128 b0)
              then trimLeftSpaceRev r2
              else s
          end
      end
  end.

(** [strings.TrimSpace(s)]. *)
Definition TrimSpace (s : string) : string :=
  string_of_list_ascii
    (rev (trimLeftSpaceRev (rev (trimLeftSpace (list_ascii_of_string s))))).

End strings.

(** ** The [path/filepath] package (Unix) *)

Module filepath.

Definition isSep (c : ascii) : bool := Ascii.eqb c "/".
Definition isDot (c : ascii) : bool := Ascii.eqb c ".".

Fixpoint hasSepOrDot (s : string) : bool :=
  match s with
  | EmptyString => false
  | String c s' => isSep c || isDot c || hasSepOrDot s'
  end.

(** [filepath.Ext(path)]: scanning from the end, the suffix that starts at
    the first dot met before any separator; empty when a separator or the
    start of the path is met first. *)
Fixpoint Ext (path : string) : string :=
  match path with
  | EmptyString => EmptyString
  | String c s' =>
      if hasSepOrDot s' then Ext s'
      else if isDot c then path
      else EmptyString
  end.

(** The elements of a path between separators. *)
Fixpoint splitSep (s : string) : list string :=
  match s with
  | EmptyString => [EmptyString]
  | String c s' =>
      if isSep c then EmptyString :: splitSep s'
      else match splitSep s' with
           | [] => [String c EmptyString]
           | e :: es => String c e :: es
           end
  end.

(** One step of [Clean]'s scan; [out] holds the elements kept so far, last
    one first. *)
Definition cleanStep (rooted : bool) (out : list string) (e : string)
  : list string :=
  if String.eqb e "" || String.eqb e "." then out
  else if String.eqb e ".." then
    match out with
    | top :: rest => if String.eqb top ".." then e :: out else rest
    | [] => if rooted then [] else [e]
    end
  else e :: out.

(** [filepath.Clean(path)]. *)
Definition Clean (path : string) : string :=
  let rooted := match path with
                | String c _ => isSep c
                | EmptyString => false
                end in
  let out := fold_left (cleanStep rooted) (splitSep path) [] in
  let body := String.concat "/" (rev out) in
  if rooted then String "/" body
  else if String.eqb body "" then "." else body.

Fixpoint hasSep (s : string) : bool :=
  match s with
  | EmptyString => false
  | String c s' => isSep c || hasSep s'
  end.

(** The path up to and including its last separator. *)
Fixpoint dirPrefix (path : string) : string :=
  match path with
  | EmptyString => EmptyString
  | String c s' =>
      if hasSep s' then String c (dirPrefix s')
      else if isSep c then String c EmptyString
      else EmptyString
  end.

(** [filepath.Dir(path)]. *)
Definition Dir (path : string) : string := Clean (dirPrefix path).

(** [filepath.Join(elem...)]: leading empty elements are dropped, the rest
    is joined by separators and cleaned; no element left gives the empty
    string. *)
Fixpoint JoinList (elem : list string) : string :=
  match elem with
  | [] => ""
  | e :: rest =>
      if String.eqb e "" then JoinList rest
      else Clean (String.concat "/" elem)
  end.

(** [filepath.Join(dir, name)]. *)
Definition Join (dir name : string) : string := JoinList [dir; name].

End filepath.

(** ** UTF-8 validity ([unicode/utf8]) *)

Module utf8.

Definition inRange (lo hi : N) (c : ascii) : bool :=
  let n := N_of_ascii c in ((lo <=? n) && (n <=? hi))%N.

Definition cont := inRange 128 191.

(** [utf8.Valid]: every rune of the byte sequence is well encoded
    (no overlong form, no surrogate, nothing above U+10FFFF). *)
Fixpoint Valid (s : list ascii) : bool :=
  match s with
  | [] => true
  | b0 :: r0 =>
      if inRange 0 127 b0 then Valid r0
      else match r0 with
      | [] => false
      | b1 :: r1 =>
          if inRange 194 223 b0 then cont b1 && Valid r1
          else match r1 with
          | [] => false
          | b2 :: r2 =>
              if inRange 224 239 b0 then
                (if inRange 224 224 b0 then inRange 160 191 b1
                 else if inRange 237 237 b0 then inRange 128 159 b1
                 else cont b1) && cont b2 && Valid r2
              else match r2 with
              | [] => false
              | b3 :: r3 =>
                  if inRange 240 244 b0 then
                    (if inRange 240 240 b0 then inRange 144 191 b1
                     else if inRange 244 244 b0 then inRange 128 143 b1
                     else cont b1) && cont b2 && cont b3 && Valid r3
                  else false
              end
          end
      end
  end.

Definition ValidString (s : string) : bool := Valid (list_ascii_of_string s).

End utf8.

(** ** The [regexp] package, for the patterns [main.go] builds

    The expressions are the ones the patterns of [findSidecarFile] and
    [findSidecarWithPrefixMatching] need; a pattern is always anchored
    ([^...$]), so [MatchString] is a match of the whole string.  Matching is
    by derivatives and is related to the language of the expression below.

    Matching compares bytes.  Go's engine reads the subject rune by rune,
    and a byte of the subject that is not part of a valid encoding is read
    as U+FFFD there and as itself here.  The two agree on every subject
    that is valid UTF-8, which file names are taken to be.  A pattern that
    is not valid UTF-8 does not compile, which happens when a prefix of a
    name ends inside a character. *)

Module regexp.

Inductive re : Type :=
| Void                      (* matches nothing *)
| Eps                       (* the empty string *)
| Chr (c : ascii)           (* one literal byte *)
| AnyNoNL                   (* [.]: any character but newline *)
| Digit                     (* [\d]: an ASCII digit *)
| Cat (r1 r2 : re)
| Alt (r1 r2 : re)
| Star (r : re).

Definition isNL (c : ascii) : bool := Ascii.eqb c "010".
Definition isDigit (c : ascii) : bool :=
  let n := N_of_ascii c in ((48 <=? n) && (n <=? 57))%N.

Fixpoint nullable (r : re) : bool :=
  match r with
  | Void | Chr _ | AnyNoNL | Digit => false
  | Eps | Star _ => true
  | Cat r1 r2 => nullable r1 && nullable r2
  | Alt r1 r2 => nullable r1 || nullable r2
  end.

Fixpoint deriv (c : ascii) (r : re) : re :=
  match r with
  | Void | Eps => Void
  | Chr d => if Ascii.eqb c d then Eps else Void
  | AnyNoNL => if isNL c then Void else Eps
  | Digit => if isDigit c then Eps else Void
  | Cat r1 r2 =>
      if nullable r1 then Alt (Cat (deriv c r1) r2) (deriv c r2)
      else Cat (deriv c r1) r2
  | Alt r1 r2 => Alt (deriv c r1) (deriv c r2)
  | Star r1 => Cat (deriv c r1) (Star r1)
  end.

Fixpoint matchList (r : re) (s : list ascii) : bool :=
  match s with
  | [] => nullable r
  | c :: s' => matchList (deriv c r) s'
  end.

(** [Regexp.MatchString] of an anchored pattern. *)
Definition MatchString (r : re) (s : string) : bool :=
  matchList r (list_ascii_of_string s).

(** The language of an expression. *)
Inductive lang : re -> list ascii -> Prop :=
| L_Eps : lang Eps []
| L_Chr c : lang (Chr c) [c]
| L_Any c : isNL c = false -> lang AnyNoNL [c]
| L_Digit c : isDigit c = true -> lang Digit [c]
| L_Cat r1 r2 s1 s2 : lang r1 s1 -> lang r2 s2 -> lang (Cat r1 r2) (s1 ++ s2)
| L_AltL r1 r2 s : lang r1 s -> lang (Alt r1 r2) s
| L_AltR r1 r2 s : lang r2 s -> lang (Alt r1 r2) s
| L_StarNil r : lang (Star r) []
| L_StarCons r s1 s2 :
    lang r s1 -> lang (Star r) s2 -> lang (Star r) (s1 ++ s2).

(** A literal string, byte by byte: what [regexp.QuoteMeta] of the string
    matches. *)
Fixpoint LitList (s : list ascii) : re :=
  match s with
  | [] => Eps
  | c :: s' => Cat (Chr c) (LitList s')
  end.

Definition Lit (s : string) : re := LitList (list_ascii_of_string s).

(** An optional group and one-or-more repetition. *)
Definition Opt (r : re) : re := Alt Eps r.
Definition Plus (r : re) : re := Cat r (Star r).

(** The pieces the format strings of [main.go] are made of. *)
Inductive piece : Type :=
| Quoted (s : string)   (* [regexp.QuoteMeta(s)], or [s] escaped by hand *)
| OptDotAny             (* an optional group: a dot, then any characters *)
| AnyStar.              (* any characters: a starred dot *)

Definition pieceRe (p : piece) : re :=
  match p with
  | Quoted s => Lit s
  | OptDotAny => Opt (Cat (Chr ".") (Star AnyNoNL))
  | AnyStar => Star AnyNoNL
  end.

Definition pieceValid (p : piece) : bool :=
  match p with
  | Quoted s => utf8.ValidString s
  | _ => true
  end.

Fixpoint piecesRe (ps : list piece) : re :=
  match ps with
  | [] => Eps
  | p :: ps' => Cat (pieceRe p) (piecesRe ps')
  end.

(** [regexp.Compile] of [^p1 p2 ... pn$]: the parser rejects a pattern that
    is not valid UTF-8, which is the only way such a pattern fails. *)
Definition Compile (ps : list piece) : option re :=
  if forallb pieceValid ps then Some (piecesRe ps) else None.

End regexp.

(** ** Data model of [main.go] *)

(** [type MediaFile struct]. *)
Record MediaFile : Type := mkMediaFile {
  Path : string;
  BaseName : string;
  Dir : string;
}.

(** An [os.DirEntry], as far as the code looks at it. *)
Record DirEntry : Type := mkDirEntry {
  Name : string;
  IsDir : bool;
}.

(** The part of the file system the matcher reads: [os.ReadDir] and
    [os.ReadFile]; [None] is a call that returns an error. *)
Record FS : Type := mkFS {
  ReadDir : string -> option (list DirEntry);
  ReadFile : string -> option string;
}.

(** ** The companion (sidecar) matcher *)

(** [numberSuffixRegex]: a non-empty stem without newline, an opening
    parenthesis, one or more digits, a closing parenthesis. *)
Definition numberSuffixRegex : regexp.re :=
  regexp.Cat (regexp.Plus regexp.AnyNoNL)
    (regexp.Cat (regexp.Chr "(")
       (regexp.Cat (regexp.Plus regexp.Digit) (regexp.Chr ")"))).

(** The longest prefix of [l] whose elements satisfy [p], and the rest. *)
Fixpoint span (p : ascii -> bool) (l : list ascii) : list ascii * list ascii :=
  match l with
  | [] => ([], [])
  | c :: l' =>
      if p c then let '(a, b) := span p l' in (c :: a, b) else ([], l)
  end.

(** [numberSuffixRegex.FindStringSubmatch(s)]: the two groups [matches[1]]
    and [matches[2]] when the expression matches, read off from the end of
    the string (the digits are the whole run before the last parenthesis). *)
Definition FindStringSubmatch (s : string) : option (string * string) :=
  match rev (list_ascii_of_string s) with
  | c :: r =>
      if Ascii.eqb c ")" then
        let '(ds, r') := span regexp.isDigit r in
        match r' with
        | o :: a =>
            if Ascii.eqb o "("
               && negb (Nat.eqb (length ds) 0) && negb (Nat.eqb (length a) 0)
               && forallb (fun x => negb (regexp.isNL x)) a
            then Some (string_of_list_ascii (rev a),
                       string_of_list_ascii (rev ds))
            else None
        | [] => None
        end
      else None
  | [] => None
  end.

(** [isGooglePhotosSidecar(filePath)]. *)
Definition isGooglePhotosSidecar (fs : FS) (filePath : string) : bool :=
  match ReadFile fs filePath with
  | None => false
  | Some content =>
      strings.Contains content "photoTakenTime"
      && strings.Contains content "timestamp"
      && (strings.Contains content "title"
          || (String.length content <? 1000)%nat)
  end.

(** A [for ... range] loop whose body may return: the value returned for
    the first element on which the body returns. *)
Fixpoint rangeOver {A : Type} (body : A -> option string) (l : list A)
  : option string :=
  match l with
  | [] => None
  | x :: rest =>
      match body x with
      | Some r => Some r
      | None => rangeOver body rest
      end
  end.

(** The numbered-file split shared by the two matcher functions:
    [(matches[1], matches[2])] or nothing. *)
Definition baseNameNoExt (file : MediaFile) : string :=
  strings.TrimSuffix (BaseName file) (filepath.Ext (BaseName file)).

(** [baseForMatching] and [numberSuffix] of
    [findSidecarWithPrefixMatching]. *)
Definition prefixBase (file : MediaFile) : string * string :=
  match FindStringSubmatch (baseNameNoExt file) with
  | Some (m1, m2) => (m1, "(" +:+ m2 +:+ ")")
  | None => (baseNameNoExt file, "")
  end.

(** The prefix lengths of the outer loop, from [len] down to [minLen]. *)
Definition prefixLens (len minLen : nat) : list nat :=
  rev (seq minLen (S len - minLen)).

(** [candidatePattern] for one prefix. *)
Definition candidatePattern (prefix numberSuffix : string)
  : list regexp.piece :=
  if negb (String.eqb numberSuffix "")
  then [regexp.Quoted prefix; regexp.AnyStar;
        regexp.Quoted numberSuffix; regexp.Quoted ".json"]
  else [regexp.Quoted prefix; regexp.AnyStar; regexp.Quoted ".json"].

(** The body of the inner loop of [findSidecarWithPrefixMatching]. *)
Definition prefixBody (fs : FS) (file : MediaFile)
    (baseForMatching numberSuffix : string) (regex : regexp.re)
    (entry : DirEntry) : option string :=
  if negb (IsDir entry) && regexp.MatchString regex (Name entry) then
    let sidecarPath := filepath.Join (Dir file) (Name entry) in
    if isGooglePhotosSidecar fs sidecarPath then
      let sidecarName := strings.TrimSuffix (Name entry) ".json" in
      let sidecarName :=
        if negb (String.eqb numberSuffix "")
        then strings.TrimSuffix sidecarName numberSuffix
        else sidecarName in
      let maxLenDiff := Z.of_nat (String.length baseForMatching) / 3 in
      let diff := Z.of_nat (String.length baseForMatching)
                  - Z.of_nat (String.length sidecarName) in
      if (diff <=? maxLenDiff) && (0 <=? diff) then Some sidecarPath
      else None
    else None
  else None.

(** [findSidecarWithPrefixMatching(file, entries)]. *)
Definition findSidecarWithPrefixMatching (fs : FS) (file : MediaFile)
    (entries : list DirEntry) : string :=
  let '(baseForMatching, numberSuffix) := prefixBase file in
  let minPrefixLength :=
    if (String.length baseForMatching <? 10)%nat
    then String.length baseForMatching else 10%nat in
  let r :=
    rangeOver
      (fun prefixLen =>
         let prefix := String.substring 0 prefixLen baseForMatching in
         match regexp.Compile (candidatePattern prefix numberSuffix) with
         | None => None (* continue *)
         | Some regex =>
             rangeOver
               (prefixBody fs file baseForMatching numberSuffix regex)
               entries
         end)
      (prefixLens (String.length baseForMatching) minPrefixLength) in
  match r with
  | Some sidecarPath => sidecarPath
  | None => ""
  end.

(** [baseForSidecar] and [numberSuffix] of [findSidecarFile]; the suffix is
    kept as the text it matches (the code keeps it escaped for the
    pattern). *)
Definition sidecarBase (file : MediaFile) : string * string :=
  match FindStringSubmatch (baseNameNoExt file) with
  | Some (m1, m2) =>
      (m1 +:+ filepath.Ext (BaseName file), "(" +:+ m2 +:+ ")")
  | None => (BaseName file, "")
  end.

(** The [patterns] slice of [findSidecarFile]. *)
Definition sidecarPatterns (file : MediaFile) : list (list regexp.piece) :=
  let '(baseForSidecar, numberSuffix) := sidecarBase file in
  let ext := filepath.Ext baseForSidecar in
  let nameWithoutExt := strings.TrimSuffix baseForSidecar ext in
  let underscore := strings.HasSuffix nameWithoutExt "_" in
  let baseForSidecarNoUnderscore :=
    if underscore then strings.TrimSuffix nameWithoutExt "_" +:+ ext
    else baseForSidecar in
  let baseNameNoUnderscoreNoExt :=
    if underscore then strings.TrimSuffix nameWithoutExt "_" else "" in
  if negb (String.eqb numberSuffix "") then
    [regexp.Quoted baseForSidecar; regexp.OptDotAny;
     regexp.Quoted numberSuffix; regexp.Quoted ".json"]
    :: (if negb (String.eqb baseForSidecarNoUnderscore baseForSidecar)
        then [[regexp.Quoted baseForSidecarNoUnderscore; regexp.OptDotAny;
               regexp.Quoted numberSuffix; regexp.Quoted ".json"];
              [regexp.Quoted baseNameNoUnderscoreNoExt;
               regexp.Quoted numberSuffix; regexp.Quoted ".json"]]
        else [])
  else
    [regexp.Quoted baseForSidecar; regexp.OptDotAny; regexp.Quoted ".json"]
    :: (if negb (String.eqb baseForSidecarNoUnderscore baseForSidecar)
        then [[regexp.Quoted baseForSidecarNoUnderscore; regexp.OptDotAny;
               regexp.Quoted ".json"];
              [regexp.Quoted baseNameNoUnderscoreNoExt;
               regexp.Quoted ".json"]]
        else []).

(** The body of the inner loop of [findSidecarFile]. *)
Definition sidecarBody (fs : FS) (file : MediaFile) (sidecarRegex : regexp.re)
    (entry : DirEntry) : option string :=
  if negb (IsDir entry) && regexp.MatchString sidecarRegex (Name entry) then
    let sidecarPath := filepath.Join (Dir file) (Name entry) in
    if isGooglePhotosSidecar fs sidecarPath then Some sidecarPath else None
  else None.

(** [findSidecarFile(file)]; the empty string is "no sidecar". *)
Definition findSidecarFile (fs : FS) (file : MediaFile) : string :=
  let patterns := sidecarPatterns file in
  match ReadDir fs (Dir file) with
  | None => ""
  | Some entries =>
      let r :=
        rangeOver
          (fun pattern =>
             match regexp.Compile pattern with
             | None => None (* continue *)
             | Some sidecarRegex =>
                 rangeOver (sidecarBody fs file sidecarRegex) entries
             end)
          patterns in
      match r with
      | Some sidecarPath => sidecarPath
      | None => findSidecarWithPrefixMatching fs file entries
      end
  end.

(** ** Errors

    A Go [error] value: [nil] is [None] in [option error].  Errors of the
    libraries and of the operating system are kept apart from the ones
    [main.go] builds with [fmt.Errorf] and [errors.New]. *)

Inductive error : Type :=
| LibError (pkg detail : string)      (* an error of a library or of the OS *)
| ErrorNew (msg : string)             (* [errors.New(msg)] and [fmt.Errorf(msg)] *)
| ErrorfS (msg arg : string)          (* [fmt.Errorf(msg + "%s", arg)] *)
| ErrorfV (msg : string) (cause : error)   (* [fmt.Errorf(msg + "%v", err)] *)
| ErrorfDV (msg1 : string) (i : Z) (msg2 : string) (cause : error).
                                      (* [fmt.Errorf(msg1 + "%d" + msg2 + "%v", i, err)] *)

(** ** The [encoding/json] package *)

Module json.

#[local] Unset Elimination Schemes.
Inductive Value : Type :=
| Null
| Bool (b : bool)
| Number (literal : list ascii)
| Str (s : string)                     (* unquoted *)
| Array (elems : list Value)
| Object (members : list (string * Value)).   (* in input order *)
#[local] Set Elimination Schemes.

Definition byteIs (n : N) (c : ascii) : bool := (N_of_ascii c =? n)%N.

(** White space between tokens: space, tab, carriage return, line feed. *)
Definition isWS (c : ascii) : bool :=
  byteIs 32 c || byteIs 9 c || byteIs 13 c || byteIs 10 c.

Fixpoint skipWS (s : list ascii) : list ascii :=
  match s with
  | c :: r => if isWS c then skipWS r else s
  | [] => []
  end.

Definition hexVal (c : ascii) : option N :=
  let n := N_of_ascii c in
  if ((48 <=? n) && (n <=? 57))%N then Some (n - 48)%N
  else if ((97 <=? n) && (n <=? 102))%N then Some (n - 87)%N
  else if ((65 <=? n) && (n <=? 70))%N then Some (n - 55)%N
  else None.

(** [getu4] on the four characters after a backslash and [u]. *)
Definition hex4 (h1 h2 h3 h4 : ascii) : option N :=
  match hexVal h1, hexVal h2, hexVal h3, hexVal h4 with
  | Some a, Some b, Some c, Some d => Some (((a * 16 + b) * 16 + c) * 16 + d)%N
  | _, _, _, _ => None
  end.

Definition byte (n : N) : ascii := ascii_of_N n.

(** [utf8.EncodeRune]; surrogates and values above U+10FFFF become
    U+FFFD. *)
Definition EncodeRune (r : N) : list ascii :=
  (if r <=? 127 then [byte r]
   else if r <=? 2047 then [byte (192 + r / 64); byte (128 + r mod 64)]
   else if ((55296 <=? r) && (r <=? 57343)) || (1114111 <? r)
   then [byte 239; byte 191; byte 189]
   else if r <=? 65535
   then [byte (224 + r / 4096); byte (128 + (r / 64) mod 64);
         byte (128 + r mod 64)]
   else [byte (240 + r / 262144); byte (128 + (r / 4096) mod 64);
         byte (128 + (r / 64) mod 64); byte (128 + r mod 64)])%N.

Definition isSurrogate (r : N) : bool := ((55296 <=? r) && (r <? 57344))%N.

(** [utf16.DecodeRune(r1, r2)], [None] for the replacement character. *)
Definition decodePair (r1 r2 : N) : option N :=
  (if (55296 <=? r1) && (r1 <? 56320) && (56320 <=? r2) && (r2 <? 57344)
   then Some ((r1 - 55296) * 1024 + (r2 - 56320) + 65536)
   else None)%N.

Definition replacement : list ascii := [byte 239; byte 191; byte 189].

(** The escapes of one character after a backslash. *)
Definition simpleEscape (e : ascii) : option ascii :=
  if byteIs 34 e then Some (byte 34)          (* quote *)
  else if byteIs 92 e then Some (byte 92)     (* backslash *)
  else if byteIs 47 e then Some (byte 47)     (* slash *)
  else if byteIs 98 e then Some (byte 8)      (* b *)
  else if byteIs 102 e then Some (byte 12)    (* f *)
  else if byteIs 110 e then Some (byte 10)    (* n *)
  else if byteIs 114 e then Some (byte 13)    (* r *)
  else if byteIs 116 e then Some (byte 9)     (* t *)
  else None.

Definition cons_fst {A B : Type} (l : list A) (r : option (list A * B))
  : option (list A * B) :=
  match r with
  | Some (s, rest) => Some (l ++ s, rest)
  | None => None
  end.

(** A string literal after its opening quote: the unquoted bytes and the
    input after the closing quote.  The scanner rejects control characters
    and bad escapes; [unquote] decodes the escapes, joins surrogate pairs
    and replaces every byte that is not part of a well-formed UTF-8 sequence
    by U+FFFD. *)
Fixpoint lexString (s : list ascii) : option (list ascii * list ascii) :=
  match s with
  | [] => None
  | b0 :: r0 =>
      if byteIs 34 b0 then Some ([], r0)
      else if byteIs 92 b0 then
        match r0 with
        | [] => None
        | e :: r1 =>
            match simpleEscape e with
            | Some c => cons_fst [c] (lexString r1)
            | None =>
                if byteIs 117 e then
                  match r1 with
                  | h1 :: h2 :: h3 :: h4 :: r5 =>
                      match hex4 h1 h2 h3 h4 with
                      | None => None
                      | Some rr =>
                          if isSurrogate rr then
                            match r5 with
                            | b :: u :: g1 :: g2 :: g3 :: g4 :: r11 =>
                                match
                                  (if byteIs 92 b && byteIs 117 u
                                   then match hex4 g1 g2 g3 g4 with
                                        | Some rr1 => decodePair rr rr1
                                        | None => None
                                        end
                                   else None)
                                with
                                | Some dec =>
                                    cons_fst (EncodeRune dec) (lexString r11)
                                | None => cons_fst replacement (lexString r5)
                                end
                            | _ => cons_fst replacement (lexString r5)
                            end
                          else cons_fst (EncodeRune rr) (lexString r5)
                      end
                  | _ => None
                  end
                else None
            end
        end
      else if utf8.inRange 0 31 b0 then None
      else if utf8.inRange 32 127 b0 then cons_fst [b0] (lexString r0)
      else
        let bad := cons_fst replacement (lexString r0) in
        match r0 with
        | [] => bad
        | b1 :: r1 =>
            if utf8.inRange 194 223 b0 then
              if utf8.cont b1 then cons_fst [b0; b1] (lexString r1) else bad
            else match r1 with
            | [] => bad
            | b2 :: r2 =>
                if utf8.inRange 224 239 b0 then
                  if (if utf8.inRange 224 224 b0 then utf8.inRange 160 191 b1
                      else if utf8.inRange 237 237 b0
                           then utf8.inRange 128 159 b1
                      else utf8.cont b1) && utf8.cont b2
                  then cons_fst [b0; b1; b2] (lexString r2) else bad
                else match r2 with
                | [] => bad
                | b3 :: r3 =>
                    if utf8.inRange 240 244 b0
                       && (if utf8.inRange 240 240 b0
                           then utf8.inRange 144 191 b1
                           else if utf8.inRange 244 244 b0
                                then utf8.inRange 128 143 b1
                           else utf8.cont b1)
                       && utf8.cont b2 && utf8.cont b3
                    then cons_fst [b0; b1; b2; b3] (lexString r3) else bad
                end
            end
        end
  end.

(** A number literal: an optional minus sign, an integer part without a
    leading zero, an optional fraction and an optional exponent. *)
Definition lexNumber (s : list ascii) : option (list ascii * list ascii) :=
  let '(sign, s1) :=
    match s with
    | c :: r => if byteIs 45 c then ([c], r) else ([], s)
    | [] => ([], s)
    end in
  match s1 with
  | [] => None
  | d :: r =>
      if negb (regexp.isDigit d) then None
      else
        let '(int, s2) :=
          if byteIs 48 d then ([d], r)
          else let '(ds, r') := span regexp.isDigit r in (d :: ds, r') in
        let frac :=
          match s2 with
          | p :: r2 =>
              if byteIs 46 p then
                let '(ds, r') := span regexp.isDigit r2 in
                match ds with
                | [] => None
                | _ => Some (p :: ds, r')
                end
              else Some ([], s2)
          | [] => Some ([], s2)
          end in
        match frac with
        | None => None
        | Some (fr, s3) =>
            match s3 with
            | e :: r3 =>
                if byteIs 101 e || byteIs 69 e then
                  let '(sg, r4) :=
                    match r3 with
                    | c :: r' =>
                        if byteIs 43 c || byteIs 45 c then ([c], r')
                        else ([], r3)
                    | [] => ([], r3)
                    end in
                  let '(ds, r') := span regexp.isDigit r4 in
                  match ds with
                  | [] => None
                  | _ => Some (sign ++ int ++ fr ++ e :: sg ++ ds, r')
                  end
                else Some (sign ++ int ++ fr, s3)
            | [] => Some (sign ++ int ++ fr, s3)
            end
        end
  end.

(** The outcome of a parser that runs on fuel. *)
Inductive result (A : Type) : Type :=
| OutOfFuel
| SyntaxError
| Ok (a : A) (rest : list ascii).
Arguments OutOfFuel {A}.
Arguments SyntaxError {A}.
Arguments Ok {A} a rest.

(** [maxNestingDepth] of the scanner. *)
Definition maxNestingDepth : nat := Z.to_nat 10000.

(** A literal name ([true], [false], [null]) at the head of the input. *)
Fixpoint lexName (name s : list ascii) : option (list ascii) :=
  match name with
  | [] => Some s
  | c :: name' =>
      match s with
      | d :: s' => if Ascii.eqb c d then lexName name' s' else None
      | [] => None
      end
  end.

(** One JSON value at the head of the input, after optional white space;
    [depth] is the number of arrays and objects that are open. *)
Fixpoint parseValue (fuel depth : nat) (s : list ascii) {struct fuel}
  : result Value :=
  match fuel with
  | O => OutOfFuel
  | S f =>
      match skipWS s with
      | [] => SyntaxError
      | c :: r =>
          if byteIs 123 c then              (* an object *)
            if (maxNestingDepth <=? depth)%nat then SyntaxError
            else match skipWS r with
                 | [] => SyntaxError
                 | c' :: r' =>
                     if byteIs 125 c' then Ok (Object []) r'
                     else match parseMembers f (S depth) r [] with
                          | Ok ms rest => Ok (Object ms) rest
                          | OutOfFuel => OutOfFuel
                          | SyntaxError => SyntaxError
                          end
                 end
          else if byteIs 91 c then          (* an array *)
            if (maxNestingDepth <=? depth)%nat then SyntaxError
            else match skipWS r with
                 | [] => SyntaxError
                 | c' :: r' =>
                     if byteIs 93 c' then Ok (Array []) r'
                     else match parseElements f (S depth) r [] with
                          | Ok es rest => Ok (Array es) rest
                          | OutOfFuel => OutOfFuel
                          | SyntaxError => SyntaxError
                          end
                 end
          else if byteIs 34 c then          (* a string *)
            match lexString r with
            | Some (str, rest) => Ok (Str (string_of_list_ascii str)) rest
            | None => SyntaxError
            end
          else if byteIs 116 c then
            match lexName (list_ascii_of_string "rue") r with
            | Some rest => Ok (Bool true) rest
            | None => SyntaxError
            end
          else if byteIs 102 c then
            match lexName (list_ascii_of_string "alse") r with
            | Some rest => Ok (Bool false) rest
            | None => SyntaxError
            end
          else if byteIs 110 c then
            match lexName (list_ascii_of_string "ull") r with
            | Some rest => Ok Null rest
            | None => SyntaxError
            end
          else
            match lexNumber (c :: r) with
            | Some (lit, rest) => Ok (Number lit) rest
            | None => SyntaxError
            end
      end
  end

(** The members of an object from a key on, up to the closing brace;
    [acc] holds the members read so far, last one first. *)
with parseMembers (fuel depth : nat) (s : list ascii)
    (acc : list (string * Value)) {struct fuel}
  : result (list (string * Value)) :=
  match fuel with
  | O => OutOfFuel
  | S f =>
      match skipWS s with
      | [] => SyntaxError
      | q :: r =>
          if negb (byteIs 34 q) then SyntaxError
          else match lexString r with
          | None => SyntaxError
          | Some (key, r1) =>
              match skipWS r1 with
              | [] => SyntaxError
              | colon :: r2 =>
                  if negb (byteIs 58 colon) then SyntaxError
                  else match parseValue f depth r2 with
                  | OutOfFuel => OutOfFuel
                  | SyntaxError => SyntaxError
                  | Ok v r3 =>
                      let acc' := (string_of_list_ascii key, v) :: acc in
                      match skipWS r3 with
                      | [] => SyntaxError
                      | d :: r4 =>
                          if byteIs 44 d then parseMembers f depth r4 acc'
                          else if byteIs 125 d then Ok (rev acc') r4
                          else SyntaxError
                      end
                  end
              end
          end
      end
  end

(** The elements of an array from a value on, up to the closing bracket. *)
with parseElements (fuel depth : nat) (s : list ascii) (acc : list Value)
    {struct fuel} : result (list Value) :=
  match fuel with
  | O => OutOfFuel
  | S f =>
      match parseValue f depth s with
      | OutOfFuel => OutOfFuel
      | SyntaxError => SyntaxError
      | Ok v r1 =>
          match skipWS r1 with
          | [] => SyntaxError
          | d :: r2 =>
              if byteIs 44 d then parseElements f depth r2 (v :: acc)
              else if byteIs 93 d then Ok (rev (v :: acc)) r2
              else SyntaxError
          end
      end
  end.

(** [checkValid] and the scan of the decoder: the whole input is one value
    between optional white space.  The fuel is more than the parser can use
    (see [json_facts.Parse_enough_fuel]). *)
Definition Parse (data : string) : option Value :=
  let s := list_ascii_of_string data in
  match parseValue (S (2 * length s)) 0 s with
  | Ok v rest => match skipWS rest with
                 | [] => Some v
                 | _ => None
                 end
  | _ => None
  end.

(** [foldName]: the key with ASCII letters in upper case, the Kelvin sign
    (U+212A) as [K] and the long s (U+017F) as [S]; these are the only
    characters outside ASCII that fold to an ASCII letter. *)
Fixpoint foldBytes (s : list ascii) : list ascii :=
  match s with
  | [] => []
  | b0 :: r0 =>
      let n := N_of_ascii b0 in
      if ((97 <=? n) && (n <=? 122))%N then byte (n - 32) :: foldBytes r0
      else
        match r0 with
        | b1 :: r1 =>
            if byteIs 197 b0 && byteIs 191 b1 then byte 83 :: foldBytes r1
            else match r1 with
                 | b2 :: r2 =>
                     if byteIs 226 b0 && byteIs 132 b1 && byteIs 170 b2
                     then byte 75 :: foldBytes r2
                     else b0 :: foldBytes r0
                 | [] => b0 :: foldBytes r0
                 end
        | [] => b0 :: foldBytes r0
        end
  end.

Definition foldName (s : string) : string :=
  string_of_list_ascii (foldBytes (list_ascii_of_string s)).

(** A key of the input names the struct field [field]: exactly, or up to
    case folding. *)
Definition keyMatches (field key : string) : bool :=
  String.eqb key field || String.eqb (foldName key) (foldName field).


(** [type SidecarData struct], with its anonymous inner struct. *)
Record PhotoTakenTimeData : Type := mkPhotoTakenTime {
  Timestamp : string;
}.

Record SidecarData : Type := mkSidecarData {
  Title : string;
  PhotoTakenTime : PhotoTakenTimeData;
}.

(** [type AlbumMetadata struct]. *)
Record AlbumMetadata : Type := mkAlbumMetadata {
  AlbumTitle : string;
}.

Definition typeError (what : string) : error :=
  LibError "json" ("cannot unmarshal " +:+ what).

(** Storing a value into a field of type [string]: a string is stored,
    [null] leaves the field as it is, anything else is an
    [UnmarshalTypeError]. *)
Definition storeString (v : Value) (cur : string) : error + string :=
  match v with
  | Str s => inr s
  | Null => inr cur
  | Bool _ => inl (typeError "bool")
  | Number _ => inl (typeError "number")
  | Array _ => inl (typeError "array")
  | Object _ => inl (typeError "object")
  end.

(** Storing the members of an object into a struct, one after the other;
    [store] handles one member whose key names a field and leaves the
    struct alone otherwise.  The first type error is the one reported. *)
Fixpoint storeMembers {T : Type} (store : string -> Value -> T -> error + T)
    (ms : list (string * Value)) (cur : T) : error + T :=
  match ms with
  | [] => inr cur
  | (k, v) :: rest =>
      match store k v cur with
      | inl e => inl e
      | inr cur' => storeMembers store rest cur'
      end
  end.

(** Storing a value into a struct: an object is stored member by member,
    [null] leaves the struct as it is, anything else is an
    [UnmarshalTypeError]. *)
Definition storeStruct {T : Type} (store : string -> Value -> T -> error + T)
    (v : Value) (cur : T) : error + T :=
  match v with
  | Object ms => storeMembers store ms cur
  | Null => inr cur
  | Bool _ => inl (typeError "bool")
  | Number _ => inl (typeError "number")
  | Str _ => inl (typeError "string")
  | Array _ => inl (typeError "array")
  end.

Definition storePhotoTakenTimeField (k : string) (v : Value)
    (cur : PhotoTakenTimeData) : error + PhotoTakenTimeData :=
  if keyMatches "timestamp" k then
    match storeString v (Timestamp cur) with
    | inl e => inl e
    | inr s => inr (mkPhotoTakenTime s)
    end
  else inr cur.

Definition storeSidecarField (k : string) (v : Value) (cur : SidecarData)
  : error + SidecarData :=
  if keyMatches "title" k then
    match storeString v (Title cur) with
    | inl e => inl e
    | inr s => inr (mkSidecarData s (PhotoTakenTime cur))
    end
  else if keyMatches "photoTakenTime" k then
    match storeStruct storePhotoTakenTimeField v (PhotoTakenTime cur) with
    | inl e => inl e
    | inr p => inr (mkSidecarData (Title cur) p)
    end
  else inr cur.

(** [var sidecar SidecarData; json.Unmarshal(data, &sidecar)]. *)
Definition UnmarshalSidecarData (data : string) : error + SidecarData :=
  match Parse data with
  | None => inl (LibError "json" "syntax error")
  | Some v =>
      storeStruct storeSidecarField v (mkSidecarData "" (mkPhotoTakenTime ""))
  end.

Definition storeAlbumField (k : string) (v : Value) (cur : AlbumMetadata)
  : error + AlbumMetadata :=
  if keyMatches "title" k then
    match storeString v (AlbumTitle cur) with
    | inl e => inl e
    | inr s => inr (mkAlbumMetadata s)
    end
  else inr cur.

(** [var metadata AlbumMetadata; json.Unmarshal(data, &metadata)]. *)
Definition UnmarshalAlbumMetadata (data : string) : error + AlbumMetadata :=
  match Parse data with
  | None => inl (LibError "json" "syntax error")
  | Some v => storeStruct storeAlbumField v (mkAlbumMetadata "")
  end.

End json.

(** ** The [strconv] package *)

Module strconv.

Definition digitVal (c : ascii) : Z := Z.of_N (N_of_ascii c) - 48.

(** The value of a run of decimal digits. *)
Definition decimal (ds : list ascii) : Z :=
  fold_left (fun acc c => acc * 10 + digitVal c) ds 0.

(** [strconv.ParseInt(s, 10, 64)]: an optional sign and one or more decimal
    digits, whose value fits a signed 64-bit integer. *)
Definition ParseInt (s : string) : error + Z :=
  match list_ascii_of_string s with
  | [] => inl (LibError "strconv" "invalid syntax")
  | c :: r =>
      let '(neg, ds) :=
        if json.byteIs 43 c then (false, r)
        else if json.byteIs 45 c then (true, r)
        else (false, c :: r) in
      match ds with
      | [] => inl (LibError "strconv" "invalid syntax")
      | _ =>
          if negb (forallb regexp.isDigit ds)
          then inl (LibError "strconv" "invalid syntax")
          else
            let un := decimal ds in
            if negb neg && (2 ^ 63 <=? un)
            then inl (LibError "strconv" "value out of range")
            else if neg && (2 ^ 63 <? un)
            then inl (LibError "strconv" "value out of range")
            else inr (if neg then - un else un)
      end
  end.

End strconv.

(** ** The [time] package *)

Module time.

(** A [*time.Location], as far as it is told apart here. *)
Inductive Location : Type :=
| UTC
| Local
| Zone (name : string) (offset : Z).

(** A [time.Time]: seconds since January 1 of year 1, as a signed 64-bit
    integer, nanoseconds within the second, and a location.  The zero value
    [time.Time{}] has both numbers zero and is in UTC. *)
Record Time : Type := mkTime {
  sec : Z;
  nsec : Z;
  loc : Location;
}.

Definition zero : Time := mkTime 0 0 UTC.

Definition unixToInternal : Z := 62135596800.

(** Wrap-around of signed 64-bit arithmetic. *)
Definition wrap64 (z : Z) : Z := (z + 2 ^ 63) mod 2 ^ 64 - 2 ^ 63.

(** [time.Unix(sec, 0)]. *)
Definition Unix (s : Z) : Time :=
  mkTime (wrap64 (s + unixToInternal)) 0 Local.

(** [t.Unix()]: seconds since January 1, 1970 UTC. *)
Definition UnixOf (t : Time) : Z := wrap64 (sec t - unixToInternal).

(** [t.IsZero()]. *)
Definition IsZero (t : Time) : bool := (sec t =? 0) && (nsec t =? 0).

(** [t.Equal(u)]: the same instant, whatever the locations. *)
Definition Equal (t u : Time) : bool :=
  (sec t =? sec u) && (nsec t =? nsec u).

Definition isLeap (year : Z) : bool :=
  (year mod 4 =? 0) && (negb (year mod 100 =? 0) || (year mod 400 =? 0)).

(** Days in the months before month [m] of a common year. *)
Definition daysBefore (m : Z) : Z :=
  nth (Z.to_nat (m - 1)) [0; 31; 59; 90; 120; 151; 181; 212; 243; 273; 304; 334] 0.

(** Days from January 1 of year 1 to January 1 of [year], in the proleptic
    Gregorian calendar ([year >= 1]). *)
Definition daysBeforeYear (year : Z) : Z :=
  let y := year - 1 in 365 * y + y / 4 - y / 100 + y / 400.

(** The instant of a civil date and time in UTC:
    [time.Date(year, month, day, hour, min, sec, 0, time.UTC)] for a date
    within range. *)
Definition DateUTC (year month day hour min s : Z) : Time :=
  let d := daysBeforeYear year + daysBefore month
           + (if isLeap year && (3 <=? month) then 1 else 0) + (day - 1) in
  mkTime (d * 86400 + hour * 3600 + min * 60 + s) 0 UTC.

End time.

(** ** The timestamp extractor: companion files *)

(** [parseSidecarDate(sidecarPath)]. *)
Definition parseSidecarDate (fs : FS) (sidecarPath : string)
  : error + time.Time :=
  match ReadFile fs sidecarPath with
  | None => inl (LibError "os" "ReadFile")
  | Some data =>
      match json.UnmarshalSidecarData data with
      | inl err => inl err
      | inr sidecar =>
          match strconv.ParseInt
                  (json.Timestamp (json.PhotoTakenTime sidecar)) with
          | inl err => inl err
          | inr timestamp => inr (time.Unix timestamp)
          end
      end
  end.

(** [[]map[string]interface{}] from the output of the tool. *)
Module exifjson.

Section Decode.

(** [strconv.ParseFloat(literal, 64)] succeeds: the number fits a
    [float64].  A number stored into an [interface{}] is converted and a
    failure of the conversion is reported by [json.Unmarshal]. *)
Variable float64_ok : list ascii -> bool.

Fixpoint numbersOk (v : json.Value) : bool :=
  match v with
  | json.Number lit => float64_ok lit
  | json.Array es => forallb numbersOk es
  | json.Object ms => forallb (fun kv => numbersOk (snd kv)) ms
  | _ => true
  end.

(** A Go map filled from the members of an object in input order: a later
    member replaces an earlier one with the same key. *)
Definition mapOfMembers (ms : list (string * json.Value))
  : gmap string json.Value :=
  fold_left (fun m kv => <[fst kv := snd kv]> m) ms ∅.

(** One element of the slice: an object fills a map, [null] is the nil
    map, anything else is an [UnmarshalTypeError]. *)
Definition storeMap (v : json.Value) : error + gmap string json.Value :=
  match v with
  | json.Object ms =>
      if forallb (fun kv => numbersOk (snd kv)) ms
      then inr (mapOfMembers ms)
      else inl (json.typeError "number")
  | json.Null => inr ∅
  | json.Bool _ => inl (json.typeError "bool")
  | json.Number _ => inl (json.typeError "number")
  | json.Str _ => inl (json.typeError "string")
  | json.Array _ => inl (json.typeError "array")
  end.

Fixpoint storeMaps (es : list json.Value)
  : error + list (gmap string json.Value) :=
  match es with
  | [] => inr []
  | v :: rest =>
      match storeMap v with
      | inl e => inl e
      | inr m =>
          match storeMaps rest with
          | inl e => inl e
          | inr ms => inr (m :: ms)
          end
      end
  end.

(** [var exifData []map[string]interface{};
    json.Unmarshal(data, &exifData)]. *)
Definition Unmarshal (data : string)
  : error + list (gmap string json.Value) :=
  match json.Parse data with
  | None => inl (LibError "json" "syntax error")
  | Some (json.Array es) => storeMaps es
  | Some json.Null => inr []
  | Some (json.Bool _) => inl (json.typeError "bool")
  | Some (json.Number _) => inl (json.typeError "number")
  | Some (json.Str _) => inl (json.typeError "string")
  | Some (json.Object _) => inl (json.typeError "object")
  end.

End Decode.

End exifjson.

(** ** The worker process handle *)

(** The [bufio.Scanner] on the standard output of the subprocess: the
    lines it will deliver, each with the value [Err()] has once it is
    delivered, the value [Err()] has once [Scan] has returned false, and
    the current value of [Err()]. *)
Record Scanner : Type := mkScanner {
  lines : list (string * option error);
  final : option error;
  err : option error;
}.

(** [scanner.Scan()] followed by [scanner.Text()]. *)
Definition Scan (s : Scanner) : option string * Scanner :=
  match lines s with
  | (line, e) :: rest => (Some line, mkScanner rest (final s) e)
  | [] => (None, mkScanner [] (final s) (final s))
  end.

(** [type ExifToolProcess struct]: the subprocess behind [cmd], [stdin],
    [stdout] and [scanner].  The mutex [mu] serialises the calls on one
    handle; the calls are modelled one at a time. *)
Record ExifToolProcess : Type := mkProcess {
  stdinWrite : nat -> option error;  (* what the n-th [stdin.Write] returns *)
  sent : list string;                (* what was written to [stdin] *)
  scanner : Scanner;
  exit : option error;               (* what [cmd.Wait()], or
                                        [cmd.Process.Kill()] after the
                                        timeout, returns *)
  closeCalls : nat;                  (* how often [Close] ran *)
}.

Definition nl : string := String "010" EmptyString.

Definition readyMarker : string := "{ready}".

(** [stdin.Write([]byte(command))]. *)
Definition Write (etp : ExifToolProcess) (command : string)
  : option error * ExifToolProcess :=
  (stdinWrite etp (length (sent etp)),
   mkProcess (stdinWrite etp) (sent etp ++ [command]) (scanner etp)
             (exit etp) (closeCalls etp)).

Definition withScanner (etp : ExifToolProcess) (s : Scanner)
  : ExifToolProcess :=
  mkProcess (stdinWrite etp) (sent etp) s (exit etp) (closeCalls etp).

(** The read loop of [GetMetadata]: the output up to the ready marker, or
    up to the point where [Scan] returns false. *)
Fixpoint readOutput (ls : list (string * option error))
    (fin : option error) (output : string) : string * Scanner :=
  match ls with
  | [] => (output, mkScanner [] fin fin)
  | (line, e) :: rest =>
      if String.eqb line readyMarker then (output, mkScanner rest fin e)
      else readOutput rest fin (output +:+ line +:+ nl)
  end.

(** The [result] map of [GetMetadata]: the string-valued tags. *)
Definition stringTags (m : gmap string json.Value) : gmap string string :=
  omap (fun v => match v with json.Str s => Some s | _ => None end) m.

(** [(etp *ExifToolProcess) GetMetadata(filePath)]. *)
Definition GetMetadata (float64_ok : list ascii -> bool)
    (etp : ExifToolProcess) (filePath : string)
  : (error + gmap string string) * ExifToolProcess :=
  let command := "-json" +:+ nl +:+ "-dateFormat" +:+ nl
                 +:+ "%Y:%m:%d %H:%M:%S" +:+ nl +:+ filePath +:+ nl
                 +:+ "-execute" +:+ nl in
  match Write etp command with
  | (Some e, etp1) =>
      (inl (ErrorfV "failed to write to exiftool stdin: " e), etp1)
  | (None, etp1) =>
      let '(output, sc) :=
        readOutput (lines (scanner etp1)) (final (scanner etp1)) "" in
      let etp2 := withScanner etp1 sc in
      match err sc with
      | Some e => (inl (ErrorfV "failed to read exiftool output: " e), etp2)
      | None =>
          let outputStr := strings.TrimSpace output in
          if String.eqb outputStr "" then (inr ∅, etp2)
          else match exifjson.Unmarshal float64_ok outputStr with
               | inl e =>
                   (inl (ErrorfV "failed to parse exiftool JSON: " e), etp2)
               | inr exifData =>
                   match exifData with
                   | [] => (inr ∅, etp2)
                   | first :: _ => (inr (stringTags first), etp2)
                   end
               end
      end
  end.

(** The read loop of [UpdateAllDates]: it ends at the ready marker, at a
    line that reports a problem (which is returned), or when [Scan]
    returns false. *)
Fixpoint drainOutput (ls : list (string * option error))
    (fin : option error) : option string * Scanner :=
  match ls with
  | [] => (None, mkScanner [] fin fin)
  | (line, e) :: rest =>
      if String.eqb line readyMarker then (None, mkScanner rest fin e)
      else if strings.Contains line "Error:"
              || strings.Contains line "Warning:"
      then (Some line, mkScanner rest fin e)
      else drainOutput rest fin
  end.

(** [(etp *ExifToolProcess) UpdateAllDates(filePath, dateStr)]. *)
Definition UpdateAllDates (etp : ExifToolProcess) (filePath dateStr : string)
  : option error * ExifToolProcess :=
  let command := "-overwrite_original" +:+ nl +:+ "-AllDates=" +:+ dateStr
                 +:+ nl +:+ filePath +:+ nl +:+ "-execute" +:+ nl in
  match Write etp command with
  | (Some e, etp1) =>
      (Some (ErrorfV "failed to write to exiftool stdin: " e), etp1)
  | (None, etp1) =>
      let '(bad, sc) :=
        drainOutput (lines (scanner etp1)) (final (scanner etp1)) in
      let etp2 := withScanner etp1 sc in
      match bad with
      | Some line => (Some (ErrorfS "exiftool error: " line), etp2)
      | None =>
          match err sc with
          | Some e =>
              (Some (ErrorfV "failed to read exiftool output: " e), etp2)
          | None => (None, etp2)
          end
      end
  end.

(** [(etp *ExifToolProcess) Close()]: the shutdown directive is written
    (its result is ignored), the streams are closed, and the result is that
    of waiting for the subprocess, or of killing it after five seconds. *)
Definition ExifToolProcess_Close (etp : ExifToolProcess)
  : option error * ExifToolProcess :=
  (exit etp,
   mkProcess (stdinWrite etp)
             (sent etp ++ ["-stay_open" +:+ nl +:+ "False" +:+ nl])
             (scanner etp) (exit etp) (S (closeCalls etp))).

(** ** The worker pool manager *)

(** [type ExifToolManager struct]: the handles are pointers into the heap
    of process handles. *)
Record ExifToolManager : Type := mkManager {
  processes : list nat;
}.

(** What [startExifToolProcess] meets when it starts a subprocess. *)
Inductive SpawnResult : Type :=
| StdinPipeFails (e : error)
| StdoutPipeFails (e : error)
| StartFails (e : error)
| Started (etp : ExifToolProcess).

(** The host the pool runs on: the result of [exec.LookPath("exiftool")],
    of the n-th start of a subprocess, and of
    [make([]*ExifToolProcess, n)] for a length [n] that is not negative:
    [makeReturns n] is false when the length is above the limit of the
    runtime, where [make] panics, and when the memory cannot be had, where
    the runtime ends the program. *)
Record Host : Type := mkHost {
  lookPath : option error;
  spawn : nat -> SpawnResult;
  makeReturns : Z -> bool;
}.

(** The state the pool functions work on: the process handles allocated so
    far (a pointer is an index), the number of subprocess starts, and what
    [log.Printf] has written (worker index and error). *)
Record World : Type := mkWorld {
  heap : list ExifToolProcess;
  starts : nat;
  logged : list (Z * error);
}.

(** A call that returns a value of type [A], or does not return: it
    panics, or the runtime ends the program. *)
Inductive Outcome (A : Type) : Type :=
| Panic
| Returned (a : A).
Arguments Panic {A}.
Arguments Returned {A} a.

(** [startExifToolProcess()]. *)
Definition startExifToolProcess (h : Host) (w : World)
  : (error + nat) * World :=
  let w' := mkWorld (heap w) (S (starts w)) (logged w) in
  match spawn h (starts w) with
  | StdinPipeFails e => (inl (ErrorfV "failed to create stdin pipe: " e), w')
  | StdoutPipeFails e =>
      (inl (ErrorfV "failed to create stdout pipe: " e), w')
  | StartFails e => (inl (ErrorfV "failed to start exiftool: " e), w')
  | Started etp =>
      (inr (length (heap w)),
       mkWorld (heap w ++ [etp]) (S (starts w)) (logged w))
  end.

(** [process.Close()] through a pointer; a pointer that names no handle is
    a nil dereference. *)
Definition closeAt (p : nat) (w : World)
  : Outcome (option error * World) :=
  match heap w !! p with
  | None => Panic
  | Some etp =>
      let '(e, etp') := ExifToolProcess_Close etp in
      Returned (e, mkWorld (<[p := etp']> (heap w)) (starts w) (logged w))
  end.

(** The clean-up loop of [NewExifToolManager]:
    [for j := 0; j < i; j++ { processes[j].Close() }]. *)
Fixpoint closeStarted (ps : list nat) (w : World) : Outcome World :=
  match ps with
  | [] => Returned w
  | p :: rest =>
      match closeAt p w with
      | Panic => Panic
      | Returned (_, w') => closeStarted rest w'
      end
  end.

(** The start loop of [NewExifToolManager], [remaining] handles before
    the end; [started] are [processes[0..i)]. *)
Fixpoint startLoop (h : Host) (remaining : nat) (i : Z) (started : list nat)
    (w : World) : Outcome (option ExifToolManager * option error) * World :=
  match remaining with
  | O => (Returned (Some (mkManager started), None), w)
  | S r =>
      match startExifToolProcess h w with
      | (inl e, w1) =>
          match closeStarted started w1 with
          | Panic => (Panic, w1)
          | Returned w2 =>
              (Returned
                 (None,
                  Some (ErrorfDV "failed to start ExifTool process " i
                                 ": " e)),
               w2)
          end
      | (inr process, w1) => startLoop h r (i + 1) (started ++ [process]) w1
      end
  end.

(** [NewExifToolManager(workerCount)]; [make] panics on a negative
    length and does not return for a length the host cannot allocate, in
    both cases before any subprocess is started. *)
Definition NewExifToolManager (h : Host) (workerCount : Z) (w : World)
  : Outcome (option ExifToolManager * option error) * World :=
  match lookPath h with
  | Some e =>
      (Returned (None, Some (ErrorfV "exiftool not found in PATH: " e)), w)
  | None =>
      if (workerCount <? 0) || negb (makeReturns h workerCount)
      then (Panic, w)
      else startLoop h (Z.to_nat workerCount) 0 [] w
  end.

(** The loop of [(etm *ExifToolManager) Close()]. *)
Fixpoint closeLoop (ps : list nat) (i : Z) (lastErr : option error)
    (w : World) : Outcome (option error * World) :=
  match ps with
  | [] => Returned (lastErr, w)
  | p :: rest =>
      match closeAt p w with
      | Panic => Panic
      | Returned (Some e, w') =>
          closeLoop rest (i + 1) (Some e)
            (mkWorld (heap w') (starts w') (logged w' ++ [(i, e)]))
      | Returned (None, w') => closeLoop rest (i + 1) lastErr w'
      end
  end.

(** [(etm *ExifToolManager) Close()]. *)
Definition ExifToolManager_Close (etm : ExifToolManager) (w : World)
  : Outcome (option error * World) :=
  closeLoop (processes etm) 0 None w.

(** ** The per-file pipeline *)

(** [type Config struct]. *)
Record Config : Type := mkConfig {
  SourceDir : string;
  OutputDir : string;
  Move : bool;
  DryRun : bool;
  Workers : Z;
}.

(** [type Result struct]. *)
Record Result : Type := mkResult {
  File : MediaFile;
  Success : bool;
  Action : string;
  Error : option error;
}.

(** [exifDateTags]. *)
Definition exifDateTags : list string :=
  ["DateTimeOriginal"; "CreationDate"; "CreateDate"; "MediaCreateDate";
   "DateTimeCreated"].

(** The decimal digits of a natural number. *)
Definition digits (n : Z) : string :=
  NilZero.string_of_uint (N.to_uint (Z.to_N n)).

Fixpoint zeros (n : nat) : string :=
  match n with
  | O => ""
  | S n' => String "0" (zeros n')
  end.

(** [fmt.Sprintf("%0<width>d", z)]. *)
Definition fmtPadded (width : nat) (z : Z) : string :=
  let ds := digits (Z.abs z) in
  if z <? 0
  then "-" +:+ zeros (width - 1 - String.length ds) +:+ ds
  else zeros (width - String.length ds) +:+ ds.

(** [fmt.Sprintf("%d", z)]. *)
Definition fmtInt (z : Z) : string :=
  if z <? 0 then "-" +:+ digits (Z.abs z) else digits z.

(** [err.Error()], the text [%v] prints. *)
Fixpoint errorString (e : error) : string :=
  match e with
  | LibError pkg detail => pkg +:+ ": " +:+ detail
  | ErrorNew msg => msg
  | ErrorfS msg arg => msg +:+ arg
  | ErrorfV msg cause => msg +:+ errorString cause
  | ErrorfDV msg1 i msg2 cause =>
      msg1 +:+ fmtInt i +:+ msg2 +:+ errorString cause
  end.

(** What the pipeline needs from outside [main.go]: the [time] package
    (parsing and formatting of dates, the calendar date of an instant in its
    time zone), the conversion of JSON numbers, [filepath.Rel], and the
    calls of the [os] package on a world of type [W]. *)
Record Env (W : Type) : Type := mkEnv {
  float64_ok : list ascii -> bool;
  time_Parse : string -> string -> error + time.Time;
  time_Format : time.Time -> string -> string;
  time_YMD : time.Time -> Z * Z * Z;
  filepath_Rel : string -> string -> error + string;
  os_ReadDir : W -> string -> option (list DirEntry);
  os_ReadFile : W -> string -> option string;
  os_MkdirAll : W -> string -> option error * W;
  os_Rename : W -> string -> string -> option error * W;
  os_Lstat : W -> string -> option error;
  os_Remove : W -> string -> option error * W;
  os_Symlink : W -> string -> string -> option error * W;
}.
Arguments float64_ok {W}.
Arguments time_Parse {W}.
Arguments time_Format {W}.
Arguments time_YMD {W}.
Arguments filepath_Rel {W}.
Arguments os_ReadDir {W}.
Arguments os_ReadFile {W}.
Arguments os_MkdirAll {W}.
Arguments os_Rename {W}.
Arguments os_Lstat {W}.
Arguments os_Remove {W}.
Arguments os_Symlink {W}.

Section Pipeline.

Context {W : Type} (env : Env W).

(** What the matcher and the extractor read in world [w]. *)
Definition fsOf (w : W) : FS := mkFS (os_ReadDir env w) (os_ReadFile env w).

(** [parseExifDate(dateStr)]. *)
Definition parseExifDate (dateStr : string) : error + time.Time :=
  let formats := ["2006:01:02 15:04:05"; "2006-01-02T15:04:05Z";
                  "2006-01-02T15:04:05-07:00"; "2006-01-02 15:04:05"] in
  let fix loop (fs : list string) : error + time.Time :=
    match fs with
    | [] => inl (ErrorfS "unable to parse date: " dateStr)
    | format :: rest =>
        match time_Parse env format dateStr with
        | inr date => inr date
        | inl _ => loop rest
        end
    end in
  loop formats.

(** [updateExifDate(config, exifTool, filePath, date)]. *)
Definition updateExifDate (config : Config) (exifTool : ExifToolProcess)
    (filePath : string) (date : time.Time)
  : option error * ExifToolProcess :=
  if DryRun config then (None, exifTool)
  else
    let dateStr := time_Format env date "2006:01:02 15:04:05" in
    UpdateAllDates exifTool filePath dateStr.

(** [generateDestinationPath(outputDir, fileName, date)]. *)
Definition generateDestinationPath (outputDir fileName : string)
    (date : time.Time) : string :=
  let '(y, m, d) := time_YMD env date in
  let year := fmtPadded 4 y in
  let month := fmtPadded 2 m in
  let day := fmtPadded 2 d in
  filepath.JoinList [outputDir; "ALL_PHOTOS"; year; month; day; fileName].

(** [generateAlbumSymlinkPath(outputDir, albumName, fileName)]. *)
Definition generateAlbumSymlinkPath (outputDir albumName fileName : string)
  : string :=
  filepath.JoinList [outputDir; "ALBUMS"; albumName; fileName].

(** [getAlbumName(dir)]. *)
Definition getAlbumName (w : W) (dir : string) : string :=
  let metadataPath := filepath.Join dir "metadata.json" in
  match os_ReadFile env w metadataPath with
  | None => ""
  | Some data =>
      match json.UnmarshalAlbumMetadata data with
      | inl _ => ""
      | inr metadata => json.AlbumTitle metadata
      end
  end.

(** [createAlbumSymlink(targetPath, symlinkPath)]. *)
Definition createAlbumSymlink (w : W) (targetPath symlinkPath : string)
  : option error * W :=
  let albumDir := filepath.Dir symlinkPath in
  match os_MkdirAll env w albumDir with
  | (Some e, w1) =>
      (Some (ErrorfV "failed to create album directory: " e), w1)
  | (None, w1) =>
      match filepath_Rel env albumDir targetPath with
      | inl e => (Some (ErrorfV "failed to calculate relative path: " e), w1)
      | inr relPath =>
          let removed :=
            match os_Lstat env w1 symlinkPath with
            | None => os_Remove env w1 symlinkPath
            | Some _ => (None, w1)
            end in
          match removed with
          | (Some e, w2) =>
              (Some (ErrorfV "failed to remove existing symlink: " e), w2)
          | (None, w2) =>
              match os_Symlink env w2 relPath symlinkPath with
              | (Some e, w3) =>
                  (Some (ErrorfV "failed to create symlink: " e), w3)
              | (None, w3) => (None, w3)
              end
          end
      end
  end.

(** [moveFile(srcPath, destPath)]. *)
Definition moveFile (w : W) (srcPath destPath : string) : option error * W :=
  let destDir := filepath.Dir destPath in
  match os_MkdirAll env w destDir with
  | (Some e, w1) => (Some e, w1)
  | (None, w1) => os_Rename env w1 srcPath destPath
  end.

(** The loop over [exifDateTags] of [processMediaFile]: the date of the
    first tag that is present, not empty and parses. *)
Fixpoint findExifDate (exifData : gmap string string) (tags : list string)
  : option time.Time :=
  match tags with
  | [] => None
  | tag :: rest =>
      match exifData !! tag with
      | Some dateStr =>
          if negb (String.eqb dateStr "") then
            match parseExifDate dateStr with
            | inr date => Some date
            | inl _ => findExifDate exifData rest
            end
          else findExifDate exifData rest
      | None => findExifDate exifData rest
      end
  end.

Definition failWith (result : Result) (e : error) : Result :=
  mkResult (File result) (Success result) (Action result) (Some e).

Definition withAction (result : Result) (a : string) : Result :=
  mkResult (File result) (Success result) a (Error result).

(** The end of [processMediaFile], from "Move file if requested" on. *)
Definition finishMediaFile (config : Config) (file : MediaFile)
    (result : Result) (creationDate : time.Time) (w : W) : Result * W :=
  let moved : (Result + Result) * W :=
    if Move config && negb (time.IsZero creationDate) then
      let destPath :=
        generateDestinationPath (OutputDir config) (BaseName file)
                                creationDate in
      let step1 : (Result + Result) * W :=
        if DryRun config then
          (inr (withAction result
                  (Action result +:+ " | Would move to: " +:+ destPath)), w)
        else
          match moveFile w (Path file) destPath with
          | (Some e, w1) =>
              (inl (failWith result (ErrorfV "failed to move file: " e)), w1)
          | (None, w1) =>
              (inr (withAction result
                      (Action result +:+ " | Moved to: " +:+ destPath)), w1)
          end in
      match step1 with
      | (inl failed, w1) => (inl failed, w1)
      | (inr result1, w1) =>
          let albumName := getAlbumName w1 (Dir file) in
          if negb (String.eqb albumName "") then
            let symlinkPath :=
              generateAlbumSymlinkPath (OutputDir config) albumName
                                       (BaseName file) in
            if DryRun config then
              (inr (withAction result1
                      (Action result1 +:+ " | Would create album symlink: "
                       +:+ symlinkPath)), w1)
            else
              match createAlbumSymlink w1 destPath symlinkPath with
              | (Some e, w2) =>
                  (inr (withAction result1
                          (Action result1 +:+ " | Symlink error: "
                           +:+ errorString e)), w2)
              | (None, w2) =>
                  (inr (withAction result1
                          (Action result1 +:+ " | Album symlink created: "
                           +:+ symlinkPath)), w2)
              end
          else (inr result1, w1)
      end
    else (inr result, w) in
  match moved with
  | (inl failed, w') => (failed, w')
  | (inr result', w') =>
      let result'' :=
        if String.eqb (Action result') ""
        then withAction result' "No action needed" else result' in
      (mkResult (File result'') true (Action result'') (Error result''), w')
  end.

(** [processMediaFile(config, exifTool, file)]. *)
Definition processMediaFile (config : Config) (exifTool : ExifToolProcess)
    (file : MediaFile) (w : W) : Result * ExifToolProcess * W :=
  let result := mkResult file false "" None in
  match GetMetadata (float64_ok env) exifTool (Path file) with
  | (inl e, etp1) =>
      (failWith result (ErrorfV "failed to get EXIF data: " e), etp1, w)
  | (inr exifData, etp1) =>
      match findExifDate exifData exifDateTags with
      | Some creationDate =>
          let '(r, w') := finishMediaFile config file result creationDate w in
          (r, etp1, w')
      | None =>
          let sidecarPath := findSidecarFile (fsOf w) file in
          if negb (String.eqb sidecarPath "") then
            match parseSidecarDate (fsOf w) sidecarPath with
            | inr creationDate =>
                match updateExifDate config etp1 (Path file) creationDate with
                | (Some e, etp2) =>
                    (failWith result
                       (ErrorfV "failed to update EXIF date: " e), etp2, w)
                | (None, etp2) =>
                    let result1 :=
                      withAction result "Updated EXIF from sidecar" in
                    let '(r, w') :=
                      finishMediaFile config file result1 creationDate w in
                    (r, etp2, w')
                end
            | inl e =>
                (failWith result
                   (ErrorfV "failed to parse sidecar date: " e), etp1, w)
            end
          else
            (failWith result
               (ErrorNew "no creation date found in EXIF or sidecar"),
             etp1, w)
      end
  end.

End Pipeline.

(** ** Notions the statements use *)

(** [sub] occurs in [s]. *)
Definition occursIn (sub s : string) : Prop :=
  exists a b, s = a +:+ sub +:+ b.

(** What the body of the inner loop of [findSidecarWithPrefixMatching]
    does with [entry] in the round of the outer loop for the prefix length
    [k]: it returns a path, or goes on. *)
Definition prefixCandidate (fs : FS) (file : MediaFile) (k : nat)
    (entry : DirEntry) : option string :=
  let '(baseForMatching, numberSuffix) := prefixBase file in
  match regexp.Compile
          (candidatePattern (String.substring 0 k baseForMatching)
                            numberSuffix) with
  | Some regex => prefixBody fs file baseForMatching numberSuffix regex entry
  | None => None
  end.

(** A directory of regular files for the examples: the entries [names] of
    directory [dir], each with the content [content] gives it. *)
Definition dirOf (dir : string) (names : list string)
    (content : string -> option string) : FS :=
  mkFS (fun d => if String.eqb d dir
                 then Some (map (fun n => mkDirEntry n false) names)
                 else None)
       (fun p => match find (fun n => String.eqb (filepath.Join dir n) p)
                            names with
                 | Some n => content n
                 | None => None
                 end).

(** A text with a quotation mark for every apostrophe, to write JSON
    texts. *)
Fixpoint quoted (s : string) : string :=
  match s with
  | EmptyString => EmptyString
  | String c s' =>
      String (if Ascii.eqb c "'" then ascii_of_N 34 else c) (quoted s')
  end.

(** The content of a companion file as the tests of the repository write
    it. *)
Definition sidecarContent : string :=
  quoted "{'title': 'test.jpg', 'photoTakenTime': {'timestamp': '1672531200'}}".

(** The directory of a test: regular files, the ones named [*.json] with
    the companion content of the tests. *)
Definition testDir (names : list string) : FS :=
  dirOf "/t" names
    (fun n => Some (if strings.HasSuffix n ".json" then sidecarContent
                    else "media")).

Definition testEntries (names : list string) : list DirEntry :=
  map (fun n => mkDirEntry n false) names.

Definition testFile (name : string) : MediaFile :=
  mkMediaFile (filepath.Join "/t" name) name "/t".

(** The heavily truncated pair of [TestArbitraryTruncationEdgeCase]. *)
Definition truncatedNames : list string :=
  ["BonannoJohn1959VacavilleCalifWithEvaAndDelgado.json";
   "BonannoJohn1959VacavilleCalifWithEvaAndDelgadoK.jpg"].

(** A pair whose companion keeps the first ten characters of the stem
    only. *)
Definition floorNames : list string :=
  ["VacationPh.json"; "VacationPhoto01.jpg"].


(** The listing of [TestFindSidecarFile]. *)
Definition sidecarTestNames : list string :=
  ["IMG_123.jpg"; "IMG_123.jpg.json"; "IMG_456(1).jpg";
   "IMG_456.jpg.supplemental-metadata(1).json"; "blank.jpg";
   "blank.jpg.su.json"].

(** The directory of the literal-parenthesis test. *)
Definition parenNames : list string :=
  ["3x (1).jpg"; "3x (1).jpg.supplemental-metadata.json"].

(** [entry] is a regular file with valid content whose name matches the
    anchored pattern [pattern]: what the inner loop of [findSidecarFile]
    accepts. *)
Definition acceptable (fs : FS) (dir : string) (pattern : list regexp.piece)
    (entry : DirEntry) : Prop :=
  IsDir entry = false
  /\ regexp.MatchString (regexp.piecesRe pattern) (Name entry) = true
  /\ isGooglePhotosSidecar fs (filepath.Join dir (Name entry)) = true.

(** The JSON value [v] has a capture-time object with a timestamp string
    [ts]: a member named [photoTakenTime] (up to case) that is an object
    with a member named [timestamp] (up to case) that is the string [ts]. *)
Definition nestedTimestamp (v : json.Value) (ts : string) : Prop :=
  exists ms k inner k',
    v = json.Object ms
    /\ In (k, json.Object inner) ms
    /\ json.keyMatches "photoTakenTime" k = true
    /\ In (k', json.Str ts) inner
    /\ json.keyMatches "timestamp" k' = true.

(** [s] is a decimal integer: an optional sign and one or more digits;
    [n] is its value. *)
Definition decimalInteger (s : string) (n : Z) : Prop :=
  exists sign ds,
    s = sign +:+ string_of_list_ascii ds
    /\ ds <> []
    /\ Forall (fun c => regexp.isDigit c = true) ds
    /\ ((sign = EmptyString /\ n = strconv.decimal ds)
        \/ (sign = "+" /\ n = strconv.decimal ds)
        \/ (sign = "-" /\ n = - strconv.decimal ds)).

(** The companion file of [TestParseSidecarDate]. *)
Definition sidecarExample : string :=
  quoted "{'title':'t.jpg','photoTakenTime':{'timestamp':'1672531200'}}".

(** A line of output reports a problem: it contains [Error:] or
    [Warning:]. *)
Definition flagged (line : string) : Prop :=
  occursIn "Error:" line \/ occursIn "Warning:" line.

(** A process handle whose standard input takes every write, with the
    given output to come. *)
Definition processWith (out : list string) (exitErr : option error)
  : ExifToolProcess :=
  mkProcess (fun _ => None) []
            (mkScanner (map (fun l => (l, None)) out) None None) exitErr 0.

(** The first and the last error in a sequence of results. *)
Fixpoint firstFailure (results : list (option error)) : option error :=
  match results with
  | [] => None
  | Some e :: _ => Some e
  | None :: rest => firstFailure rest
  end.

Fixpoint lastFailure (results : list (option error)) : option error :=
  match results with
  | [] => None
  | r :: rest =>
      match lastFailure rest with
      | Some e => Some e
      | None => r
      end
  end.

(** What closing the handles [ps] returns, one after the other. *)
Definition exitsOf (hp : list ExifToolProcess) (ps : list nat)
  : list (option error) :=
  map (fun p => match hp !! p with
                | Some etp => exit etp
                | None => None
                end) ps.

(** The error [startExifToolProcess] returns for the n-th start of a
    subprocess, if that start fails. *)
Definition spawnError (h : Host) (n : nat) : option error :=
  match spawn h n with
  | StdinPipeFails e => Some (ErrorfV "failed to create stdin pipe: " e)
  | StdoutPipeFails e => Some (ErrorfV "failed to create stdout pipe: " e)
  | StartFails e => Some (ErrorfV "failed to start exiftool: " e)
  | Started _ => None
  end.

(** A handle after [Close]. *)
Definition closed (etp : ExifToolProcess) : ExifToolProcess :=
  snd (ExifToolProcess_Close etp).

(** A pool of two handles whose subprocesses both fail to exit cleanly. *)
Definition errA : error := LibError "exec" "exit status 1".
Definition errB : error := LibError "exec" "signal: killed".
Definition twoFailing : World :=
  mkWorld [processWith [] (Some errA); processWith [] (Some errB)] 2 [].

(** A host on which the third start of a subprocess fails, and which
    allocates a slice of up to 2^20 handles. *)
Definition thirdFails : Host :=
  mkHost None
    (fun n => if (n <? 2)%nat then Started (processWith [] None)
              else StartFails (LibError "exec" "resource temporarily unavailable"))
    (fun n => n <=? 2 ^ 20).

(** An environment for examples: no file system, dates in one layout
    only. *)
Definition exampleEnv : Env unit :=
  mkEnv unit
    (fun _ => true)
    (fun layout value =>
       if String.eqb value "2023:01:01 00:00:00"
       then inr (time.DateUTC 2023 1 1 0 0 0)
       else inl (LibError "time" "parsing time"))
    (fun _ _ => "2023:01:01 00:00:00")
    (fun _ => (2023, 1, 1))
    (fun _ _ => inl (LibError "filepath" "Rel"))
    (fun _ _ => None)
    (fun _ _ => None)
    (fun w _ => (None, w))
    (fun w _ _ => (None, w))
    (fun _ _ => Some (LibError "os" "lstat"))
    (fun w _ => (None, w))
    (fun w _ _ => (None, w)).

(** The answer of the tool for a file with an embedded capture date. *)
Definition exifAnswer : list string :=
  [quoted "[{'SourceFile': 'a.jpg', 'DateTimeOriginal': '2023:01:01 00:00:00'}]";
   "{ready}"].

(** A result is a success with an action, or a failure with an error. *)
Definition wellFormed (r : Result) : Prop :=
  (Success r = true /\ Error r = None /\ Action r <> EmptyString)
  \/ (Success r = false /\ Error r <> None).

(** [s] is a stem [a] without newline and a number [d] in parentheses:
    what the two groups of [numberSuffixRegex] are. *)
Definition splitsNumbered (s a d : string) : Prop :=
  s = a +:+ "(" +:+ d +:+ ")"
  /\ a <> EmptyString
  /\ forallb (fun x => negb (regexp.isNL x)) (list_ascii_of_string a) = true
  /\ d <> EmptyString
  /\ forallb regexp.isDigit (list_ascii_of_string d) = true.

(** ** Notions for the further properties *)

(** One round of the loop over the patterns in [findSidecarFile]. *)
Definition patternRound (fs : FS) (file : MediaFile)
    (entries : list DirEntry) (pattern : list regexp.piece) : option string :=
  match regexp.Compile pattern with
  | None => None
  | Some sidecarRegex => rangeOver (sidecarBody fs file sidecarRegex) entries
  end.

(** The text [GetMetadata] builds from the lines it reads: each line
    followed by a line feed. *)
Fixpoint joinLines (ls : list (string * option error)) : string :=
  match ls with
  | [] => EmptyString
  | (line, _) :: rest => line +:+ nl +:+ joinLines rest
  end.

(** The command [GetMetadata] writes for a file. *)
Definition readCommand (filePath : string) : string :=
  "-json" +:+ nl +:+ "-dateFormat" +:+ nl +:+ "%Y:%m:%d %H:%M:%S" +:+ nl
  +:+ filePath +:+ nl +:+ "-execute" +:+ nl.

(** The command [UpdateAllDates] writes for a file and a date. *)
Definition writeCommand (filePath dateStr : string) : string :=
  "-overwrite_original" +:+ nl +:+ "-AllDates=" +:+ dateStr +:+ nl
  +:+ filePath +:+ nl +:+ "-execute" +:+ nl.

(** The value of the last member of an object with the key [k]. *)
Fixpoint lastValue (k : string) (ms : list (string * json.Value))
  : option json.Value :=
  match ms with
  | [] => None
  | (k', v) :: rest =>
      match lastValue k rest with
      | Some v' => Some v'
      | None => if String.eqb k' k then Some v else None
      end
  end.

(** An element of the array that [json.Unmarshal] stores into a
    [map[string]interface{}]: null, or an object whose numbers all fit a
    [float64]. *)
Definition decodable (float64_ok : list ascii -> bool) (v : json.Value)
  : bool :=
  match v with
  | json.Null => true
  | json.Object ms =>
      forallb (fun kv => exifjson.numbersOk float64_ok (snd kv)) ms
  | _ => false
  end.

(** [(etm *ExifToolManager) GetProcessForWorker(workerID)]: indexing the
    slice panics when the index is out of range. *)
Definition GetProcessForWorker (etm : ExifToolManager) (workerID : Z)
  : Outcome nat :=
  if workerID <? 0 then Panic
  else match processes etm !! Z.to_nat workerID with
       | Some process => Returned process
       | None => Panic
       end.

(** A tag gives no date: it is absent, empty, or does not parse. *)
Definition unusable {W : Type} (env : Env W)
    (exifData : gmap string string) (tag : string) : Prop :=
  match exifData !! tag with
  | Some dateStr =>
      dateStr = EmptyString
      \/ exists e, parseExifDate env dateStr = inl e
  | None => True
  end.

(** An environment for examples over the listing of
    [TestFindSidecarFile]: no date layout parses, nothing can be written
    to the file system. *)
Definition sidecarEnv : Env unit :=
  mkEnv unit
    (fun _ => true)
    (fun _ _ => inl (LibError "time" "parsing time"))
    (fun _ _ => "2023:01:01 00:00:00")
    (fun _ => (2023, 1, 1))
    (fun _ _ => inl (LibError "filepath" "Rel"))
    (fun _ => ReadDir (testDir sidecarTestNames))
    (fun _ => ReadFile (testDir sidecarTestNames))
    (fun w _ => (Some (LibError "os" "read-only file system"), w))
    (fun w _ _ => (Some (LibError "os" "read-only file system"), w))
    (fun _ _ => Some (LibError "os" "lstat"))
    (fun w _ => (Some (LibError "os" "read-only file system"), w))
    (fun w _ _ => (Some (LibError "os" "read-only file system"), w)).

(** ** The configuration check *)

Section Validate.

Context {W : Type} (env : Env W).

(** [os.Stat(name)], its error only, and [os.IsNotExist(err)], which is
    false for nil. *)
Variable os_Stat : W -> string -> option error.
Variable os_IsNotExist : option error -> bool.

(** [validateConfig(config)].  The configuration is behind a pointer: the
    worker count that was set is returned with the error. *)
Definition validateConfig (config : Config) (w : W)
  : option error * Config * W :=
  if String.eqb (SourceDir config) "" then
    (Some (ErrorNew "source directory is required"), config, w)
  else if String.eqb (OutputDir config) "" then
    (Some (ErrorNew "output directory is required"), config, w)
  else
    let config1 :=
      if Workers config <=? 0
      then mkConfig (SourceDir config) (OutputDir config) (Move config)
                    (DryRun config) 4
      else config in
    if os_IsNotExist (os_Stat w (SourceDir config1)) then
      (Some (ErrorfS "source directory does not exist: "
                     (SourceDir config1)), config1, w)
    else if negb (DryRun config1) then
      match os_MkdirAll env w (OutputDir config1) with
      | (Some e, w1) =>
          (Some (ErrorfV "failed to create output directory: " e),
           config1, w1)
      | (None, w1) => (None, config1, w1)
      end
    else (None, config1, w).

End Validate.

(** ** The scan for media files *)

(** [supportedExts]. *)
Definition supportedExtList : list string :=
  [".jpg"; ".jpeg"; ".png"; ".tiff"; ".tif"; ".bmp"; ".gif"; ".webp";
   ".heic"; ".heif"; ".mp4"; ".mov"; ".avi"; ".mkv"; ".wmv"; ".m4v";
   ".3gp"; ".webm"; ".flv"; ".mts"; ".m2ts"; ".ts"; ".mxf"].

Definition supportedExts : gmap string bool :=
  list_to_map (map (fun e => (e, true)) supportedExtList).

(** [supportedExts[ext]]: a key that is absent gives false. *)
Definition supported (ext : string) : bool :=
  match supportedExts !! ext with
  | Some b => b
  | None => false
  end.

Definition lowerByte (c : ascii) : ascii :=
  let n := nat_of_ascii c in
  if (65 <=? n)%nat && (n <=? 90)%nat then ascii_of_nat (n + 32) else c.

(** [strings.ToLower(s)] on byte strings: the letters [A] to [Z] become
    lower case, the capital I with a dot above (U+0130, bytes 196 176)
    becomes [i] and the Kelvin sign (U+212A, bytes 226 132 170) becomes
    [k]; these two are the only characters outside ASCII whose lower case
    is in ASCII.  Every other byte outside ASCII is left as it is, where
    Go lowers the character or replaces an invalid byte by U+FFFD: the
    result has a byte outside ASCII here as there, so it is a key of
    [supportedExts] in neither case. *)
Fixpoint strings_ToLower (s : string) : string :=
  match s with
  | EmptyString => EmptyString
  | String c s' =>
      match c, s' with
      | "196"%char, String "176"%char r => String "i" (strings_ToLower r)
      | "226"%char, String "132"%char (String "170"%char r) =>
          String "k" (strings_ToLower r)
      | _, _ => String (lowerByte c) (strings_ToLower s')
      end
  end.

(** [path] without its trailing separators. *)
Fixpoint stripTrailingSep (path : string) : string :=
  match path with
  | EmptyString => EmptyString
  | String c s' =>
      match stripTrailingSep s' with
      | EmptyString =>
          if filepath.isSep c then EmptyString else String c EmptyString
      | rest => String c rest
      end
  end.

(** What follows the last separator of [path]. *)
Fixpoint lastElement (path : string) : string :=
  match path with
  | EmptyString => EmptyString
  | String c s' =>
      if filepath.hasSep s' then lastElement s'
      else if filepath.isSep c then s'
      else path
  end.

(** [filepath.Base(path)]. *)
Definition filepath_Base (path : string) : string :=
  if String.eqb path "" then "."
  else
    let last := lastElement (stripTrailingSep path) in
    if String.eqb last "" then "/" else last.

(** One call of the function [filepath.WalkDir] is given: the path, whether
    the entry is a directory, and the error met on the way to it. *)
Record Visit : Type := mkVisit {
  visitPath : string;
  visitIsDir : bool;
  visitErr : option error;
}.

Definition mediaOf (path : string) : MediaFile :=
  mkMediaFile path (filepath_Base path) (filepath.Dir path).

(** [filepath.WalkDir(sourceDir, fn)] with the function of
    [scanMediaFiles]: [visits] are the calls the walk makes as long as the
    function returns nil; the walk ends with the first error the function
    returns. *)
Fixpoint walkLoop (visits : list Visit) (mediaFiles : list MediaFile)
  : list MediaFile * option error :=
  match visits with
  | [] => (mediaFiles, None)
  | v :: rest =>
      match visitErr v with
      | Some e => (mediaFiles, Some e)
      | None =>
          if visitIsDir v then walkLoop rest mediaFiles
          else
            let ext := strings_ToLower (filepath.Ext (visitPath v)) in
            if supported ext
            then walkLoop rest (mediaFiles ++ [mediaOf (visitPath v)])
            else walkLoop rest mediaFiles
      end
  end.

(** [scanMediaFiles(sourceDir)], on a file system whose walk from
    [sourceDir] is [walk sourceDir]. *)
Definition scanMediaFiles (walk : string -> list Visit) (sourceDir : string)
  : list MediaFile * option error :=
  walkLoop (walk sourceDir) [].

(** A visit [scanMediaFiles] keeps. *)
Definition isMedia (v : Visit) : bool :=
  negb (visitIsDir v)
  && supported (strings_ToLower (filepath.Ext (visitPath v))).

(** ** The worker *)

Section Worker.

Context {W : Type} (env : Env W).

(** The loop of [worker] over the jobs it receives.  The file system is
    shared with the other workers: each job comes with the state of the
    file system its file is processed in. *)
Fixpoint workerLoop (config : Config) (process : ExifToolProcess)
    (jobs : list (MediaFile * W)) : list Result * ExifToolProcess :=
  match jobs with
  | [] => ([], process)
  | (file, w) :: rest =>
      let '(result, process1, _) := processMediaFile env config process file w in
      let '(results, process2) := workerLoop config process1 rest in
      (result :: results, process2)
  end.

(** [worker(workerID, config, exifTool, jobs, results, wg)]: the results it
    sends, in order.  A handle that is nil is dereferenced by the first
    job. *)
Definition worker (workerID : Z) (config : Config) (exifTool : ExifToolManager)
    (pool : World) (jobs : list (MediaFile * W))
  : Outcome (list Result * World) :=
  match GetProcessForWorker exifTool workerID with
  | Panic => Panic
  | Returned p =>
      match jobs with
      | [] => Returned ([], pool)
      | _ =>
          match heap pool !! p with
          | None => Panic
          | Some process =>
              let '(results, process') := workerLoop config process jobs in
              Returned (results,
                        mkWorld (<[p := process']> (heap pool)) (starts pool)
                                (logged pool))
          end
      end
  end.

End Worker.

(** ** The summary *)

(** What [printSummary] prints: the error lines in order, the three
    counts, and the action lines, which come in the order of a map
    iteration. *)
Record Summary : Type := mkSummary {
  errorLines : list string;
  total : Z;
  successful : Z;
  failed : Z;
  actions : gmap string Z;
}.

(** [fmt.Sprintf("%v", err)]. *)
Definition fmtError (e : option error) : string :=
  match e with
  | Some e => errorString e
  | None => "<nil>"
  end.

(** The line [printSummary] prints for a failed result. *)
Definition errorLine (result : Result) : string :=
  "ERROR: " +:+ Path (File result) +:+ " - " +:+ fmtError (Error result)
  +:+ nl.

(** The loop of [printSummary]. *)
Fixpoint summaryLoop (results : list Result) (s : Summary) : Summary :=
  match results with
  | [] => s
  | result :: rest =>
      if Success result then
        summaryLoop rest
          (mkSummary (errorLines s) (total s) (successful s + 1) (failed s)
             (<[Action result :=
                  match actions s !! Action result with
                  | Some n => n + 1
                  | None => 1
                  end]> (actions s)))
      else
        summaryLoop rest
          (mkSummary
             (errorLines s ++ [errorLine result])
             (total s) (successful s) (failed s + 1) (actions s))
  end.

(** [printSummary(results)]. *)
Definition printSummary (results : list Result) : Summary :=
  summaryLoop results (mkSummary [] (Z.of_nat (length results)) 0 0 ∅).

(** The number of successful results with the action [a]. *)
Definition countAction (a : string) (results : list Result) : Z :=
  Z.of_nat
    (length (List.filter (fun r => Success r && String.eqb (Action r) a)
                         results)).


(** An environment for examples: a directory [/a] with album metadata. *)
Definition albumEnv : Env unit :=
  mkEnv unit
    (fun _ => true)
    (fun _ _ => inl (LibError "time" "parsing time"))
    (fun _ _ => "2023:01:01 00:00:00")
    (fun _ => (2023, 1, 1))
    (fun _ _ => inl (LibError "filepath" "Rel"))
    (fun _ _ => None)
    (fun _ path => if String.eqb path "/a/metadata.json"
                   then Some (quoted "{'title': 'Trip', 'Title': null}")
                   else None)
    (fun w _ => (None, w))
    (fun w _ _ => (None, w))
    (fun _ _ => Some (LibError "os" "lstat"))
    (fun w _ => (None, w))
    (fun w _ _ => (None, w)).

(** An environment that records the calls of the [os] package that change
    the file system: the state is the list of the calls made so far, and
    every call succeeds. *)
Definition logEnv : Env (list string) :=
  mkEnv (list string)
    (fun _ => true)
    (fun layout value =>
       if String.eqb value "2023:01:01 00:00:00"
       then inr (time.DateUTC 2023 1 1 0 0 0)
       else inl (LibError "time" "parsing time"))
    (fun _ _ => "2023:01:01 00:00:00")
    (fun _ => (2023, 1, 1))
    (fun _ target => inr target)
    (fun _ _ => None)
    (fun _ _ => None)
    (fun w path => (None, w ++ ["MkdirAll " +:+ path]))
    (fun w src dst => (None, w ++ ["Rename " +:+ src +:+ " " +:+ dst]))
    (fun _ _ => Some (LibError "os" "lstat"))
    (fun w path => (None, w ++ ["Remove " +:+ path]))
    (fun w target link =>
       (None, w ++ ["Symlink " +:+ target +:+ " " +:+ link])).

(** * Properties *)

(** ** Matching by derivatives decides the language *)

Module regexp_facts.
Import regexp.

Lemma lang_Cat r1 r2 s :
  lang (Cat r1 r2) s <-> exists s1 s2, s = s1 ++ s2 /\ lang r1 s1 /\ lang r2 s2.
Proof.
  split.
  - intros H. inversion H; subst. eauto.
  - intros (s1 & s2 & -> & H1 & H2). now constructor.
Qed.

Lemma lang_Alt r1 r2 s : lang (Alt r1 r2) s <-> lang r1 s \/ lang r2 s.
Proof.
  split.
  - intros H. inversion H; subst; auto.
  - intros [H | H]; [now apply L_AltL | now apply L_AltR].
Qed.

Lemma nullable_lang r : nullable r = true <-> lang r [].
Proof.
  induction r; simpl.
  - split; [discriminate | intros H; inversion H].
  - split; [constructor | reflexivity].
  - split; [discriminate | intros H; inversion H].
  - split; [discriminate | intros H; inversion H].
  - split; [discriminate | intros H; inversion H].
  - rewrite andb_true_iff, IHr1, IHr2, lang_Cat. split.
    + intros [H1 H2]. exists [], []. auto.
    + intros (s1 & s2 & Heq & H1 & H2). symmetry in Heq.
      apply app_eq_nil in Heq as [-> ->]. auto.
  - now rewrite orb_true_iff, IHr1, IHr2, lang_Alt.
  - split; [constructor | reflexivity].
Qed.

Lemma deriv_sound c r : forall s, lang (deriv c r) s -> lang r (c :: s).
Proof.
  induction r; simpl; intros s H.
  - inversion H.
  - inversion H.
  - destruct (Ascii.eqb_spec c c0) as [->|]; inversion H; subst; constructor.
  - destruct (isNL c) eqn:E; inversion H; subst. now constructor.
  - destruct (isDigit c) eqn:E; inversion H; subst. now constructor.
  - assert (Hcat : forall t, lang (Cat (deriv c r1) r2) t ->
                             lang (Cat r1 r2) (c :: t)).
    { intros t Ht. apply lang_Cat in Ht as (s1 & s2 & -> & H1 & H2).
      change (c :: s1 ++ s2) with ((c :: s1) ++ s2). constructor; auto. }
    destruct (nullable r1) eqn:E; [|now apply Hcat].
    apply lang_Alt in H as [H | H]; [now apply Hcat|].
    change (c :: s) with ([] ++ c :: s).
    constructor; [now apply nullable_lang | auto].
  - apply lang_Alt in H as [H | H]; [apply L_AltL | apply L_AltR]; auto.
  - apply lang_Cat in H as (s1 & s2 & -> & H1 & H2).
    change (c :: s1 ++ s2) with ((c :: s1) ++ s2).
    constructor; auto.
Qed.

Lemma deriv_complete c r s0 :
  lang r s0 -> forall s, s0 = c :: s -> lang (deriv c r) s.
Proof.
  induction 1 as [| d | d Hd | d Hd | r1 r2 s1 s2 H1 IH1 H2 IH2
                  | r1 r2 s1 H1 IH1 | r1 r2 s1 H1 IH1 |
                  | r1 s1 s2 H1 IH1 H2 IH2]; intros s Heq; simpl.
  - discriminate.
  - injection Heq as -> <-. rewrite Ascii.eqb_refl. constructor.
  - injection Heq as -> <-. rewrite Hd. constructor.
  - injection Heq as -> <-. rewrite Hd. constructor.
  - destruct s1 as [|a s1'].
    + simpl in Heq. subst s2.
      apply nullable_lang in H1. rewrite H1. apply L_AltR. now apply IH2.
    + simpl in Heq. injection Heq as -> <-.
      assert (lang (Cat (deriv c r1) r2) (s1' ++ s2))
        by (constructor; [now apply IH1 | assumption]).
      destruct (nullable r1); [now apply L_AltL | assumption].
  - apply L_AltL. now apply IH1.
  - apply L_AltR. now apply IH1.
  - discriminate.
  - destruct s1 as [|a s1'].
    + simpl in Heq. now apply IH2.
    + simpl in Heq. injection Heq as -> <-.
      constructor; [now apply IH1 | assumption].
Qed.

Theorem matchList_lang r s : matchList r s = true <-> lang r s.
Proof.
  revert r. induction s as [|c s IH]; intros r; simpl.
  - apply nullable_lang.
  - rewrite IH. split.
    + apply deriv_sound.
    + intros H. now apply (deriv_complete c r (c :: s)).
Qed.

Lemma lang_LitList l s : lang (LitList l) s <-> s = l.
Proof.
  revert s. induction l as [|c l IH]; intros s; simpl.
  - split; intros H; [now inversion H | subst; constructor].
  - rewrite lang_Cat. split.
    + intros (s1 & s2 & -> & H1 & H2). inversion H1; subst.
      apply IH in H2. now subst.
    + intros ->. exists [c], l. repeat split; [constructor | now apply IH].
Qed.

Lemma lang_StarAny s :
  lang (Star AnyNoNL) s <-> forallb (fun c => negb (isNL c)) s = true.
Proof.
  split.
  - intros H. remember (Star AnyNoNL) as r eqn:Er.
    induction H as [| | | | | | | | r1 s1 s2 H1 _ H2 IH2];
      try discriminate; auto.
    injection Er as ->. inversion H1 as [| |c Hc| | | | | |]; subst. simpl.
    rewrite Hc. simpl. auto.
  - induction s as [|c s IH]; simpl; intros H.
    + constructor.
    + apply andb_true_iff in H as [Hc Hs].
      change (c :: s) with ([c] ++ s). constructor; auto.
      constructor. now destruct (isNL c).
Qed.

End regexp_facts.

(** ** Strings *)

Module string_facts.

#[local] Arguments String.append : simpl nomatch.

Lemma append_nil_r (s : string) : s +:+ EmptyString = s.
Proof. induction s; simpl; congruence. Qed.

Lemma append_assoc (a b c : string) : (a +:+ b) +:+ c = a +:+ (b +:+ c).
Proof. induction a; simpl; congruence. Qed.

Lemma length_append (a b : string) :
  String.length (a +:+ b) = (String.length a + String.length b)%nat.
Proof. induction a; simpl; congruence. Qed.

Lemma list_of_append (a b : string) :
  list_ascii_of_string (a +:+ b)
  = list_ascii_of_string a ++ list_ascii_of_string b.
Proof. induction a; simpl; congruence. Qed.

Lemma length_list_of (s : string) :
  length (list_ascii_of_string s) = String.length s.
Proof. induction s; simpl; congruence. Qed.

Lemma string_of_app (a b : list ascii) :
  string_of_list_ascii (a ++ b)
  = string_of_list_ascii a +:+ string_of_list_ascii b.
Proof. induction a; simpl; congruence. Qed.

Lemma list_of_inj (a b : string) :
  list_ascii_of_string a = list_ascii_of_string b -> a = b.
Proof.
  intros H. rewrite <- (string_of_list_ascii_of_string a),
    <- (string_of_list_ascii_of_string b). now rewrite H.
Qed.

Lemma prefix_spec (p s : string) :
  String.prefix p s = true <-> exists r, s = p +:+ r.
Proof.
  revert s. induction p as [|c p IH]; intros s; simpl.
  - destruct s; split; eauto.
  - destruct s as [|d s]; simpl.
    + split; [discriminate | intros (r & Hr); discriminate].
    + destruct (Ascii.ascii_dec c d) as [->|Hne].
      * rewrite IH. split; intros (r & Hr); exists r; congruence.
      * split; [discriminate | intros (r & Hr); congruence].
Qed.

Lemma Contains_spec (s sub : string) :
  strings.Contains s sub = true <-> occursIn sub s.
Proof.
  unfold occursIn. induction s as [|c s IH]; cbn [strings.Contains].
  - rewrite orb_false_r, prefix_spec. split.
    + intros (r & Hr). exists EmptyString, r. exact Hr.
    + intros (a & b & H). destruct a; [|discriminate]. eauto.
  - rewrite orb_true_iff, IH, prefix_spec. split.
    + intros [(r & Hr) | (a & b & H)].
      * exists EmptyString, r. exact Hr.
      * exists (String c a), b. simpl. congruence.
    + intros (a & b & H). destruct a as [|d a]; simpl in H.
      * left. eauto.
      * right. exists a, b. congruence.
Qed.

Lemma HasSuffix_spec (s suf : string) :
  strings.HasSuffix s suf = true <-> exists p, s = p +:+ suf.
Proof.
  induction s as [|c s IH]; cbn [strings.HasSuffix].
  - rewrite orb_false_r, String.eqb_eq. split.
    + intros <-. now exists EmptyString.
    + intros (p & H). destruct p; [exact H | discriminate].
  - rewrite orb_true_iff, String.eqb_eq, IH. split.
    + intros [<- | (p & ->)]; [now exists EmptyString |].
      now exists (String c p).
    + intros (p & H). destruct p as [|d p]; simpl in H; [now left|].
      right. exists p. congruence.
Qed.

Lemma substring_append (a b : string) :
  String.substring 0 (String.length a) (a +:+ b) = a.
Proof.
  induction a as [|c a IH]; simpl.
  - now destruct b.
  - now rewrite IH.
Qed.

Lemma TrimSuffix_append (p suf : string) :
  strings.TrimSuffix (p +:+ suf) suf = p.
Proof.
  unfold strings.TrimSuffix.
  assert (H : strings.HasSuffix (p +:+ suf) suf = true)
    by (apply HasSuffix_spec; eauto).
  rewrite H, length_append.
  replace (String.length p + String.length suf - String.length suf)%nat
    with (String.length p) by lia.
  apply substring_append.
Qed.

Lemma TrimSuffix_empty (s : string) : strings.TrimSuffix s EmptyString = s.
Proof.
  rewrite <- (append_nil_r s) at 1. apply TrimSuffix_append.
Qed.

Lemma substring_split (k : nat) (s : string) :
  (k <= String.length s)%nat ->
  exists r, s = String.substring 0 k s +:+ r
            /\ String.length (String.substring 0 k s) = k.
Proof.
  revert s. induction k as [|k IH]; intros s Hk.
  - exists s. destruct s; simpl; auto.
  - destruct s as [|c s]; simpl in *; [lia|].
    destruct (IH s) as (r & Hr & Hl); [lia|].
    exists r. split; congruence.
Qed.

End string_facts.

(** ** The content check *)

(** C10.  [isGooglePhotosSidecar] accepts a file exactly when the file can
    be read and its content contains [photoTakenTime] and [timestamp] and
    either contains [title] or is shorter than 1000 bytes (the length of a
    Go string); so a readable file without [title] is accepted when it is
    under 1000 bytes and has the two other words, and a file that cannot be
    read is rejected. *)
Theorem isGooglePhotosSidecar_iff :
  (forall (fs : FS) (filePath : string),
     isGooglePhotosSidecar fs filePath = true <->
     exists content,
       ReadFile fs filePath = Some content
       /\ occursIn "photoTakenTime" content
       /\ occursIn "timestamp" content
       /\ (occursIn "title" content \/ (String.length content < 1000)%nat))
  /\ (forall (fs : FS) (filePath content : string),
        ReadFile fs filePath = Some content ->
        ~ occursIn "title" content ->
        (String.length content < 1000)%nat ->
        occursIn "photoTakenTime" content ->
        occursIn "timestamp" content ->
        isGooglePhotosSidecar fs filePath = true)
  /\ (forall (fs : FS) (filePath : string),
        ReadFile fs filePath = None ->
        isGooglePhotosSidecar fs filePath = false).
Proof.
  assert (Hiff : forall fs filePath,
     isGooglePhotosSidecar fs filePath = true <->
     exists content,
       ReadFile fs filePath = Some content
       /\ occursIn "photoTakenTime" content
       /\ occursIn "timestamp" content
       /\ (occursIn "title" content \/ (String.length content < 1000)%nat)).
  { intros fs filePath. unfold isGooglePhotosSidecar.
    destruct (ReadFile fs filePath) as [content|].
    - rewrite !andb_true_iff, orb_true_iff, Nat.ltb_lt,
        !string_facts.Contains_spec.
      split.
      + intros [[H1 H2] H3]. exists content. auto.
      + intros (c & Hc & H1 & H2 & H3). injection Hc as <-. auto.
    - split; [discriminate | intros (c & Hc & _); discriminate]. }
  split; [exact Hiff | split].
  - intros fs filePath content Hr _ Hlen H1 H2.
    apply Hiff. exists content. auto.
  - intros fs filePath Hr. unfold isGooglePhotosSidecar. now rewrite Hr.
Qed.

(** A readable file without [title], under 1000 bytes, is accepted. *)
Lemma isGooglePhotosSidecar_iff_witness :
  isGooglePhotosSidecar
    (mkFS (fun _ => None)
          (fun _ => Some "photoTakenTime timestamp")) "a.json" = true.
Proof.
  apply (proj1 (proj2 isGooglePhotosSidecar_iff)
           _ _ "photoTakenTime timestamp").
  - reflexivity.
  - intros H. apply string_facts.Contains_spec in H. discriminate H.
  - simpl. lia.
  - apply string_facts.Contains_spec. reflexivity.
  - apply string_facts.Contains_spec. reflexivity.
Defined.

(** ** Loops that may return *)

Lemma rangeOver_Some {A : Type} (body : A -> option string) (l : list A)
    (r : string) :
  rangeOver body l = Some r ->
  exists l1 x l2,
    l = l1 ++ x :: l2 /\ body x = Some r /\ (forall y, In y l1 -> body y = None).
Proof.
  induction l as [|a l IH]; simpl; [discriminate|].
  destruct (body a) as [r'|] eqn:Ha.
  - intros [= <-]. exists [], a, l. repeat split; auto. intros y [].
  - intros H. destruct (IH H) as (l1 & x & l2 & -> & Hx & Hl1).
    exists (a :: l1), x, l2. repeat split; auto.
    intros y [<- | Hy]; auto.
Qed.

Lemma rangeOver_None {A : Type} (body : A -> option string) (l : list A) :
  rangeOver body l = None -> forall y, In y l -> body y = None.
Proof.
  induction l as [|a l IH]; simpl; [intros _ y []|].
  destruct (body a) eqn:Ha; [discriminate|].
  intros H y [<- | Hy]; auto.
Qed.

Lemma rangeOver_first {A : Type} (body : A -> option string)
    (l1 l2 : list A) (x : A) (r : string) :
  (forall y, In y l1 -> body y = None) -> body x = Some r ->
  rangeOver body (l1 ++ x :: l2) = Some r.
Proof.
  intros Hl1 Hx. induction l1 as [|a l1 IH]; simpl.
  - now rewrite Hx.
  - rewrite (Hl1 a) by now left. apply IH. intros y Hy. apply Hl1. now right.
Qed.

(** The prefix lengths come in decreasing order and are the ones between
    the two bounds. *)
Lemma seq_split_sorted (a n : nat) (x y : list nat) (k : nat) :
  seq a n = x ++ k :: y ->
  (forall z, In z x -> (a <= z < k)%nat)
  /\ (forall z, In z y -> (k < z < a + n)%nat)
  /\ (a <= k < a + n)%nat.
Proof.
  revert a x. induction n as [|n IH]; intros a x H; simpl in H.
  - destruct x; discriminate.
  - destruct x as [|b x]; simpl in H.
    + injection H as Hk Hy. subst k y. split; [intros z0 []|].
      split; [|lia]. intros z0 Hz. apply in_seq in Hz. lia.
    + injection H as Hb H. subst b.
      destruct (IH _ _ H) as (H1 & H2 & H3).
      split; [|split; [|lia]].
      * intros z0 [<- | Hz]; [lia | apply H1 in Hz; lia].
      * intros z0 Hz. apply H2 in Hz. lia.
Qed.

Lemma prefixLens_split (len minLen : nat) (l1 l2 : list nat) (k : nat) :
  (minLen <= len)%nat ->
  prefixLens len minLen = l1 ++ k :: l2 ->
  (minLen <= k <= len)%nat
  /\ (forall k', (k < k' <= len)%nat -> In k' l1).
Proof.
  unfold prefixLens. intros Hle H.
  assert (Hs : seq minLen (S len - minLen) = rev l2 ++ k :: rev l1).
  { rewrite <- (rev_involutive (seq _ _)), H, rev_app_distr. simpl.
    now rewrite <- app_assoc. }
  destruct (seq_split_sorted _ _ _ _ _ Hs) as (H1 & H2 & H3).
  split; [lia|]. intros k' Hk'.
  assert (Hin : In k' (seq minLen (S len - minLen)))
    by (apply in_seq; lia).
  rewrite Hs in Hin. apply in_app_or in Hin as [Hin | [-> | Hin]].
  - apply H1 in Hin. lia.
  - lia.
  - now apply in_rev.
Qed.

(** The lengths tried before [k] are the longer ones. *)
Lemma prefixLens_earlier (len minLen : nat) (l1 l2 : list nat) (k : nat) :
  (minLen <= len)%nat ->
  prefixLens len minLen = l1 ++ k :: l2 ->
  forall k', In k' l1 -> (k < k' <= len)%nat.
Proof.
  unfold prefixLens. intros Hle H k' Hk'.
  assert (Hs : seq minLen (S len - minLen) = rev l2 ++ k :: rev l1).
  { rewrite <- (rev_involutive (seq _ _)), H, rev_app_distr. simpl.
    now rewrite <- app_assoc. }
  destruct (seq_split_sorted _ _ _ _ _ Hs) as (_ & H2 & _).
  apply in_rev in Hk'. apply H2 in Hk'. lia.
Qed.

Lemma rangeOver_none_intro {A : Type} (body : A -> option string)
    (l : list A) :
  (forall y, In y l -> body y = None) -> rangeOver body l = None.
Proof.
  induction l as [|a l IH]; simpl; intros H; [reflexivity|].
  rewrite (H a) by now left. apply IH. intros y Hy. apply H. now right.
Qed.

Lemma prefixLens_In (len minLen k : nat) :
  In k (prefixLens len minLen) <-> (minLen <= k < minLen + (S len - minLen))%nat.
Proof.
  unfold prefixLens. rewrite <- in_rev. apply in_seq.
Qed.

(** ** The progressive-prefix fallback *)

Module prefix_facts.

#[local] Arguments String.append : simpl nomatch.

Lemma MatchString_lang (r : regexp.re) (s : string) :
  regexp.MatchString r s = true <-> regexp.lang r (list_ascii_of_string s).
Proof. apply regexp_facts.matchList_lang. Qed.

Lemma lang_Lit_app (lit : string) (r : regexp.re) (s : list ascii) :
  regexp.lang (regexp.Cat (regexp.Lit lit) r) s <->
  exists t, s = list_ascii_of_string lit ++ t /\ regexp.lang r t.
Proof.
  rewrite regexp_facts.lang_Cat. split.
  - intros (s1 & s2 & -> & H1 & H2).
    apply regexp_facts.lang_LitList in H1. subst. eauto.
  - intros (t & -> & H). exists (list_ascii_of_string lit), t.
    repeat split; auto. now apply regexp_facts.lang_LitList.
Qed.

Lemma lang_Eps_nil (s : list ascii) : regexp.lang regexp.Eps s <-> s = [].
Proof.
  split; [intros H; now inversion H | intros ->; constructor].
Qed.

(** A name that matches the candidate pattern is the prefix, any
    characters, the number suffix and [.json]. *)
Lemma candidate_match (prefix numberSuffix name : string) (regex : regexp.re) :
  regexp.Compile (candidatePattern prefix numberSuffix) = Some regex ->
  regexp.MatchString regex name = true ->
  exists mid, name = prefix +:+ mid +:+ numberSuffix +:+ ".json".
Proof.
  unfold regexp.Compile, candidatePattern. intros Hc Hm.
  apply MatchString_lang in Hm.
  destruct (String.eqb_spec numberSuffix EmptyString) as [-> | Hne];
    simpl negb in Hc; cbv iota in Hc;
    destruct (forallb _ _); try discriminate; injection Hc as <-;
    cbn [regexp.piecesRe regexp.pieceRe] in Hm.
  - apply lang_Lit_app in Hm as (t1 & Hn & Hm).
    apply regexp_facts.lang_Cat in Hm as (mid & t2 & -> & _ & Hm).
    apply lang_Lit_app in Hm as (t3 & -> & Hm).
    apply lang_Eps_nil in Hm as ->.
    exists (string_of_list_ascii mid). apply string_facts.list_of_inj.
    rewrite Hn, !string_facts.list_of_append,
      list_ascii_of_string_of_list_ascii.
    simpl. rewrite ?app_nil_r. reflexivity.
  - apply lang_Lit_app in Hm as (t1 & Hn & Hm).
    apply regexp_facts.lang_Cat in Hm as (mid & t2 & -> & _ & Hm).
    apply lang_Lit_app in Hm as (t3 & -> & Hm).
    apply lang_Lit_app in Hm as (t4 & -> & Hm).
    apply lang_Eps_nil in Hm as ->.
    exists (string_of_list_ascii mid). apply string_facts.list_of_inj.
    rewrite Hn, !string_facts.list_of_append,
      list_ascii_of_string_of_list_ascii.
    simpl. rewrite ?app_nil_r. reflexivity.
Qed.

Lemma Clean_nonempty (path : string) : filepath.Clean path <> EmptyString.
Proof.
  unfold filepath.Clean.
  destruct (match path with String c _ => filepath.isSep c | _ => false end);
    [discriminate|].
  match goal with |- context [String.eqb ?b EmptyString] =>
    destruct (String.eqb_spec b EmptyString) end; [discriminate | assumption].
Qed.

Lemma Join_nonempty (dir name : string) :
  name <> EmptyString -> filepath.Join dir name <> EmptyString.
Proof.
  intros Hn. unfold filepath.Join. cbn [filepath.JoinList].
  destruct (String.eqb_spec dir EmptyString); [|apply Clean_nonempty].
  destruct (String.eqb_spec name EmptyString); [contradiction|].
  apply Clean_nonempty.
Qed.

(** What holds of an entry the inner loop returns. *)
Lemma prefixCandidate_Some (fs : FS) (file : MediaFile) (k : nat)
    (entry : DirEntry) (p : string) :
  prefixCandidate fs file k entry = Some p ->
  IsDir entry = false
  /\ p = filepath.Join (Dir file) (Name entry)
  /\ isGooglePhotosSidecar fs p = true
  /\ exists mid,
       let stem := String.substring 0 k (fst (prefixBase file)) +:+ mid in
       Name entry = stem +:+ snd (prefixBase file) +:+ ".json"
       /\ strings.TrimSuffix (strings.TrimSuffix (Name entry) ".json")
                             (snd (prefixBase file)) = stem
       /\ 0 <= Z.of_nat (String.length (fst (prefixBase file)))
               - Z.of_nat (String.length stem)
          <= Z.of_nat (String.length (fst (prefixBase file))) / 3.
Proof.
  unfold prefixCandidate.
  destruct (prefixBase file) as [base num]. cbn [fst snd].
  destruct (regexp.Compile _) as [regex|] eqn:Hc; [|discriminate].
  unfold prefixBody.
  destruct (IsDir entry); [discriminate|]. cbn [negb andb].
  destruct (regexp.MatchString regex (Name entry)) eqn:Hm; [|discriminate].
  destruct (isGooglePhotosSidecar fs _) eqn:Hv; [|discriminate].
  destruct (candidate_match _ _ _ _ Hc Hm) as (mid & Hname).
  assert (Hstem :
    (if negb (String.eqb num EmptyString)
     then strings.TrimSuffix (strings.TrimSuffix (Name entry) ".json") num
     else strings.TrimSuffix (Name entry) ".json")
    = String.substring 0 k base +:+ mid).
  { rewrite Hname.
    rewrite <- (string_facts.append_assoc (String.substring 0 k base) mid),
      <- (string_facts.append_assoc _ num), string_facts.TrimSuffix_append.
    destruct (String.eqb_spec num EmptyString) as [-> | Hne]; cbn [negb].
    - apply string_facts.append_nil_r.
    - apply string_facts.TrimSuffix_append. }
  rewrite Hstem.
  destruct ((_ <=? _) && (0 <=? _)) eqn:Hb; [|discriminate].
  intros [= <-]. apply andb_true_iff in Hb as [Hb1 Hb2].
  apply Z.leb_le in Hb1, Hb2.
  repeat split; auto.
  exists mid. cbv zeta. split; [|split; [|lia]].
  - rewrite Hname. now rewrite string_facts.append_assoc.
  - rewrite Hname.
    rewrite <- (string_facts.append_assoc (String.substring 0 k base) mid),
      <- (string_facts.append_assoc _ num), string_facts.TrimSuffix_append.
    destruct (String.eqb_spec num EmptyString) as [-> | Hne].
    + now rewrite string_facts.TrimSuffix_empty, string_facts.append_nil_r.
    + apply string_facts.TrimSuffix_append.
Qed.

End prefix_facts.

Module prefix_rounds.

Lemma rangeOver_ext {A : Type} (f g : A -> option string) (l : list A) :
  (forall x, f x = g x) -> rangeOver f l = rangeOver g l.
Proof.
  intros H. induction l as [|a l IH]; simpl; [reflexivity|].
  now rewrite H, IH.
Qed.

Lemma rangeOver_const_None {A : Type} (l : list A) :
  rangeOver (fun _ : A => @None string) l = None.
Proof. induction l; simpl; auto. Qed.

(** One round of the outer loop is the inner loop over the candidates of
    that round. *)
Lemma round_candidates (fs : FS) (file : MediaFile)
    (entries : list DirEntry) (k : nat) :
  match regexp.Compile
          (candidatePattern
             (String.substring 0 k (fst (prefixBase file)))
             (snd (prefixBase file))) with
  | None => None
  | Some regex =>
      rangeOver (prefixBody fs file (fst (prefixBase file))
                            (snd (prefixBase file)) regex) entries
  end
  = rangeOver (prefixCandidate fs file k) entries.
Proof.
  unfold prefixCandidate. destruct (prefixBase file) as [base num].
  cbn [fst snd]. destruct (regexp.Compile _) as [regex|].
  - reflexivity.
  - symmetry. apply rangeOver_const_None.
Qed.

Lemma fallback_rounds (fs : FS) (file : MediaFile) (entries : list DirEntry) :
  findSidecarWithPrefixMatching fs file entries
  = match rangeOver
            (fun k => rangeOver (prefixCandidate fs file k) entries)
            (prefixLens (String.length (fst (prefixBase file)))
               (Nat.min 10 (String.length (fst (prefixBase file))))) with
    | Some sidecarPath => sidecarPath
    | None => EmptyString
    end.
Proof.
  unfold findSidecarWithPrefixMatching.
  pose proof (round_candidates fs file entries) as Hr.
  destruct (prefixBase file) as [base num]. cbn [fst snd] in *.
  replace (if (String.length base <? 10)%nat then String.length base
           else 10%nat)
    with (Nat.min 10 (String.length base))
    by (destruct (Nat.ltb_spec (String.length base) 10); lia).
  erewrite rangeOver_ext; [reflexivity|]. intros k. apply Hr.
Qed.

(** A path the fallback returns is the path of a candidate of some
    round. *)
Lemma fallback_candidate (fs : FS) (file : MediaFile)
    (entries : list DirEntry) :
  findSidecarWithPrefixMatching fs file entries <> EmptyString ->
  exists k entry,
    In entry entries
    /\ prefixCandidate fs file k entry
       = Some (findSidecarWithPrefixMatching fs file entries).
Proof.
  rewrite fallback_rounds. intros Hne.
  destruct (rangeOver _ (prefixLens _ _)) as [r|] eqn:Hr; [|congruence].
  apply rangeOver_Some in Hr as (l1 & k & l2 & _ & Hk & _).
  apply rangeOver_Some in Hk as (before & entry & after & -> & Hc & _).
  exists k, entry. split; [|exact Hc].
  apply in_or_app. right. now left.
Qed.

End prefix_rounds.

(** C2.  The progressive-prefix fallback tries the prefix lengths from the
    length of the stem down to the floor (10, or the length of the stem
    when that is shorter), and in each round the entries in the order of
    the listing.  When it returns a path, the path is that of an entry
    [entry] of the listing taken in the round of a prefix length [k]
    between the floor and the length of the stem; no entry was taken in a
    round of a longer prefix, nor an earlier entry in the same round; the
    entry is a regular file with valid content whose name starts with the
    prefix and ends in the number suffix and [.json]; and its own stem, the
    name without [.json] and without the number suffix, is not longer than
    the stem of the media file and shorter by at most a third of the
    length of that stem.  So a JSON file outside this bound is never
    selected.  Conversely every round down to the floor is reached: the
    first entry taken in the round of a prefix length [k] between the
    floor and the length of the stem is returned when no entry is taken in
    a round of a longer prefix. *)
Theorem prefix_fallback_bound (fs : FS) (file : MediaFile)
    (entries : list DirEntry) :
  (forall p : string,
     findSidecarWithPrefixMatching fs file entries = p ->
     p <> EmptyString ->
     exists (k : nat) (before after : list DirEntry) (entry : DirEntry)
            (stem : string),
       entries = before ++ entry :: after
       /\ (Nat.min 10 (String.length (fst (prefixBase file))) <= k
           <= String.length (fst (prefixBase file)))%nat
       /\ prefixCandidate fs file k entry = Some p
       /\ (forall e, In e before -> prefixCandidate fs file k e = None)
       /\ (forall k' e,
             (k < k' <= String.length (fst (prefixBase file)))%nat ->
             In e entries -> prefixCandidate fs file k' e = None)
       /\ IsDir entry = false
       /\ p = filepath.Join (Dir file) (Name entry)
       /\ isGooglePhotosSidecar fs p = true
       /\ strings.HasPrefix (Name entry)
            (String.substring 0 k (fst (prefixBase file))) = true
       /\ Name entry = stem +:+ snd (prefixBase file) +:+ ".json"
       /\ strings.TrimSuffix (strings.TrimSuffix (Name entry) ".json")
                             (snd (prefixBase file)) = stem
       /\ 0 <= Z.of_nat (String.length (fst (prefixBase file)))
               - Z.of_nat (String.length stem)
       /\ 3 * (Z.of_nat (String.length (fst (prefixBase file)))
               - Z.of_nat (String.length stem))
          <= Z.of_nat (String.length (fst (prefixBase file))))
  /\ (forall (k : nat) (before after : list DirEntry) (entry : DirEntry)
             (p : string),
        entries = before ++ entry :: after ->
        (Nat.min 10 (String.length (fst (prefixBase file))) <= k
         <= String.length (fst (prefixBase file)))%nat ->
        prefixCandidate fs file k entry = Some p ->
        (forall e, In e before -> prefixCandidate fs file k e = None) ->
        (forall k' e,
           (k < k' <= String.length (fst (prefixBase file)))%nat ->
           In e entries -> prefixCandidate fs file k' e = None) ->
        findSidecarWithPrefixMatching fs file entries = p).
Proof.
  split.
  - intros p. rewrite prefix_rounds.fallback_rounds. intros Hp Hne.
    destruct (rangeOver _ (prefixLens _ _)) as [r|] eqn:Hr;
      [subst r | congruence].
    apply rangeOver_Some in Hr as (l1 & k & l2 & Hl & Hk & Hl1).
    apply prefixLens_split in Hl as [Hrange Hlonger]; [|lia].
    apply rangeOver_Some in Hk as (before & entry & after & He & Hc & Hb).
    destruct (prefix_facts.prefixCandidate_Some _ _ _ _ _ Hc)
      as (Hdir & Hjoin & Hvalid & mid & Hname & Htrim & Hbound).
    cbv zeta in Hname, Htrim, Hbound.
    exists k, before, after, entry,
      (String.substring 0 k (fst (prefixBase file)) +:+ mid).
    repeat split; auto; try lia.
    + intros k' e Hk' Hin.
      eapply rangeOver_None; [|exact Hin]. apply Hl1. now apply Hlonger.
    + apply string_facts.prefix_spec. rewrite Hname.
      rewrite string_facts.append_assoc. eauto.
    + assert (H3 := Z.mul_div_le
                      (Z.of_nat (String.length (fst (prefixBase file)))) 3).
      lia.
  - intros k before after entry p He Hk Hc Hb Hlonger.
    rewrite prefix_rounds.fallback_rounds.
    assert (Hin : In k (prefixLens
                          (String.length (fst (prefixBase file)))
                          (Nat.min 10
                             (String.length (fst (prefixBase file))))))
      by (apply prefixLens_In; lia).
    apply in_split in Hin as (l1 & l2 & Hl). rewrite Hl.
    rewrite (rangeOver_first _ l1 l2 k p); [reflexivity | |].
    + intros k' Hk'. apply rangeOver_none_intro. intros e Hin.
      apply Hlonger; [|exact Hin].
      eapply prefixLens_earlier; [|exact Hl|exact Hk']. lia.
    + rewrite He. now apply rangeOver_first.
Qed.

(** The truncated pair of the tests: the fallback takes the companion.  A
    companion that keeps ten characters of a stem of fifteen is taken in
    the last round, that of the floor. *)
Lemma prefix_fallback_bound_witness :
  (let fs := testDir truncatedNames in
   let file :=
     testFile "BonannoJohn1959VacavilleCalifWithEvaAndDelgadoK.jpg" in
   let entries := testEntries truncatedNames in
   let p := "/t/BonannoJohn1959VacavilleCalifWithEvaAndDelgado.json" in
   exists (k : nat) (before after : list DirEntry) (entry : DirEntry)
          (stem : string),
     entries = before ++ entry :: after
     /\ (Nat.min 10 (String.length (fst (prefixBase file))) <= k
         <= String.length (fst (prefixBase file)))%nat
     /\ prefixCandidate fs file k entry = Some p
     /\ (forall e, In e before -> prefixCandidate fs file k e = None)
     /\ (forall k' e,
           (k < k' <= String.length (fst (prefixBase file)))%nat ->
           In e entries -> prefixCandidate fs file k' e = None)
     /\ IsDir entry = false
     /\ p = filepath.Join (Dir file) (Name entry)
     /\ isGooglePhotosSidecar fs p = true
     /\ strings.HasPrefix (Name entry)
          (String.substring 0 k (fst (prefixBase file))) = true
     /\ Name entry = stem +:+ snd (prefixBase file) +:+ ".json"
     /\ strings.TrimSuffix (strings.TrimSuffix (Name entry) ".json")
                           (snd (prefixBase file)) = stem
     /\ 0 <= Z.of_nat (String.length (fst (prefixBase file)))
             - Z.of_nat (String.length stem)
     /\ 3 * (Z.of_nat (String.length (fst (prefixBase file)))
             - Z.of_nat (String.length stem))
        <= Z.of_nat (String.length (fst (prefixBase file))))
  /\ findSidecarWithPrefixMatching (testDir floorNames)
       (testFile "VacationPhoto01.jpg") (testEntries floorNames)
     = "/t/VacationPh.json".
Proof.
  split.
  - intros fs file entries p.
    apply (proj1 (prefix_fallback_bound fs file entries) p).
    + vm_compute. reflexivity.
    + discriminate.
  - apply (proj2 (prefix_fallback_bound (testDir floorNames)
                    (testFile "VacationPhoto01.jpg")
                    (testEntries floorNames))
             10%nat [] [mkDirEntry "VacationPhoto01.jpg" false]
             (mkDirEntry "VacationPh.json" false) "/t/VacationPh.json").
    + reflexivity.
    + vm_compute. lia.
    + vm_compute. reflexivity.
    + intros e [].
    + intros k' e Hk He.
      assert (Hlen : String.length
                       (fst (prefixBase (testFile "VacationPhoto01.jpg")))
                     = 15%nat) by (vm_compute; reflexivity).
      rewrite Hlen in Hk.
      assert (Hcases : k' = 11%nat \/ k' = 12%nat \/ k' = 13%nat
                       \/ k' = 14%nat \/ k' = 15%nat) by lia.
      simpl in He.
      destruct He as [<- | [<- | []]];
        destruct Hcases as [-> | [-> | [-> | [-> | ->]]]];
        vm_compute; reflexivity.
Defined.

(** ** Exact patterns *)

Lemma rangeOver_unique {A : Type} (body : A -> option string) (l : list A)
    (x : A) (r : string) :
  In x l -> body x = Some r ->
  (forall y r', In y l -> body y = Some r' -> r' = r) ->
  rangeOver body l = Some r.
Proof.
  induction l as [|a l IH]; simpl; [intros []|].
  intros Hin Hx Hu. destruct (body a) as [r'|] eqn:Ha.
  - f_equal. apply (Hu a); auto.
  - destruct Hin as [-> | Hin]; [congruence|].
    apply IH; auto. intros y r' Hy. apply Hu. now right.
Qed.

Lemma sidecarBody_Some (fs : FS) (file : MediaFile)
    (pattern : list regexp.piece) (entry : DirEntry) (r : string) :
  sidecarBody fs file (regexp.piecesRe pattern) entry = Some r <->
  acceptable fs (Dir file) pattern entry
  /\ r = filepath.Join (Dir file) (Name entry).
Proof.
  unfold sidecarBody, acceptable.
  destruct (IsDir entry); cbn [negb andb].
  - split; [discriminate | intros [[? _] _]; discriminate].
  - destruct (regexp.MatchString _ _).
    + destruct (isGooglePhotosSidecar _ _).
      * split; [intros [= <-]; auto | intros [_ ->]; reflexivity].
      * split; [discriminate | intros [(_ & _ & ?) _]; discriminate].
    + split; [discriminate | intros [(_ & ? & _) _]; discriminate].
Qed.





(** ** A parenthesis that belongs to the name *)

Module paren_facts.

#[local] Arguments String.append : simpl nomatch.

(** A name that matches an exact pattern with a number suffix ends in the
    suffix and [.json]. *)
Lemma exact_match_suffix (base num name : string) :
  regexp.MatchString
    (regexp.piecesRe [regexp.Quoted base; regexp.OptDotAny;
                      regexp.Quoted num; regexp.Quoted ".json"]) name = true ->
  strings.HasSuffix name (num +:+ ".json") = true.
Proof.
  intros Hm. apply prefix_facts.MatchString_lang in Hm.
  cbn [regexp.piecesRe regexp.pieceRe] in Hm.
  apply prefix_facts.lang_Lit_app in Hm as (t1 & Hn & Hm).
  apply regexp_facts.lang_Cat in Hm as (mid & t2 & -> & _ & Hm).
  apply prefix_facts.lang_Lit_app in Hm as (t3 & -> & Hm).
  apply prefix_facts.lang_Lit_app in Hm as (t4 & -> & Hm).
  apply prefix_facts.lang_Eps_nil in Hm as ->.
  apply string_facts.HasSuffix_spec.
  exists (base +:+ string_of_list_ascii mid).
  apply string_facts.list_of_inj.
  rewrite Hn, !string_facts.list_of_append,
    list_ascii_of_string_of_list_ascii.
  rewrite app_nil_r, <- app_assoc. reflexivity.
Qed.

End paren_facts.

(** C1.  For the media file [3x (1).jpg] the matcher takes [(1)] for a
    number suffix: in the directory of the test, which holds the
    content-valid companion [3x (1).jpg.supplemental-metadata.json], it
    finds nothing; and whatever the directory, what it returns is the path
    of an entry whose name ends in [(1).json], which the companion's name
    does not. *)
Theorem findSidecarFile_literal_parenthesis :
  findSidecarFile (testDir parenNames) (testFile "3x (1).jpg") = EmptyString
  /\ isGooglePhotosSidecar (testDir parenNames)
       "/t/3x (1).jpg.supplemental-metadata.json" = true
  /\ strings.HasSuffix "3x (1).jpg.supplemental-metadata.json" "(1).json"
     = false
  /\ forall (fs : FS) (path dir : string),
       findSidecarFile fs (mkMediaFile path "3x (1).jpg" dir) = EmptyString
       \/ exists entry,
            findSidecarFile fs (mkMediaFile path "3x (1).jpg" dir)
            = filepath.Join dir (Name entry)
            /\ strings.HasSuffix (Name entry) "(1).json" = true.
Proof.
  split; [vm_compute; reflexivity|].
  split; [vm_compute; reflexivity|].
  split; [vm_compute; reflexivity|].
  intros fs path dir. unfold findSidecarFile.
  change (sidecarPatterns (mkMediaFile path "3x (1).jpg" dir))
    with [[regexp.Quoted "3x .jpg"; regexp.OptDotAny;
           regexp.Quoted "(1)"; regexp.Quoted ".json"]].
  cbn [Dir]. destruct (ReadDir fs dir) as [entries|]; [|now left].
  cbn [rangeOver].
  change (regexp.Compile [regexp.Quoted "3x .jpg"; regexp.OptDotAny;
                          regexp.Quoted "(1)"; regexp.Quoted ".json"])
    with (Some (regexp.piecesRe
                  [regexp.Quoted "3x .jpg"; regexp.OptDotAny;
                   regexp.Quoted "(1)"; regexp.Quoted ".json"])).
  cbv beta iota.
  match goal with |- context [rangeOver ?b entries] =>
    destruct (rangeOver b entries) as [r|] eqn:Hr end.
  - right. apply rangeOver_Some in Hr as (l1 & entry & l2 & _ & Hb & _).
    apply sidecarBody_Some in Hb as [(_ & Hm & _) ->].
    exists entry. split; [reflexivity|].
    now apply paren_facts.exact_match_suffix in Hm.
  - destruct (String.eqb_spec
                (findSidecarWithPrefixMatching fs
                   (mkMediaFile path "3x (1).jpg" dir) entries)
                EmptyString) as [He | Hne]; [now left | right].
    destruct (prefix_rounds.fallback_candidate _ _ _ Hne)
      as (k & entry & _ & Hc).
    destruct (prefix_facts.prefixCandidate_Some _ _ _ _ _ Hc)
      as (_ & Hp & _ & mid & Hname & _).
    exists entry. split; [exact Hp|].
    cbv zeta in Hname.
    change (snd (prefixBase (mkMediaFile path "3x (1).jpg" dir)))
      with "(1)" in Hname.
    apply string_facts.HasSuffix_spec. eexists. exact Hname.
Qed.

(** ** The timestamp of a companion file *)

Module sidecar_facts.

#[local] Arguments String.append : simpl nomatch.

Lemma ParseInt_inr (s : string) (n : Z) :
  strconv.ParseInt s = inr n ->
  decimalInteger s n /\ - 2 ^ 63 <= n < 2 ^ 63.
Proof.
  unfold strconv.ParseInt, decimalInteger.
  assert (Hs : s = string_of_list_ascii (list_ascii_of_string s))
    by (symmetry; apply string_of_list_ascii_of_string).
  revert Hs. generalize (list_ascii_of_string s) as l. intros l ->.
  destruct l as [|c r]; [discriminate|].
  assert (Hgen : forall (neg : bool) (sign : string) (ds : list ascii),
    (sign = EmptyString /\ neg = false \/ sign = "+" /\ neg = false
     \/ sign = "-" /\ neg = true) ->
    match ds with
    | [] => inl (LibError "strconv" "invalid syntax")
    | _ :: _ =>
        if negb (forallb regexp.isDigit ds)
        then inl (LibError "strconv" "invalid syntax")
        else
          if negb neg && (2 ^ 63 <=? strconv.decimal ds)
          then inl (LibError "strconv" "value out of range")
          else if neg && (2 ^ 63 <? strconv.decimal ds)
          then inl (LibError "strconv" "value out of range")
          else inr (if neg then - strconv.decimal ds else strconv.decimal ds)
    end = inr n ->
    (exists sign0 ds0,
       sign +:+ string_of_list_ascii ds
       = sign0 +:+ string_of_list_ascii ds0
       /\ ds0 <> []
       /\ Forall (fun c => regexp.isDigit c = true) ds0
       /\ ((sign0 = EmptyString /\ n = strconv.decimal ds0)
           \/ (sign0 = "+" /\ n = strconv.decimal ds0)
           \/ (sign0 = "-" /\ n = - strconv.decimal ds0)))
    /\ - 2 ^ 63 <= n < 2 ^ 63).
  { intros neg sign ds Hsign H. destruct ds as [|d ds']; [discriminate|].
    destruct (forallb regexp.isDigit (d :: ds')) eqn:Hd;
      cbn [negb] in H; [|discriminate].
    assert (Hpos : 0 <= strconv.decimal (d :: ds')).
    { unfold strconv.decimal.
      assert (Hacc : forall l acc, forallb regexp.isDigit l = true ->
                0 <= acc ->
                0 <= fold_left (fun a c => a * 10 + strconv.digitVal c) l acc).
      { induction l as [|x l IH]; simpl; intros acc Hl Ha; [exact Ha|].
        apply andb_true_iff in Hl as [Hx Hl]. apply IH; auto.
        unfold regexp.isDigit in Hx. apply andb_true_iff in Hx as [Hx1 Hx2].
        apply N.leb_le in Hx1, Hx2. unfold strconv.digitVal. lia. }
      apply Hacc; [exact Hd | lia]. }
    assert (HF : Forall (fun c => regexp.isDigit c = true) (d :: ds'))
      by (apply List.Forall_forall, forallb_forall; exact Hd).
    destruct neg; cbn [negb andb] in H.
    - destruct (2 ^ 63 <? strconv.decimal (d :: ds')) eqn:Hr; [discriminate|].
      injection H as <-. apply Z.ltb_ge in Hr. split; [|lia].
      exists sign, (d :: ds').
      split; [reflexivity|]. split; [discriminate|]. split; [exact HF|].
      destruct Hsign as [[_ ?] | [[_ ?] | [-> _]]]; try discriminate. auto.
    - destruct (2 ^ 63 <=? strconv.decimal (d :: ds')) eqn:Hr; [discriminate|].
      injection H as <-. apply Z.leb_gt in Hr. split; [|lia].
      exists sign, (d :: ds').
      split; [reflexivity|]. split; [discriminate|]. split; [exact HF|].
      destruct Hsign as [[-> _] | [[-> _] | [_ ?]]]; try discriminate; auto. }
  destruct (json.byteIs 43 c) eqn:Hplus.
  - intros H. apply (Hgen false "+" r) in H; [|auto].
    assert (c = "+"%char) as ->.
    { unfold json.byteIs in Hplus. apply N.eqb_eq in Hplus.
      rewrite <- (ascii_N_embedding c), Hplus. reflexivity. }
    exact H.
  - destruct (json.byteIs 45 c) eqn:Hminus.
    + intros H. apply (Hgen true "-" r) in H; [|auto].
      assert (c = "-"%char) as ->.
      { unfold json.byteIs in Hminus. apply N.eqb_eq in Hminus.
        rewrite <- (ascii_N_embedding c), Hminus. reflexivity. }
      exact H.
    + intros H. apply (Hgen false EmptyString (c :: r)) in H; [|auto].
      exact H.
Qed.

(** Failure of [ParseInt] on the empty string: an absent timestamp. *)
Lemma ParseInt_empty : exists e, strconv.ParseInt EmptyString = inl e.
Proof. eexists. reflexivity. Qed.

Lemma storeString_inr (v : json.Value) (cur s : string) :
  json.storeString v cur = inr s -> s = cur \/ v = json.Str s.
Proof.
  destruct v; simpl; intros [= <-]; auto.
Qed.

(** The timestamp after the members of the inner object are stored is the
    one before, or a timestamp string among the members. *)
Lemma storeInner (ms : list (string * json.Value))
    (cur p : json.PhotoTakenTimeData) :
  json.storeMembers json.storePhotoTakenTimeField ms cur = inr p ->
  json.Timestamp p = json.Timestamp cur
  \/ exists k', In (k', json.Str (json.Timestamp p)) ms
                /\ json.keyMatches "timestamp" k' = true.
Proof.
  revert cur. induction ms as [|[k v] ms IH]; intros cur; simpl.
  - intros [= <-]. now left.
  - unfold json.storePhotoTakenTimeField at 1.
    destruct (json.keyMatches "timestamp" k) eqn:Hk.
    + destruct (json.storeString v (json.Timestamp cur)) as [e|s] eqn:Hs;
        [discriminate|].
      intros H. destruct (IH _ H) as [Heq | (k' & Hin & Hk')].
      * simpl in Heq. apply storeString_inr in Hs as [-> | ->]; [now left|].
        right. exists k. rewrite Heq. auto.
      * right. exists k'. auto.
    + intros H. destruct (IH _ H) as [Heq | (k' & Hin & Hk')];
        [now left | right; exists k'; auto].
Qed.

Lemma storeOuter (ms : list (string * json.Value))
    (cur sc : json.SidecarData) :
  json.storeMembers json.storeSidecarField ms cur = inr sc ->
  json.Timestamp (json.PhotoTakenTime sc)
  = json.Timestamp (json.PhotoTakenTime cur)
  \/ exists k inner k',
       In (k, json.Object inner) ms
       /\ json.keyMatches "photoTakenTime" k = true
       /\ In (k', json.Str (json.Timestamp (json.PhotoTakenTime sc))) inner
       /\ json.keyMatches "timestamp" k' = true.
Proof.
  revert cur. induction ms as [|[k v] ms IH]; intros cur; simpl.
  - intros [= <-]. now left.
  - unfold json.storeSidecarField at 1.
    destruct (json.keyMatches "title" k) eqn:Ht.
    + destruct (json.storeString v (json.Title cur)); [discriminate|].
      intros H. destruct (IH _ H) as [Heq | (k0 & inner & k' & Hin & ?)].
      * now left.
      * right. exists k0, inner, k'. tauto.
    + destruct (json.keyMatches "photoTakenTime" k) eqn:Hp.
      * destruct (json.storeStruct _ v _) as [e|p] eqn:Hs; [discriminate|].
        intros H. destruct (IH _ H) as [Heq | (k0 & inner & k' & Hin & ?)].
        -- simpl in Heq. destruct v; simpl in Hs; try discriminate.
           ++ injection Hs as <-. now left.
           ++ apply storeInner in Hs as [Hs | (k' & Hin & Hk')].
              ** left. congruence.
              ** right. exists k, members, k'. rewrite Heq. auto.
        -- right. exists k0, inner, k'. tauto.
      * intros H. destruct (IH _ H) as [Heq | (k0 & inner & k' & Hin & ?)];
          [now left | right; exists k0, inner, k'; tauto].
Qed.

(** A decoded timestamp that is not empty is a nested timestamp string of
    the file. *)
Lemma Unmarshal_timestamp (data : string) (sc : json.SidecarData) :
  json.UnmarshalSidecarData data = inr sc ->
  json.Timestamp (json.PhotoTakenTime sc) <> EmptyString ->
  exists v, json.Parse data = Some v
            /\ nestedTimestamp v (json.Timestamp (json.PhotoTakenTime sc)).
Proof.
  unfold json.UnmarshalSidecarData.
  destruct (json.Parse data) as [v|]; [|discriminate].
  intros H Hne. exists v. split; [reflexivity|].
  destruct v; simpl in H; try discriminate.
  - injection H as <-. simpl in Hne. congruence.
  - apply storeOuter in H as [H | (k & inner & k' & H1 & H2 & H3 & H4)].
    + simpl in H. congruence.
    + exists members, k, inner, k'. auto.
Qed.

(** What a successful [parseSidecarDate] tells. *)
Lemma parseSidecarDate_inr (fs : FS) (sidecarPath : string) (t : time.Time) :
  parseSidecarDate fs sidecarPath = inr t ->
  exists data v ts n,
    ReadFile fs sidecarPath = Some data
    /\ json.Parse data = Some v
    /\ nestedTimestamp v ts
    /\ decimalInteger ts n
    /\ - 2 ^ 63 <= n < 2 ^ 63
    /\ t = time.Unix n.
Proof.
  unfold parseSidecarDate.
  destruct (ReadFile fs sidecarPath) as [data|]; [|discriminate].
  destruct (json.UnmarshalSidecarData data) as [e|sc] eqn:Hu; [discriminate|].
  destruct (strconv.ParseInt _) as [e|n] eqn:Hp; [discriminate|].
  intros [= <-]. destruct (ParseInt_inr _ _ Hp) as [Hdec Hrange].
  destruct (Unmarshal_timestamp _ _ Hu) as (v & Hv & Hn).
  { intros He. rewrite He in Hp. discriminate. }
  exists data, v, (json.Timestamp (json.PhotoTakenTime sc)), n.
  repeat split; try assumption; try reflexivity; lia.
Qed.

End sidecar_facts.

(** C5.  The companion file of the test parses to the instant
    2023-01-01T00:00:00Z, Unix second 1672531200.  A companion file that
    parses has, as JSON, a capture-time object with a timestamp that is a
    string of an optional sign and decimal digits, and the instant returned
    is the Unix second of that number; so a file whose nested timestamp is
    absent, is not a string or is not a decimal integer makes
    [parseSidecarDate] fail: no instant is returned for it. *)
Theorem parseSidecarDate_spec :
  (forall (fs : FS) (sidecarPath : string),
     ReadFile fs sidecarPath = Some sidecarExample ->
     parseSidecarDate fs sidecarPath = inr (time.Unix 1672531200)
     /\ time.UnixOf (time.Unix 1672531200) = 1672531200
     /\ time.Equal (time.Unix 1672531200) (time.DateUTC 2023 1 1 0 0 0)
        = true)
  /\ (forall (fs : FS) (sidecarPath : string) (t : time.Time),
        parseSidecarDate fs sidecarPath = inr t ->
        exists data v ts n,
          ReadFile fs sidecarPath = Some data
          /\ json.Parse data = Some v
          /\ nestedTimestamp v ts
          /\ decimalInteger ts n
          /\ t = time.Unix n)
  /\ (forall (fs : FS) (sidecarPath : string),
        (forall data v ts n,
           ReadFile fs sidecarPath = Some data ->
           json.Parse data = Some v ->
           nestedTimestamp v ts -> ~ decimalInteger ts n) ->
        exists e, parseSidecarDate fs sidecarPath = inl e).
Proof.
  split; [|split].
  - intros fs sidecarPath Hr. unfold parseSidecarDate. rewrite Hr.
    split; [vm_compute; reflexivity|].
    split; vm_compute; reflexivity.
  - intros fs sidecarPath t H.
    destruct (sidecar_facts.parseSidecarDate_inr _ _ _ H)
      as (data & v & ts & n & H1 & H2 & H3 & H4 & _ & H5).
    exists data, v, ts, n. repeat split; assumption.
  - intros fs sidecarPath Hno.
    destruct (parseSidecarDate fs sidecarPath) as [e|t] eqn:H; [eauto|].
    destruct (sidecar_facts.parseSidecarDate_inr _ _ _ H)
      as (data & v & ts & n & H1 & H2 & H3 & H4 & _ & H5).
    exfalso. exact (Hno data v ts n H1 H2 H3 H4).
Qed.

(** The file of the test, and a file whose timestamp is not a number. *)
Lemma parseSidecarDate_spec_witness :
  parseSidecarDate (mkFS (fun _ => None) (fun _ => Some sidecarExample))
                   "/t/test.json"
  = inr (time.Unix 1672531200).
Proof.
  apply (proj1 parseSidecarDate_spec
           (mkFS (fun _ => None) (fun _ => Some sidecarExample))
           "/t/test.json").
  reflexivity.
Defined.

(** ** The JSON parser never runs out of fuel *)

Module json_facts.
Import json.

Lemma skipWS_length (s : list ascii) : (length (skipWS s) <= length s)%nat.
Proof.
  induction s as [|c s IH]; simpl; [lia|].
  destruct (isWS c); simpl; lia.
Qed.

Lemma span_length (p : ascii -> bool) (l a b : list ascii) :
  span p l = (a, b) -> (length b <= length l)%nat.
Proof.
  revert a b. induction l as [|c l IH]; simpl; intros a b.
  - intros [= <- <-]. simpl. lia.
  - destruct (p c).
    + destruct (span p l) as [a' b'] eqn:Hs. intros [= <- <-].
      specialize (IH _ _ eq_refl). lia.
    + intros [= <- <-]. simpl. lia.
Qed.

Lemma lexName_length (name s rest : list ascii) :
  lexName name s = Some rest -> (length rest <= length s)%nat.
Proof.
  revert s. induction name as [|c name IH]; simpl; intros s.
  - intros [= <-]. lia.
  - destruct s as [|d s]; [discriminate|].
    destruct (Ascii.eqb c d); [|discriminate].
    intros H. apply IH in H. simpl. lia.
Qed.

Lemma cons_fst_Some {A B : Type} (l : list A) (r : option (list A * B))
    (s : list A) (rest : B) :
  cons_fst l r = Some (s, rest) -> exists s', r = Some (s', rest).
Proof.
  destruct r as [[s' rest']|]; simpl; [|discriminate].
  intros [= <- <-]. eauto.
Qed.

Lemma lexString_length_aux (n : nat) :
  forall s str rest,
    (length s <= n)%nat -> lexString s = Some (str, rest) ->
    (length rest < length s)%nat.
Proof.
  induction n as [|n IH]; intros s str rest Hn H.
  - destruct s; [discriminate | simpl in Hn; lia].
  - destruct s as [|b0 r0]; [discriminate|]. simpl in Hn.
    cbn [lexString] in H.
    repeat match type of H with
    | cons_fst _ (lexString ?r) = Some _ =>
        apply cons_fst_Some in H as (? & H);
        apply IH in H; [simpl in *; lia | simpl in *; lia]
    | Some _ = Some _ => injection H as <- <-; simpl; lia
    | None = Some _ => discriminate H
    | (if ?b then _ else _) = Some _ => destruct b eqn:?
    | match ?x with _ => _ end = Some _ => destruct x eqn:?
    end.
Qed.

Lemma lexString_length (s str rest : list ascii) :
  lexString s = Some (str, rest) -> (length rest < length s)%nat.
Proof. apply (lexString_length_aux (length s)). lia. Qed.

Lemma lexNumber_length (s lit rest : list ascii) :
  lexNumber s = Some (lit, rest) -> (length rest < length s)%nat.
Proof.
  unfold lexNumber. intros H.
  repeat match goal with
  | E : Some _ = Some _ |- _ => inversion E; subst; clear E
  | E : None = Some _ |- _ => discriminate E
  | E : (_, _) = (_, _) |- _ => inversion E; subst; clear E
  | E : span _ _ = (_, _) |- _ => apply span_length in E
  | E : (let '(_, _) := ?x in _) = _ |- _ => destruct x as [? ?] eqn:?
  | E : (if ?b then _ else _) = _ |- _ => destruct b eqn:?
  | E : match ?x with _ => _ end = _ |- _ => destruct x eqn:?
  end;
  simpl in *; try lia.
Qed.

(** With fuel above twice the length of the input, the parser ends by
    itself, and a value takes at least one character. *)
Lemma parse_fuel (fuel : nat) :
  (forall depth s,
     (2 * length s + 1 <= fuel)%nat ->
     match parseValue fuel depth s with
     | OutOfFuel => False
     | SyntaxError => True
     | Ok _ rest => (length rest < length s)%nat
     end)
  /\ (forall depth s acc,
        (2 * length s + 2 <= fuel)%nat ->
        match parseMembers fuel depth s acc with
        | OutOfFuel => False
        | SyntaxError => True
        | Ok _ rest => (length rest < length s)%nat
        end)
  /\ (forall depth s acc,
        (2 * length s + 2 <= fuel)%nat ->
        match parseElements fuel depth s acc with
        | OutOfFuel => False
        | SyntaxError => True
        | Ok _ rest => (length rest < length s)%nat
        end).
Proof.
  induction fuel as [|f (IHv & IHm & IHe)].
  - repeat split; intros; lia.
  - split; [|split].
    + intros depth s Hf. cbn [parseValue].
      pose proof (skipWS_length s) as Hws.
      destruct (skipWS s) as [|c r] eqn:Hs; [exact I|]. simpl in Hws.
      repeat match goal with
      | |- match (if ?b then _ else _) with _ => _ end => destruct b eqn:?
      | |- True => exact I
      end.
      * pose proof (skipWS_length r) as Hws'.
        destruct (skipWS r) as [|c' r'] eqn:Hs'; [exact I|]. simpl in Hws'.
        destruct (byteIs 125 c'); [simpl; lia|].
        specialize (IHm (S depth) r [] ltac:(lia)).
        destruct (parseMembers f (S depth) r []); auto. lia.
      * pose proof (skipWS_length r) as Hws'.
        destruct (skipWS r) as [|c' r'] eqn:Hs'; [exact I|]. simpl in Hws'.
        destruct (byteIs 93 c'); [simpl; lia|].
        specialize (IHe (S depth) r [] ltac:(lia)).
        destruct (parseElements f (S depth) r []); auto. lia.
      * destruct (lexString r) as [[str rest]|] eqn:Hl; [|exact I].
        apply lexString_length in Hl. lia.
      * destruct (lexName _ r) as [rest|] eqn:Hl; [|exact I].
        apply lexName_length in Hl. lia.
      * destruct (lexName _ r) as [rest|] eqn:Hl; [|exact I].
        apply lexName_length in Hl. lia.
      * destruct (lexName _ r) as [rest|] eqn:Hl; [|exact I].
        apply lexName_length in Hl. lia.
      * destruct (lexNumber (c :: r)) as [[lit rest]|] eqn:Hl; [|exact I].
        apply lexNumber_length in Hl. simpl in Hl. lia.
    + intros depth s acc Hf. cbn [parseMembers].
      pose proof (skipWS_length s) as Hws.
      destruct (skipWS s) as [|q r] eqn:Hs; [exact I|]. simpl in Hws.
      destruct (negb (byteIs 34 q)); [exact I|].
      destruct (lexString r) as [[key r1]|] eqn:Hl; [|exact I].
      apply lexString_length in Hl.
      pose proof (skipWS_length r1) as Hws1.
      destruct (skipWS r1) as [|colon r2] eqn:Hs1; [exact I|]. simpl in Hws1.
      destruct (negb (byteIs 58 colon)); [exact I|].
      specialize (IHv depth r2 ltac:(lia)).
      destruct (parseValue f depth r2) as [| |v r3]; auto.
      pose proof (skipWS_length r3) as Hws3.
      destruct (skipWS r3) as [|d r4] eqn:Hs3; [exact I|]. simpl in Hws3.
      destruct (byteIs 44 d).
      * specialize (IHm depth r4 ((string_of_list_ascii key, v) :: acc)
                        ltac:(lia)).
        destruct (parseMembers f depth r4 _); auto. lia.
      * destruct (byteIs 125 d); [lia | exact I].
    + intros depth s acc Hf. cbn [parseElements].
      specialize (IHv depth s ltac:(lia)).
      destruct (parseValue f depth s) as [| |v r1]; auto.
      pose proof (skipWS_length r1) as Hws1.
      destruct (skipWS r1) as [|d r2] eqn:Hs1; [exact I|]. simpl in Hws1.
      destruct (byteIs 44 d).
      * specialize (IHe depth r2 (v :: acc) ltac:(lia)).
        destruct (parseElements f depth r2 _); auto. lia.
      * destruct (byteIs 93 d); [lia | exact I].
Qed.

(** [Parse] gives the parser enough fuel: it fails on a syntax error
    only. *)
Theorem Parse_enough_fuel (data : string) :
  parseValue (S (2 * length (list_ascii_of_string data))) 0
             (list_ascii_of_string data) <> OutOfFuel.
Proof.
  intros H.
  pose proof (proj1 (parse_fuel (S (2 * length (list_ascii_of_string data))))
                0%nat (list_ascii_of_string data) ltac:(lia)) as Hp.
  now rewrite H in Hp.
Qed.

End json_facts.

(** ** The worker process handle *)

Module handle_facts.

(** The two read loops take their lines from [Scan]. *)
Lemma readOutput_Scan (s : Scanner) (output : string) :
  readOutput (lines s) (final s) output
  = match Scan s with
    | (None, s') => (output, s')
    | (Some line, s') =>
        if String.eqb line readyMarker then (output, s')
        else readOutput (lines s') (final s') (output +:+ line +:+ nl)
    end.
Proof.
  unfold Scan. destruct (lines s) as [|[line e] rest]; reflexivity.
Qed.

Lemma drainOutput_Scan (s : Scanner) :
  drainOutput (lines s) (final s)
  = match Scan s with
    | (None, s') => (None, s')
    | (Some line, s') =>
        if String.eqb line readyMarker then (None, s')
        else if strings.Contains line "Error:"
                || strings.Contains line "Warning:"
        then (Some line, s')
        else drainOutput (lines s') (final s')
    end.
Proof.
  unfold Scan. destruct (lines s) as [|[line e] rest]; reflexivity.
Qed.

Lemma readyMarker_not_flagged :
  strings.Contains readyMarker "Error:" = false
  /\ strings.Contains readyMarker "Warning:" = false.
Proof. split; reflexivity. Qed.

Lemma flagged_Contains (line : string) :
  flagged line <->
  strings.Contains line "Error:" || strings.Contains line "Warning:" = true.
Proof.
  unfold flagged. now rewrite orb_true_iff, !string_facts.Contains_spec.
Qed.

(** The drain loop stops at the first line that reports a problem, when no
    ready marker comes before it. *)
Lemma drainOutput_flagged (pre post : list (string * option error))
    (line : string) (e fin : option error) :
  (forall l e', In (l, e') pre -> l <> readyMarker /\ ~ flagged l) ->
  flagged line ->
  drainOutput (pre ++ (line, e) :: post) fin
  = (Some line, mkScanner post fin e).
Proof.
  intros Hpre Hf. induction pre as [|[l e'] pre IH]; simpl.
  - destruct (String.eqb_spec line readyMarker) as [-> | _].
    + apply flagged_Contains in Hf. discriminate Hf.
    + apply flagged_Contains in Hf. now rewrite Hf.
  - destruct (Hpre l e') as [Hl Hnf]; [now left|].
    destruct (String.eqb_spec l readyMarker); [contradiction|].
    destruct (strings.Contains l "Error:" || strings.Contains l "Warning:")
      eqn:Hc.
    + exfalso. apply Hnf. now apply flagged_Contains.
    + apply IH. intros l0 e0 Hin. apply (Hpre l0 e0). now right.
Qed.

(** A list with an element that satisfies [P] splits at the first one. *)
Lemma first_flagged (ls : list (string * option error)) :
  (exists l e, In (l, e) ls /\ flagged l) ->
  exists pre line e post,
    ls = pre ++ (line, e) :: post /\ flagged line
    /\ forall l e', In (l, e') pre -> ~ flagged l.
Proof.
  induction ls as [|[l0 e0] ls IH]; intros (l & e & Hin & Hf);
    [destruct Hin|].
  destruct (strings.Contains l0 "Error:" || strings.Contains l0 "Warning:")
    eqn:Hc.
  - exists [], l0, e0, ls. split; [reflexivity|].
    split; [now apply flagged_Contains | intros ? ? []].
  - assert (Hn : ~ flagged l0)
      by (intros H; apply flagged_Contains in H; congruence).
    destruct Hin as [[= -> ->] | Hin]; [contradiction|].
    destruct IH as (pre & line & e1 & post & -> & Hl & Hpre); [eauto|].
    exists ((l0, e0) :: pre), line, e1, post.
    split; [reflexivity|]. split; [exact Hl|].
    intros l1 e' [[= <- <-] | H]; [exact Hn | exact (Hpre _ _ H)].
Qed.

End handle_facts.

(** C7.  When [UpdateAllDates] has written its command and a line of the
    response before the ready marker contains [Error:] or [Warning:], it
    returns a failure that carries such a line, namely the first one: the
    ready marker that follows does not turn the call into a success. *)
Theorem UpdateAllDates_reports_problem (etp : ExifToolProcess)
    (filePath dateStr : string) (before after : list (string * option error))
    (e : option error) :
  stdinWrite etp (length (sent etp)) = None ->
  lines (scanner etp) = before ++ (readyMarker, e) :: after ->
  (forall l e', In (l, e') before -> l <> readyMarker) ->
  (exists l e', In (l, e') before /\ flagged l) ->
  exists pre line e' post,
    before = pre ++ (line, e') :: post
    /\ flagged line
    /\ (forall l e0, In (l, e0) pre -> ~ flagged l)
    /\ fst (UpdateAllDates etp filePath dateStr)
       = Some (ErrorfS "exiftool error: " line).
Proof.
  intros Hw Hl Hnr Hex.
  destruct (handle_facts.first_flagged before Hex)
    as (pre & line & e' & post & -> & Hf & Hpre).
  exists pre, line, e', post.
  split; [reflexivity|]. split; [exact Hf|]. split; [exact Hpre|].
  unfold UpdateAllDates, Write. rewrite Hw. cbn [scanner lines final].
  rewrite Hl, <- app_assoc. cbn [app].
  rewrite (handle_facts.drainOutput_flagged pre _ line e' _); auto.
  intros l e0 Hin. split; [|exact (Hpre _ _ Hin)].
  apply (Hnr l e0). apply in_or_app. now left.
Qed.

(** A warning about a tag, then the ready marker. *)
Lemma UpdateAllDates_reports_problem_witness :
  exists pre line e' post,
    [("Warning: bad tag - a.jpg", @None error);
     ("    1 image files updated", None)]
    = pre ++ (line, e') :: post
    /\ flagged line
    /\ (forall l e0, In (l, e0) pre -> ~ flagged l)
    /\ fst (UpdateAllDates
              (processWith ["Warning: bad tag - a.jpg";
                            "    1 image files updated"; "{ready}"] None)
              "a.jpg" "2023:01:01 00:00:00")
       = Some (ErrorfS "exiftool error: " line).
Proof.
  apply (UpdateAllDates_reports_problem
           (processWith ["Warning: bad tag - a.jpg";
                         "    1 image files updated"; "{ready}"] None)
           "a.jpg" "2023:01:01 00:00:00"
           [("Warning: bad tag - a.jpg", None);
            ("    1 image files updated", None)] [] None).
  - reflexivity.
  - reflexivity.
  - intros l e' [[= <- <-] | [[= <- <-] | []]]; discriminate.
  - exists "Warning: bad tag - a.jpg", None. split; [now left|].
    right. exists EmptyString, " bad tag - a.jpg". reflexivity.
Defined.

(** C8.  When [GetMetadata] has written its command and the first line the
    subprocess answers is the ready marker, it returns the empty tag map
    and no error. *)
Theorem GetMetadata_empty_output (float64_ok : list ascii -> bool)
    (etp : ExifToolProcess) (filePath : string)
    (after : list (string * option error)) :
  stdinWrite etp (length (sent etp)) = None ->
  lines (scanner etp) = (readyMarker, None) :: after ->
  fst (GetMetadata float64_ok etp filePath) = inr ∅.
Proof.
  intros Hw Hl. unfold GetMetadata, Write. rewrite Hw.
  cbn [scanner lines final]. rewrite Hl. reflexivity.
Qed.

Lemma GetMetadata_empty_output_witness :
  fst (GetMetadata (fun _ => true) (processWith ["{ready}"] None) "a.jpg")
  = inr ∅.
Proof.
  apply (GetMetadata_empty_output (fun _ => true)
           (processWith ["{ready}"] None) "a.jpg" []); reflexivity.
Defined.

(** ** The worker pool manager *)

Module pool_facts.

Lemma lastFailure_spec (results : list (option error)) (e : error) :
  lastFailure results = Some e <->
  exists l1 l2, results = l1 ++ Some e :: l2
                /\ forall r, In r l2 -> r = None.
Proof.
  induction results as [|r rest IH]; simpl.
  - split; [discriminate | intros (l1 & l2 & H & _)].
    destruct l1; discriminate.
  - destruct (lastFailure rest) as [e'|] eqn:Hl.
    + split.
      * intros [= ->]. destruct (proj1 IH eq_refl) as (l1 & l2 & -> & H2).
        exists (r :: l1), l2. auto.
      * intros (l1 & l2 & H & H2). destruct l1 as [|x l1]; simpl in H.
        -- injection H as -> ->.
           assert (Hn : lastFailure l2 = None).
           { clear -H2. induction l2 as [|y l2 IH]; simpl; auto.
             rewrite IH by (intros; apply H2; now right).
             apply H2. now left. }
           congruence.
        -- injection H as -> ->. f_equal.
           assert (Hs : Some e' = Some e); [|congruence].
           apply IH. eauto.
    + split.
      * intros ->. exists [], rest. split; auto.
        clear -Hl. induction rest as [|y rest IH]; simpl in *;
          [intros ? []|].
        destruct (lastFailure rest); [discriminate|]. subst y.
        intros r [<- | H]; auto.
      * intros (l1 & l2 & H & H2). destruct l1 as [|x l1]; simpl in H.
        -- now injection H as -> ->.
        -- injection H as -> ->.
           assert (Hs : @None error = Some e); [|discriminate].
           apply IH. eauto.
Qed.

Lemma closeAt_valid (p : nat) (w : World) (etp : ExifToolProcess) :
  heap w !! p = Some etp ->
  closeAt p w
  = Returned (exit etp,
              mkWorld (<[p := closed etp]> (heap w)) (starts w) (logged w)).
Proof. unfold closeAt. now intros ->. Qed.

(** The loop of [Close] closes each handle once, in order, and returns the
    last error. *)
Lemma closeLoop_spec (ps : list nat) :
  forall (i : Z) (lastErr : option error) (w : World),
    (forall p, In p ps -> (p < length (heap w))%nat) ->
    NoDup ps ->
    exists w',
      closeLoop ps i lastErr w
      = Returned (match lastFailure (exitsOf (heap w) ps) with
                  | Some e => Some e
                  | None => lastErr
                  end, w')
      /\ length (heap w') = length (heap w)
      /\ starts w' = starts w
      /\ (forall p etp, In p ps -> heap w !! p = Some etp ->
                        heap w' !! p = Some (closed etp))
      /\ (forall p, ~ In p ps -> heap w' !! p = heap w !! p).
Proof.
  induction ps as [|p ps IH]; intros i lastErr w Hv Hnd; simpl.
  - exists w. repeat split; auto. intros p etp [].
  - destruct (lookup_lt_is_Some_2 (heap w) p) as [etp Hp];
      [apply Hv; now left|].
    rewrite (closeAt_valid _ _ _ Hp), Hp.
    apply NoDup_cons in Hnd as [Hnp Hnd].
    assert (Hex : forall hp, exitsOf (<[p := closed etp]> hp) ps
                             = exitsOf hp ps).
    { intros hp. unfold exitsOf. apply map_ext_in. intros q Hq.
      rewrite list_lookup_insert_ne; [reflexivity|].
      intros ->. apply Hnp. now apply list_elem_of_In. }
    assert (Hlater : forall w1 : World,
      heap w1 = <[p := closed etp]> (heap w) -> starts w1 = starts w ->
      forall lastErr',
      exists w',
        closeLoop ps (i + 1) lastErr' w1
        = Returned (match lastFailure (exitsOf (heap w) ps) with
                    | Some e => Some e
                    | None => lastErr'
                    end, w')
        /\ length (heap w') = length (heap w)
        /\ starts w' = starts w
        /\ (forall q etq, In q (p :: ps) -> heap w !! q = Some etq ->
                          heap w' !! q = Some (closed etq))
        /\ (forall q, ~ In q (p :: ps) -> heap w' !! q = heap w !! q)).
    { intros w1 Hh Hs lastErr'.
      destruct (IH (i + 1) lastErr' w1) as (w' & Hc & Hlen & Hst & Hin & Hout).
      - intros q Hq. rewrite Hh, length_insert. apply Hv. now right.
      - apply Hnd.
      - exists w'. rewrite Hc, Hh, Hex. split; [reflexivity|].
        rewrite Hlen, Hst, Hh, length_insert.
        split; [reflexivity|]. split; [exact Hs|]. split.
        + intros q etq [<- | Hq] Hlook.
          * rewrite Hout by (intros H; apply Hnp; now apply list_elem_of_In).
            rewrite Hh, list_lookup_insert_eq by (apply Hv; now left).
            congruence.
          * apply Hin; [exact Hq|]. rewrite Hh.
            rewrite list_lookup_insert_ne; [exact Hlook|].
            intros ->. apply Hnp. now apply list_elem_of_In.
        + intros q Hq. rewrite Hout by (intros H; apply Hq; now right).
          rewrite Hh. apply list_lookup_insert_ne.
          intros ->. apply Hq. now left. }
    destruct (exit etp) as [e|] eqn:He.
    + destruct (Hlater (mkWorld (<[p := closed etp]> (heap w)) (starts w)
                          (logged w ++ [(i, e)])) eq_refl eq_refl (Some e))
        as (w' & Hc & Hrest).
      exists w'. split; [|exact Hrest]. cbn [heap starts logged]. rewrite Hc.
      now destruct (lastFailure (exitsOf (heap w) ps)).
    + destruct (Hlater (mkWorld (<[p := closed etp]> (heap w)) (starts w)
                          (logged w)) eq_refl eq_refl lastErr)
        as (w' & Hc & Hrest).
      exists w'. split; [|exact Hrest]. rewrite Hc.
      now destruct (lastFailure (exitsOf (heap w) ps)).
Qed.

End pool_facts.

(** C3, as the code has it.  [Close] closes every handle of the pool, each
    one once, whether or not closing an earlier handle failed, and the
    error it returns is the one of the last handle whose close failed. *)
Theorem Close_closes_all_returns_last (etm : ExifToolManager) (w : World) :
  (forall p, In p (processes etm) -> (p < length (heap w))%nat) ->
  NoDup (processes etm) ->
  exists w',
    ExifToolManager_Close etm w
    = Returned (lastFailure (exitsOf (heap w) (processes etm)), w')
    /\ (forall p etp, In p (processes etm) -> heap w !! p = Some etp ->
                      heap w' !! p = Some (closed etp))
    /\ (forall p, ~ In p (processes etm) -> heap w' !! p = heap w !! p).
Proof.
  intros Hv Hnd. unfold ExifToolManager_Close.
  destruct (pool_facts.closeLoop_spec (processes etm) 0 None w Hv Hnd)
    as (w' & Hc & _ & _ & Hin & Hout).
  exists w'. rewrite Hc. split; [|split; assumption].
  now destruct (lastFailure _).
Qed.

(** Two handles that both fail to close: both are closed and the error of
    the second is returned. *)
Lemma Close_closes_all_returns_last_witness :
  exists w',
    ExifToolManager_Close (mkManager [0%nat; 1%nat]) twoFailing = Returned (Some errB, w')
    /\ (forall p etp, In p [0%nat; 1%nat] ->
                      heap twoFailing !! p = Some etp ->
                      heap w' !! p = Some (closed etp))
    /\ (forall p, ~ In p [0%nat; 1%nat] ->
                  heap w' !! p = heap twoFailing !! p).
Proof.
  apply (Close_closes_all_returns_last (mkManager [0%nat; 1%nat]) twoFailing).
  - intros p [<- | [<- | []]]; simpl; lia.
  - apply NoDup_cons_2.
    + intros H. apply list_elem_of_In in H. destruct H as [H | []].
      discriminate H.
    + apply NoDup_cons_2; [|apply NoDup_nil_2].
      intros H. apply list_elem_of_In in H. destruct H.
Defined.

(** C3, as stated, fails: with two handles that fail to close, the error
    returned is not the first one met. *)
Lemma Close_first_error_counterexample :
  firstFailure (exitsOf (heap twoFailing) [0%nat; 1%nat]) = Some errA
  /\ (exists w',
        ExifToolManager_Close (mkManager [0%nat; 1%nat]) twoFailing
        = Returned (Some errB, w'))
  /\ errA <> errB.
Proof.
  split; [reflexivity|]. split; [eexists; reflexivity | discriminate].
Qed.

Module start_facts.

(** Closing the handles allocated last, in order. *)
Lemma closeStarted_seq (sp : list ExifToolProcess) :
  forall (hp0 : list ExifToolProcess) (n : nat) (lg : list (Z * error)),
    closeStarted (seq (length hp0) (length sp)) (mkWorld (hp0 ++ sp) n lg)
    = Returned (mkWorld (hp0 ++ map closed sp) n lg).
Proof.
  induction sp as [|etp sp IH]; intros hp0 n lg; simpl.
  - reflexivity.
  - unfold closeAt. cbn [heap starts logged].
    rewrite list_lookup_middle by reflexivity.
    cbn [ExifToolProcess_Close].
    replace (<[length hp0 := _]> (hp0 ++ etp :: sp))
      with ((hp0 ++ [closed etp]) ++ sp).
    + replace (S (length hp0)) with (length (hp0 ++ [closed etp]))
        by (rewrite length_app; simpl; lia).
      rewrite IH, <- app_assoc. reflexivity.
    + rewrite <- app_assoc. cbn [app].
      pose proof (insert_app_r hp0 (etp :: sp) 0 (closed etp)) as Hi.
      rewrite Nat.add_0_r in Hi. symmetry. exact Hi.
Qed.

Lemma startExifToolProcess_Started (h : Host) (w : World)
    (etp : ExifToolProcess) :
  spawn h (starts w) = Started etp ->
  startExifToolProcess h w
  = (inr (length (heap w)),
     mkWorld (heap w ++ [etp]) (S (starts w)) (logged w)).
Proof. unfold startExifToolProcess. now intros ->. Qed.

Lemma startExifToolProcess_fails (h : Host) (w : World) (e : error) :
  spawnError h (starts w) = Some e ->
  startExifToolProcess h w
  = (inl e, mkWorld (heap w) (S (starts w)) (logged w)).
Proof.
  unfold startExifToolProcess, spawnError.
  destruct (spawn h (starts w)); intros [= <-]; reflexivity.
Qed.

(** The start loop, when the start that follows [created] fails. *)
Lemma startLoop_fails (h : Host) (created : list ExifToolProcess) :
  forall (remaining : nat) (i : Z) (hp0 sp : list ExifToolProcess)
         (n : nat) (lg : list (Z * error)) (e : error),
    (length created < remaining)%nat ->
    (forall j etp, created !! j = Some etp ->
                   spawn h (n + j) = Started etp) ->
    spawnError h (n + length created) = Some e ->
    startLoop h remaining i (seq (length hp0) (length sp))
              (mkWorld (hp0 ++ sp) n lg)
    = (Returned
         (None,
          Some (ErrorfDV "failed to start ExifTool process "
                         (i + Z.of_nat (length created)) ": " e)),
       mkWorld (hp0 ++ map closed (sp ++ created))
               (S (n + length created)) lg).
Proof.
  induction created as [|etp created IH];
    intros remaining i hp0 sp n lg e Hlt Hsp Herr;
    (destruct remaining as [|r]; [simpl in Hlt; lia|]); cbn [startLoop].
  - simpl in Herr. rewrite Nat.add_0_r in Herr.
    rewrite (startExifToolProcess_fails h _ e) by exact Herr.
    cbn [heap starts logged]. rewrite closeStarted_seq.
    rewrite app_nil_r, Z.add_0_r, Nat.add_0_r. reflexivity.
  - rewrite (startExifToolProcess_Started h _ etp).
    2:{ cbn [starts]. rewrite <- (Nat.add_0_r n). now apply Hsp. }
    cbn [heap starts logged].
    replace (seq (length hp0) (length sp) ++ [length (hp0 ++ sp)])
      with (seq (length hp0) (length (sp ++ [etp]))).
    2:{ rewrite !length_app. cbn [length].
        rewrite Nat.add_1_r, seq_S. reflexivity. }
    rewrite <- app_assoc.
    rewrite (IH r (i + 1) hp0 (sp ++ [etp]) (S n) lg e).
    + cbn [length]. rewrite <- app_assoc. cbn [app].
      replace (i + 1 + Z.of_nat (length created))
        with (i + Z.of_nat (S (length created))) by lia.
      replace (S (S n + length created))
        with (S (n + S (length created))) by lia.
      reflexivity.
    + simpl in Hlt. lia.
    + intros j etq Hj. replace (S n + j)%nat with (n + S j)%nat by lia.
      now apply Hsp.
    + cbn [length] in Herr.
      now replace (S n + length created)%nat
        with (n + S (length created))%nat by lia.
Qed.

(** The start loop, when it returns a pool. *)
Lemma startLoop_Some (h : Host) :
  forall (remaining : nat) (i : Z) (started : list nat) (w w' : World)
         (m : ExifToolManager) (er : option error),
    startLoop h remaining i started w = (Returned (Some m, er), w') ->
    er = None
    /\ exists procs,
         length procs = remaining
         /\ (forall j etp, procs !! j = Some etp ->
                           spawn h (starts w + j) = Started etp)
         /\ heap w' = heap w ++ procs
         /\ processes m = started ++ seq (length (heap w)) remaining.
Proof.
  induction remaining as [|r IH]; intros i started w w' m er; cbn [startLoop].
  - intros [= <- <- <-]. split; [reflexivity|]. exists [].
    rewrite !app_nil_r. repeat split; auto. intros j etp Hj. discriminate Hj.
  - unfold startExifToolProcess.
    destruct (spawn h (starts w)) as [e|e|e|etp] eqn:Hs;
      try (destruct (closeStarted started _); discriminate).
    intros H. apply IH in H as (-> & procs & Hlen & Hsp & Hh & Hp).
    cbn [heap starts] in *. split; [reflexivity|].
    exists (etp :: procs). split; [simpl; lia|]. split; [|split].
    + intros [|j] etq Hj; simpl in Hj.
      * injection Hj as <-. now rewrite Nat.add_0_r.
      * replace (starts w + S j)%nat with (S (starts w) + j)%nat by lia.
        now apply Hsp.
    + rewrite Hh, <- app_assoc. reflexivity.
    + rewrite Hp, <- app_assoc, length_app. cbn [length app seq].
      now rewrite Nat.add_1_r.
Qed.

End start_facts.

(** C6.  When the slice of handles can be allocated and the subprocess of
    a worker fails to start after [created] handles were made,
    [NewExifToolManager] closes each of those handles, once and in order,
    and returns no pool and an error.  Whenever it returns a pool, the
    slice was allocated and the pool has one handle per worker, every one
    of them a subprocess that started and that the constructor left open;
    whenever it returns no pool it returns an error. *)
Theorem NewExifToolManager_rollback :
  (forall (h : Host) (workerCount : Z) (w : World)
          (created : list ExifToolProcess) (e : error),
     lookPath h = None ->
     makeReturns h workerCount = true ->
     Z.of_nat (length created) < workerCount ->
     (forall j etp, created !! j = Some etp ->
                    spawn h (starts w + j) = Started etp) ->
     spawnError h (starts w + length created) = Some e ->
     NewExifToolManager h workerCount w
     = (Returned
          (None,
           Some (ErrorfDV "failed to start ExifTool process "
                          (Z.of_nat (length created)) ": " e)),
        mkWorld (heap w ++ map closed created)
                (S (starts w + length created)) (logged w)))
  /\ (forall (h : Host) (workerCount : Z) (w w' : World)
             (m : ExifToolManager) (er : option error),
        NewExifToolManager h workerCount w = (Returned (Some m, er), w') ->
        er = None
        /\ 0 <= workerCount
        /\ makeReturns h workerCount = true
        /\ exists procs,
             length procs = Z.to_nat workerCount
             /\ (forall j etp, procs !! j = Some etp ->
                               spawn h (starts w + j) = Started etp)
             /\ heap w' = heap w ++ procs
             /\ processes m
                = seq (length (heap w)) (Z.to_nat workerCount))
  /\ (forall (h : Host) (workerCount : Z) (w w' : World)
             (er : option error),
        NewExifToolManager h workerCount w = (Returned (None, er), w') ->
        er <> None).
Proof.
  split; [|split].
  - intros h workerCount w created e Hl Hm Hlt Hsp Herr.
    unfold NewExifToolManager. rewrite Hl, Hm.
    destruct (Z.ltb_spec workerCount 0) as [Hneg | _]; [lia|].
    cbn [negb orb].
    destruct w as [hp n lg]. cbn [heap starts logged] in *.
    pose proof (start_facts.startLoop_fails h created
                  (Z.to_nat workerCount) 0 hp [] n lg e) as H.
    cbn [length seq] in H. rewrite app_nil_r in H. cbn [app] in H.
    rewrite Z.add_0_l in H. apply H; auto. lia.
  - intros h workerCount w w' m er. unfold NewExifToolManager.
    destruct (lookPath h); [discriminate|].
    destruct (Z.ltb_spec workerCount 0) as [Hneg | Hpos]; [discriminate|].
    destruct (makeReturns h workerCount); [|discriminate].
    cbn [negb orb].
    intros H. apply start_facts.startLoop_Some in H as (-> & procs & H).
    split; [reflexivity|]. split; [exact Hpos|]. split; [reflexivity|].
    exists procs. exact H.
  - intros h workerCount w w' er. unfold NewExifToolManager.
    destruct (lookPath h); [intros [= <- _]; discriminate|].
    destruct (Z.ltb_spec workerCount 0) as [Hneg | Hpos]; [discriminate|].
    destruct (makeReturns h workerCount); [|discriminate].
    cbn [negb orb].
    generalize (Z.to_nat workerCount) 0 (@nil nat) w.
    induction n as [|r IH]; intros i started w0; cbn [startLoop].
    + discriminate.
    + destruct (startExifToolProcess h w0) as [[e|p] w1].
      * destruct (closeStarted started w1); [discriminate|].
        intros [= <- _]. discriminate.
      * apply IH.
Qed.

(** Four workers on a host where the third start fails: the two handles
    made before are closed and no pool is returned. *)
Lemma NewExifToolManager_rollback_witness :
  NewExifToolManager thirdFails 4 (mkWorld [] 0 [])
  = (Returned
       (None,
        Some (ErrorfDV "failed to start ExifTool process " 2 ": "
                (ErrorfV "failed to start exiftool: "
                   (LibError "exec" "resource temporarily unavailable")))),
     mkWorld [closed (processWith [] None); closed (processWith [] None)]
             3 []).
Proof.
  apply (proj1 NewExifToolManager_rollback thirdFails 4 (mkWorld [] 0 [])
           [processWith [] None; processWith [] None]).
  - reflexivity.
  - reflexivity.
  - simpl. lia.
  - intros [|[|j]] etp Hj; simpl in Hj; try discriminate Hj;
      injection Hj as <-; reflexivity.
  - reflexivity.
Defined.

(** ** The outcome of a file *)

Module outcome_facts.

#[local] Arguments String.append : simpl nomatch.

Lemma failWith_wellFormed (result : Result) (e : error) :
  Success result = false -> wellFormed (failWith result e).
Proof. intros H. right. split; [exact H | discriminate]. Qed.

Section Finish.

Context {W : Type} (env : Env W).

Lemma finishMediaFile_wellFormed (config : Config) (file : MediaFile)
    (result : Result) (creationDate : time.Time) (w : W) :
  Success result = false -> Error result = None ->
  wellFormed (fst (finishMediaFile env config file result creationDate w))
  /\ File (fst (finishMediaFile env config file result creationDate w))
     = File result.
Proof.
  intros Hs He. unfold finishMediaFile.
  assert (Hend : forall (r : Result) (w' : W),
            Error r = None -> File r = File result ->
            wellFormed
              (fst (let result'' :=
                      if String.eqb (Action r) EmptyString
                      then withAction r "No action needed" else r in
                    (mkResult (File result'') true (Action result'')
                              (Error result''), w')))
            /\ File (fst (let result'' :=
                            if String.eqb (Action r) EmptyString
                            then withAction r "No action needed" else r in
                          (mkResult (File result'') true (Action result'')
                                    (Error result''), w')))
               = File result).
  { intros r w' Hr Hf. cbv zeta. cbn [fst File Success Action Error].
    destruct (String.eqb_spec (Action r) EmptyString) as [Ha | Ha];
      cbn [withAction File Success Action Error].
    - split; [left | exact Hf]. repeat split; [exact Hr | discriminate].
    - split; [left | exact Hf]. repeat split; [exact Hr | exact Ha]. }
  destruct (Move config && negb (time.IsZero creationDate)).
  - destruct (DryRun config).
    + destruct (negb (String.eqb (getAlbumName env w (Dir file)) EmptyString));
        apply Hend; auto.
    + destruct (moveFile env w (Path file) _) as [[e|] w1].
      * cbn [fst]. split; [now apply failWith_wellFormed | reflexivity].
      * destruct (negb (String.eqb (getAlbumName env w1 (Dir file))
                                   EmptyString)).
        -- destruct (createAlbumSymlink env w1 _ _) as [[e|] w2];
             apply Hend; auto.
        -- apply Hend; auto.
  - apply Hend; auto.
Qed.

End Finish.

End outcome_facts.



(** ** The number suffix *)

Module suffix_facts.

#[local] Arguments String.append : simpl nomatch.

Lemma span_app (p : ascii -> bool) (x y : list ascii) :
  forallb p x = true ->
  match y with
  | [] => True
  | c :: _ => p c = false
  end ->
  span p (x ++ y) = (x, y).
Proof.
  intros Hx Hy. induction x as [|c x IH]; simpl.
  - destruct y as [|c y]; [reflexivity|]. simpl. now rewrite Hy.
  - simpl in Hx. apply andb_true_iff in Hx as [Hc Hx].
    now rewrite Hc, IH.
Qed.

Lemma span_spec (p : ascii -> bool) (l a b : list ascii) :
  span p l = (a, b) ->
  l = a ++ b /\ forallb p a = true
  /\ match b with
     | [] => True
     | c :: _ => p c = false
     end.
Proof.
  revert a b. induction l as [|c l IH]; simpl; intros a b.
  - intros [= <- <-]. auto.
  - destruct (p c) eqn:Hc.
    + destruct (span p l) as [a' b']. intros [= <- <-].
      destruct (IH _ _ eq_refl) as (-> & Ha & Hb). simpl.
      rewrite Hc, Ha. auto.
    + intros [= <- <-]. simpl. auto.
Qed.

Lemma length_zero_eqb {A : Type} (l : list A) :
  negb (Nat.eqb (length l) 0) = true <-> l <> [].
Proof. destruct l; simpl; split; congruence. Qed.

Lemma string_of_nonempty (l : list ascii) :
  l <> [] <-> string_of_list_ascii l <> EmptyString.
Proof. destruct l; simpl; split; congruence. Qed.

Lemma list_of_nonempty (s : string) :
  s <> EmptyString <-> list_ascii_of_string s <> [].
Proof. destruct s; simpl; split; congruence. Qed.

Lemma forallb_rev {A : Type} (p : A -> bool) (l : list A) :
  forallb p (rev l) = forallb p l.
Proof.
  induction l as [|x l IH]; simpl; [reflexivity|].
  rewrite forallb_app, IH. simpl. rewrite andb_true_r. apply andb_comm.
Qed.

Theorem FindStringSubmatch_Some (s a d : string) :
  FindStringSubmatch s = Some (a, d) <-> splitsNumbered s a d.
Proof.
  unfold FindStringSubmatch, splitsNumbered. split.
  - destruct (rev (list_ascii_of_string s)) as [|c r] eqn:Hr; [discriminate|].
    destruct (Ascii.eqb_spec c ")") as [-> | _]; [|discriminate].
    destruct (span regexp.isDigit r) as [ds r'] eqn:Hs.
    destruct r' as [|o a']; [discriminate|].
    destruct (Ascii.eqb_spec o "(") as [-> | _]; [|discriminate].
    cbn [andb].
    destruct (negb (Nat.eqb (length ds) 0)) eqn:Hd; [|discriminate].
    destruct (negb (Nat.eqb (length a') 0)) eqn:Ha; [|discriminate].
    destruct (forallb _ a') eqn:Hn; [|discriminate].
    cbn [andb]. intros [= <- <-].
    apply span_spec in Hs as (-> & Hds & _).
    apply length_zero_eqb in Hd, Ha.
    rewrite !list_ascii_of_string_of_list_ascii, !forallb_rev.
    repeat split; auto.
    + apply string_facts.list_of_inj.
      rewrite !string_facts.list_of_append,
        !list_ascii_of_string_of_list_ascii.
      rewrite <- (rev_involutive (list_ascii_of_string s)), Hr.
      simpl. rewrite rev_app_distr. simpl.
      rewrite <- !app_assoc. reflexivity.
    + apply string_of_nonempty. intros H. apply Ha.
      now rewrite <- (rev_involutive a'), H.
    + apply string_of_nonempty. intros H. apply Hd.
      now rewrite <- (rev_involutive ds), H.
  - intros (-> & Ha & Hn & Hd & Hds).
    assert (Hrev : rev (list_ascii_of_string (a +:+ "(" +:+ d +:+ ")"))
                   = ")"%char :: rev (list_ascii_of_string d)
                     ++ "("%char :: rev (list_ascii_of_string a)).
    { rewrite !string_facts.list_of_append.
      change (list_ascii_of_string "(") with ["("%char].
      change (list_ascii_of_string ")") with [")"%char].
      rewrite !rev_app_distr. simpl. rewrite <- !app_assoc. reflexivity. }
    rewrite Hrev.
    rewrite (span_app regexp.isDigit (rev (list_ascii_of_string d))
               ("("%char :: rev (list_ascii_of_string a)));
      [|now rewrite forallb_rev | reflexivity].
    cbn [Ascii.eqb Bool.eqb andb]. rewrite !length_rev, forallb_rev, Hn.
    apply list_of_nonempty in Ha, Hd.
    apply length_zero_eqb in Ha, Hd. rewrite Ha, Hd. cbn [andb].
    now rewrite !rev_involutive, !string_of_list_ascii_of_string.
Qed.

Lemma lang_StarDigit (s : list ascii) :
  regexp.lang (regexp.Star regexp.Digit) s <->
  forallb regexp.isDigit s = true.
Proof.
  split.
  - intros H. remember (regexp.Star regexp.Digit) as r eqn:Er.
    induction H as [| | | | | | | | r1 s1 s2 H1 _ H2 IH2];
      try discriminate; auto.
    injection Er as ->. inversion H1 as [| | |c Hc| | | | |]; subst. simpl.
    rewrite Hc. simpl. auto.
  - induction s as [|c s IH]; simpl; intros H.
    + constructor.
    + apply andb_true_iff in H as [Hc Hs].
      change (c :: s) with ([c] ++ s). constructor; auto.
      now constructor.
Qed.

Lemma lang_Plus (r : regexp.re) (s : list ascii) :
  regexp.lang (regexp.Plus r) s <->
  exists s1 s2, s = s1 ++ s2 /\ regexp.lang r s1
                /\ regexp.lang (regexp.Star r) s2.
Proof. apply regexp_facts.lang_Cat. Qed.

Lemma lang_Chr (c : ascii) (s : list ascii) :
  regexp.lang (regexp.Chr c) s <-> s = [c].
Proof.
  split; [intros H; now inversion H | intros ->; constructor].
Qed.

(** The expression matches exactly the strings that split into the two
    groups: [FindStringSubmatch] returns groups if and only if the
    expression matches. *)
Theorem FindStringSubmatch_regex (s : string) :
  regexp.MatchString numberSuffixRegex s = true <->
  exists a d, FindStringSubmatch s = Some (a, d).
Proof.
  rewrite prefix_facts.MatchString_lang. unfold numberSuffixRegex. split.
  - intros H.
    apply regexp_facts.lang_Cat in H as (la & t1 & Hs & Ha & H).
    apply regexp_facts.lang_Cat in H as (t2 & t3 & -> & Ho & H).
    apply regexp_facts.lang_Cat in H as (ld & t4 & -> & Hd & Hc).
    apply lang_Chr in Ho as ->. apply lang_Chr in Hc as ->.
    apply lang_Plus in Ha as (a1 & a2 & -> & Ha1 & Ha2).
    apply lang_Plus in Hd as (d1 & d2 & -> & Hd1 & Hd2).
    inversion Ha1 as [| |x Hx| | | | | |]; subst.
    inversion Hd1 as [| | |y Hy| | | | |]; subst.
    apply regexp_facts.lang_StarAny in Ha2.
    apply lang_StarDigit in Hd2.
    exists (string_of_list_ascii ([x] ++ a2)),
           (string_of_list_ascii ([y] ++ d2)).
    apply FindStringSubmatch_Some. unfold splitsNumbered.
    rewrite !list_ascii_of_string_of_list_ascii.
    split.
    { apply string_facts.list_of_inj.
      rewrite Hs, !string_facts.list_of_append,
        !list_ascii_of_string_of_list_ascii.
      reflexivity. }
    cbn [app forallb]. rewrite Hx, Hy, Ha2, Hd2.
    repeat split; simpl; discriminate.
  - intros (a & d & H). apply FindStringSubmatch_Some in H
      as (-> & Ha & Hn & Hd & Hds).
    rewrite !string_facts.list_of_append.
    destruct (list_ascii_of_string a) as [|x a2] eqn:Ea;
      [apply list_of_nonempty in Ha; contradiction|].
    destruct (list_ascii_of_string d) as [|y d2] eqn:Ed;
      [apply list_of_nonempty in Hd; contradiction|].
    simpl in Hn, Hds. apply andb_true_iff in Hn as [Hx Hn].
    apply andb_true_iff in Hds as [Hy Hds].
    apply regexp_facts.lang_Cat.
    exists (x :: a2), (["("%char] ++ (y :: d2) ++ [")"%char]).
    split; [reflexivity|]. split.
    + apply lang_Plus. exists [x], a2. split; [reflexivity|]. split.
      * apply regexp.L_Any. now destruct (regexp.isNL x).
      * now apply regexp_facts.lang_StarAny.
    + apply regexp_facts.lang_Cat. exists ["("%char], ((y :: d2) ++ [")"%char]).
      split; [reflexivity|]. split; [now apply lang_Chr|].
      apply regexp_facts.lang_Cat. exists (y :: d2), [")"%char].
      split; [reflexivity|]. split; [|now apply lang_Chr].
      apply lang_Plus. exists [y], d2. split; [reflexivity|]. split.
      * now apply regexp.L_Digit.
      * now apply lang_StarDigit.
Qed.

End suffix_facts.

(** * Further properties of the companion matcher *)

Module matcher_facts.

#[local] Arguments String.append : simpl nomatch.

Lemma lang_pieces_app (a b : list regexp.piece) (l : list ascii) :
  regexp.lang (regexp.piecesRe (a ++ b)) l <->
  exists l1 l2, l = l1 ++ l2 /\ regexp.lang (regexp.piecesRe a) l1
                /\ regexp.lang (regexp.piecesRe b) l2.
Proof.
  revert l. induction a as [|p a IH]; intros l; cbn [app regexp.piecesRe].
  - split.
    + intros H. exists [], l. repeat split; auto. constructor.
    + intros (l1 & l2 & -> & H1 & H2).
      apply prefix_facts.lang_Eps_nil in H1 as ->. exact H2.
  - rewrite regexp_facts.lang_Cat. split.
    + intros (s1 & s2 & -> & Hp & H). apply IH in H as (l1 & l2 & -> & H1 & H2).
      exists (s1 ++ l1), l2. rewrite app_assoc. repeat split; auto.
      apply regexp_facts.lang_Cat. eauto.
    + intros (l1 & l2 & -> & H1 & H2).
      apply regexp_facts.lang_Cat in H1 as (s1 & s2 & -> & Hp & H1).
      exists s1, (s2 ++ l2). rewrite app_assoc. repeat split; auto.
      apply IH. eauto.
Qed.

(** A pattern that ends in two quoted pieces matches names that end in the
    two texts. *)
Lemma pieces_suffix (ps : list regexp.piece) (a b name : string) :
  regexp.MatchString
    (regexp.piecesRe (ps ++ [regexp.Quoted a; regexp.Quoted b])) name = true ->
  strings.HasSuffix name (a +:+ b) = true.
Proof.
  intros H. apply prefix_facts.MatchString_lang, lang_pieces_app in H
    as (l1 & l2 & Hl & _ & H).
  cbn [regexp.piecesRe regexp.pieceRe] in H.
  apply prefix_facts.lang_Lit_app in H as (t & -> & H).
  apply prefix_facts.lang_Lit_app in H as (t' & -> & H).
  apply prefix_facts.lang_Eps_nil in H as ->.
  apply string_facts.HasSuffix_spec. exists (string_of_list_ascii l1).
  apply string_facts.list_of_inj.
  rewrite Hl, !string_facts.list_of_append,
    list_ascii_of_string_of_list_ascii, app_nil_r.
  reflexivity.
Qed.

(** The same for a pattern that ends in one quoted piece. *)
Lemma pieces_suffix1 (ps : list regexp.piece) (b name : string) :
  regexp.MatchString (regexp.piecesRe (ps ++ [regexp.Quoted b])) name = true ->
  strings.HasSuffix name b = true.
Proof.
  intros H. apply prefix_facts.MatchString_lang, lang_pieces_app in H
    as (l1 & l2 & Hl & _ & H).
  cbn [regexp.piecesRe regexp.pieceRe] in H.
  apply prefix_facts.lang_Lit_app in H as (t & -> & H).
  apply prefix_facts.lang_Eps_nil in H as ->.
  apply string_facts.HasSuffix_spec. exists (string_of_list_ascii l1).
  apply string_facts.list_of_inj.
  rewrite Hl, !string_facts.list_of_append,
    list_ascii_of_string_of_list_ascii, app_nil_r.
  reflexivity.
Qed.

Lemma sidecar_prefix_suffix (file : MediaFile) :
  snd (sidecarBase file) = snd (prefixBase file).
Proof.
  unfold sidecarBase, prefixBase.
  now destruct (FindStringSubmatch (baseNameNoExt file)) as [[m1 m2]|].
Qed.

(** Every exact pattern ends in the number suffix and [.json]. *)
Lemma sidecarPatterns_suffix (file : MediaFile)
    (pattern : list regexp.piece) (name : string) :
  In pattern (sidecarPatterns file) ->
  regexp.MatchString (regexp.piecesRe pattern) name = true ->
  strings.HasSuffix name (snd (sidecarBase file) +:+ ".json") = true.
Proof.
  unfold sidecarPatterns. destruct (sidecarBase file) as [base num].
  cbn [snd].
  destruct (String.eqb_spec num EmptyString) as [-> | Hne]; cbn [negb];
    destruct (negb (String.eqb _ base)); cbn [In];
    intros Hin Hm;
    repeat match type of Hin with
    | _ \/ _ => destruct Hin as [<- | Hin]
    | False => destruct Hin
    end.
  - exact (pieces_suffix1 [_; _] _ _ Hm).
  - exact (pieces_suffix1 [_; _] _ _ Hm).
  - exact (pieces_suffix1 [_] _ _ Hm).
  - exact (pieces_suffix1 [_; _] _ _ Hm).
  - exact (pieces_suffix [_; _] _ _ _ Hm).
  - exact (pieces_suffix [_; _] _ _ _ Hm).
  - exact (pieces_suffix [_] _ _ _ Hm).
  - exact (pieces_suffix [_; _] _ _ _ Hm).
Qed.

(** What [findSidecarFile] returns, when it returns a path. *)
Lemma findSidecarFile_selected (fs : FS) (file : MediaFile) :
  findSidecarFile fs file <> EmptyString ->
  exists entries entry,
    ReadDir fs (Dir file) = Some entries
    /\ In entry entries
    /\ IsDir entry = false
    /\ findSidecarFile fs file = filepath.Join (Dir file) (Name entry)
    /\ isGooglePhotosSidecar fs (findSidecarFile fs file) = true
    /\ strings.HasSuffix (Name entry) (snd (sidecarBase file) +:+ ".json")
       = true.
Proof.
  unfold findSidecarFile.
  destruct (ReadDir fs (Dir file)) as [entries|]; [|congruence].
  destruct (rangeOver _ (sidecarPatterns file)) as [r|] eqn:Hr.
  - intros _. apply rangeOver_Some in Hr as (l1 & pattern & l2 & Hl & Hb & _).
    unfold regexp.Compile in Hb.
    destruct (forallb regexp.pieceValid pattern); [|discriminate].
    apply rangeOver_Some in Hb as (b1 & entry & b2 & -> & Hb & _).
    apply sidecarBody_Some in Hb as [(Hd & Hm & Hv) ->].
    exists (b1 ++ entry :: b2), entry.
    split; [reflexivity|]. split; [apply in_or_app; right; now left|].
    split; [exact Hd|]. split; [reflexivity|]. split; [exact Hv|].
    apply (sidecarPatterns_suffix file pattern); [|exact Hm].
    rewrite Hl. apply in_or_app. right. now left.
  - intros Hne.
    destruct (prefix_rounds.fallback_candidate _ _ _ Hne)
      as (k & entry & Hin & Hc).
    destruct (prefix_facts.prefixCandidate_Some _ _ _ _ _ Hc)
      as (Hd & Hp & Hv & mid & Hname & _).
    exists entries, entry. repeat split; auto.
    rewrite sidecar_prefix_suffix. cbv zeta in Hname.
    apply string_facts.HasSuffix_spec. eexists. exact Hname.
Qed.

Lemma HasSuffix_trans (s a b : string) :
  strings.HasSuffix s (a +:+ b) = true -> strings.HasSuffix s b = true.
Proof.
  rewrite !string_facts.HasSuffix_spec. intros (p & ->).
  exists (p +:+ a). now rewrite string_facts.append_assoc.
Qed.

End matcher_facts.

(** X1.  [findSidecarFile] returns the empty string when the directory
    cannot be read; a path it returns is the directory joined with the name
    of an entry of the listing that is not a directory, whose content passes
    [isGooglePhotosSidecar] and whose name ends in [.json]. *)
Theorem findSidecarFile_sound (fs : FS) (file : MediaFile) :
  (ReadDir fs (Dir file) = None -> findSidecarFile fs file = EmptyString)
  /\ (findSidecarFile fs file <> EmptyString ->
      exists entries entry,
        ReadDir fs (Dir file) = Some entries
        /\ In entry entries
        /\ IsDir entry = false
        /\ findSidecarFile fs file = filepath.Join (Dir file) (Name entry)
        /\ isGooglePhotosSidecar fs (findSidecarFile fs file) = true
        /\ strings.HasSuffix (Name entry) ".json" = true).
Proof.
  split.
  - intros H. unfold findSidecarFile. now rewrite H.
  - intros Hne.
    destruct (matcher_facts.findSidecarFile_selected fs file Hne)
      as (entries & entry & H1 & H2 & H3 & H4 & H5 & H6).
    exists entries, entry. repeat split; auto.
    exact (matcher_facts.HasSuffix_trans _ _ _ H6).
Qed.

Lemma findSidecarFile_sound_witness :
  exists entries entry,
    ReadDir (testDir sidecarTestNames) "/t" = Some entries
    /\ In entry entries
    /\ IsDir entry = false
    /\ findSidecarFile (testDir sidecarTestNames) (testFile "IMG_123.jpg")
       = filepath.Join "/t" (Name entry)
    /\ isGooglePhotosSidecar (testDir sidecarTestNames)
         (findSidecarFile (testDir sidecarTestNames)
                          (testFile "IMG_123.jpg")) = true
    /\ strings.HasSuffix (Name entry) ".json" = true.
Proof.
  apply (proj2 (findSidecarFile_sound (testDir sidecarTestNames)
                  (testFile "IMG_123.jpg"))).
  vm_compute. discriminate.
Defined.

(** X2.  A media file whose stem ends in a number in parentheses is only
    paired with a file whose name ends in that number in parentheses and
    [.json]: the companion of another copy is never returned for it. *)
Theorem findSidecarFile_keeps_number (fs : FS) (file : MediaFile)
    (stem number : string) :
  FindStringSubmatch (baseNameNoExt file) = Some (stem, number) ->
  findSidecarFile fs file <> EmptyString ->
  exists entry,
    findSidecarFile fs file = filepath.Join (Dir file) (Name entry)
    /\ strings.HasSuffix (Name entry) (("(" +:+ number +:+ ")") +:+ ".json")
       = true.
Proof.
  intros Hf Hne.
  destruct (matcher_facts.findSidecarFile_selected fs file Hne)
    as (entries & entry & _ & _ & _ & H4 & _ & H6).
  exists entry. split; [exact H4|].
  unfold sidecarBase in H6. now rewrite Hf in H6.
Qed.

Lemma findSidecarFile_keeps_number_witness :
  exists entry,
    findSidecarFile (testDir sidecarTestNames) (testFile "IMG_456(1).jpg")
    = filepath.Join "/t" (Name entry)
    /\ strings.HasSuffix (Name entry) (("(" +:+ "1" +:+ ")") +:+ ".json")
       = true.
Proof.
  apply (findSidecarFile_keeps_number (testDir sidecarTestNames)
           (testFile "IMG_456(1).jpg") "IMG_456" "1").
  - vm_compute. reflexivity.
  - vm_compute. discriminate.
Defined.

Module precedence_facts.

#[local] Arguments String.append : simpl nomatch.

Lemma rangeOver_all_None {A : Type} (body : A -> option string) (l : list A) :
  (forall y, In y l -> body y = None) -> rangeOver body l = None.
Proof.
  induction l as [|a l IH]; simpl; intros H; [reflexivity|].
  rewrite (H a) by now left. apply IH. intros y Hy. apply H. now right.
Qed.

Lemma sidecarBody_None (fs : FS) (file : MediaFile)
    (pattern : list regexp.piece) (entry : DirEntry) :
  ~ acceptable fs (Dir file) pattern entry ->
  sidecarBody fs file (regexp.piecesRe pattern) entry = None.
Proof.
  intros Hn.
  destruct (sidecarBody fs file (regexp.piecesRe pattern) entry) as [r|] eqn:H;
    [|reflexivity].
  apply sidecarBody_Some in H as [Ha _]. contradiction.
Qed.

Lemma patternRound_skipped (fs : FS) (file : MediaFile)
    (entries : list DirEntry) (q : list regexp.piece) :
  forallb regexp.pieceValid q = false
  \/ (forall e, In e entries -> ~ acceptable fs (Dir file) q e) ->
  patternRound fs file entries q = None.
Proof.
  unfold patternRound, regexp.Compile. intros [-> | H]; [reflexivity|].
  destruct (forallb regexp.pieceValid q); [|reflexivity].
  apply rangeOver_all_None. intros e He. now apply sidecarBody_None, H.
Qed.

Lemma patternRound_first (fs : FS) (file : MediaFile)
    (before after : list DirEntry) (entry : DirEntry)
    (pattern : list regexp.piece) :
  forallb regexp.pieceValid pattern = true ->
  acceptable fs (Dir file) pattern entry ->
  (forall e, In e before -> ~ acceptable fs (Dir file) pattern e) ->
  patternRound fs file (before ++ entry :: after) pattern
  = Some (filepath.Join (Dir file) (Name entry)).
Proof.
  intros Hv Ha Hb. unfold patternRound, regexp.Compile. rewrite Hv.
  apply rangeOver_first.
  - intros e He. now apply sidecarBody_None, Hb.
  - apply sidecarBody_Some. auto.
Qed.

Lemma findSidecarFile_rounds (fs : FS) (file : MediaFile)
    (entries : list DirEntry) :
  ReadDir fs (Dir file) = Some entries ->
  findSidecarFile fs file
  = match rangeOver (patternRound fs file entries) (sidecarPatterns file) with
    | Some sidecarPath => sidecarPath
    | None => findSidecarWithPrefixMatching fs file entries
    end.
Proof. intros H. unfold findSidecarFile. now rewrite H. Qed.

End precedence_facts.

(** X3.  The exact patterns are tried in their order and, for one pattern,
    the entries in the order of the listing: the first entry that is
    acceptable for the first pattern that has one is returned, and the
    prefix fallback is not consulted. *)
Theorem findSidecarFile_precedence (fs : FS) (file : MediaFile)
    (entries before after : list DirEntry) (entry : DirEntry)
    (earlier later : list (list regexp.piece))
    (pattern : list regexp.piece) :
  ReadDir fs (Dir file) = Some entries ->
  sidecarPatterns file = earlier ++ pattern :: later ->
  (forall q, In q earlier ->
     forallb regexp.pieceValid q = false
     \/ (forall e, In e entries -> ~ acceptable fs (Dir file) q e)) ->
  forallb regexp.pieceValid pattern = true ->
  entries = before ++ entry :: after ->
  acceptable fs (Dir file) pattern entry ->
  (forall e, In e before -> ~ acceptable fs (Dir file) pattern e) ->
  findSidecarFile fs file = filepath.Join (Dir file) (Name entry).
Proof.
  intros Hr Hp He Hv -> Ha Hb.
  rewrite (precedence_facts.findSidecarFile_rounds _ _ _ Hr), Hp.
  rewrite (rangeOver_first _ earlier later pattern
             (filepath.Join (Dir file) (Name entry))); [reflexivity| |].
  - intros q Hq. now apply precedence_facts.patternRound_skipped, He.
  - now apply precedence_facts.patternRound_first.
Qed.

(** The second pattern of a name with a trailing underscore: the
    companion keeps the extension and drops the underscore. *)
Lemma findSidecarFile_precedence_witness :
  findSidecarFile
    (testDir ["TrailingUnderscore.jpg.supplemental-metadata.json";
              "TrailingUnderscore_.jpg"])
    (testFile "TrailingUnderscore_.jpg")
  = filepath.Join "/t" "TrailingUnderscore.jpg.supplemental-metadata.json".
Proof.
  apply (findSidecarFile_precedence
           (testDir ["TrailingUnderscore.jpg.supplemental-metadata.json";
                     "TrailingUnderscore_.jpg"])
           (testFile "TrailingUnderscore_.jpg")
           (testEntries ["TrailingUnderscore.jpg.supplemental-metadata.json";
                         "TrailingUnderscore_.jpg"])
           []
           [mkDirEntry "TrailingUnderscore_.jpg" false]
           (mkDirEntry "TrailingUnderscore.jpg.supplemental-metadata.json"
                       false)
           [[regexp.Quoted "TrailingUnderscore_.jpg"; regexp.OptDotAny;
             regexp.Quoted ".json"]]
           [[regexp.Quoted "TrailingUnderscore"; regexp.Quoted ".json"]]
           [regexp.Quoted "TrailingUnderscore.jpg"; regexp.OptDotAny;
            regexp.Quoted ".json"]).
  - reflexivity.
  - reflexivity.
  - intros q [<- | []]. right. intros e He (_ & Hm & _). simpl in He.
    destruct He as [<- | [<- | []]]; vm_compute in Hm; discriminate Hm.
  - reflexivity.
  - reflexivity.
  - repeat split; vm_compute; reflexivity.
  - intros e [].
Defined.

(** X5.  The prefix fallback returns nothing exactly when no entry of the
    listing is taken in any round, for any prefix length between the floor
    and the length of the stem. *)
Theorem prefix_fallback_none (fs : FS) (file : MediaFile)
    (entries : list DirEntry) :
  findSidecarWithPrefixMatching fs file entries = EmptyString <->
  forall k e,
    (Nat.min 10 (String.length (fst (prefixBase file))) <= k
     <= String.length (fst (prefixBase file)))%nat ->
    In e entries -> prefixCandidate fs file k e = None.
Proof.
  rewrite prefix_rounds.fallback_rounds. split.
  - destruct (rangeOver _ (prefixLens _ _)) as [r|] eqn:Hr.
    + intros ->. exfalso.
      apply rangeOver_Some in Hr as (l1 & k & l2 & _ & Hk & _).
      apply rangeOver_Some in Hk as (b1 & e & b2 & _ & Hc & _).
      destruct (prefix_facts.prefixCandidate_Some _ _ _ _ _ Hc)
        as (_ & Hp & _ & mid & Hname & _).
      symmetry in Hp. revert Hp. apply prefix_facts.Join_nonempty.
      cbv zeta in Hname. rewrite Hname. intros H.
      apply (f_equal String.length) in H.
      rewrite !string_facts.length_append in H. simpl in H. lia.
    + intros _ k e Hk He.
      eapply rangeOver_None; [|exact He].
      apply (rangeOver_None _ _ Hr). apply prefixLens_In. lia.
  - intros H.
    rewrite (precedence_facts.rangeOver_all_None _ (prefixLens _ _));
      [reflexivity|].
    intros k Hk. apply prefixLens_In in Hk.
    apply precedence_facts.rangeOver_all_None. intros e He.
    apply H; [lia | exact He].
Qed.

Module underscore_facts.

#[local] Arguments String.append : simpl nomatch.

Lemma append_neq_underscore (s ext : string) :
  String.eqb (s +:+ ext) (s +:+ "_" +:+ ext) = false.
Proof.
  apply String.eqb_neq. intros H. apply (f_equal String.length) in H.
  rewrite !string_facts.length_append in H. simpl in H. lia.
Qed.

(** The patterns of a name [s_ext] without number suffix. *)
Lemma sidecarPatterns_underscore (path dir s ext : string) :
  filepath.Ext (s +:+ "_" +:+ ext) = ext ->
  FindStringSubmatch (s +:+ "_") = None ->
  sidecarPatterns (mkMediaFile path (s +:+ "_" +:+ ext) dir)
  = [[regexp.Quoted (s +:+ "_" +:+ ext); regexp.OptDotAny;
      regexp.Quoted ".json"];
     [regexp.Quoted (s +:+ ext); regexp.OptDotAny; regexp.Quoted ".json"];
     [regexp.Quoted s; regexp.Quoted ".json"]].
Proof.
  intros He Hf.
  assert (Htrim : strings.TrimSuffix (s +:+ "_" +:+ ext) ext = s +:+ "_").
  { rewrite <- (string_facts.append_assoc s "_" ext).
    apply string_facts.TrimSuffix_append. }
  assert (Hs : strings.HasSuffix (s +:+ "_") "_" = true)
    by (apply string_facts.HasSuffix_spec; eauto).
  unfold sidecarPatterns, sidecarBase, baseNameNoExt.
  cbn [BaseName]. rewrite He, Htrim, Hf. cbn [negb String.eqb].
  rewrite He, Htrim, Hs, string_facts.TrimSuffix_append.
  rewrite append_neq_underscore. reflexivity.
Qed.

(** The bare pattern matches one name only. *)
Lemma bare_match (s name : string) :
  regexp.MatchString
    (regexp.piecesRe [regexp.Quoted s; regexp.Quoted ".json"]) name = true ->
  name = s +:+ ".json".
Proof.
  intros H. apply prefix_facts.MatchString_lang in H.
  cbn [regexp.piecesRe regexp.pieceRe] in H.
  apply prefix_facts.lang_Lit_app in H as (t & Hn & H).
  apply prefix_facts.lang_Lit_app in H as (t' & -> & H).
  apply prefix_facts.lang_Eps_nil in H as ->.
  apply string_facts.list_of_inj.
  now rewrite Hn, string_facts.list_of_append, app_nil_r.
Qed.

Lemma bare_match_self (s : string) :
  regexp.MatchString
    (regexp.piecesRe [regexp.Quoted s; regexp.Quoted ".json"])
    (s +:+ ".json") = true.
Proof.
  apply prefix_facts.MatchString_lang.
  cbn [regexp.piecesRe regexp.pieceRe].
  apply prefix_facts.lang_Lit_app. eexists. split.
  - apply string_facts.list_of_append.
  - apply prefix_facts.lang_Lit_app. exists []. split.
    + now rewrite app_nil_r.
    + constructor.
Qed.

End underscore_facts.

(** X4.  The trailing underscore.  For a media file named [s_ext], where
    [ext] is its extension and [s_] carries no number suffix, the companion
    [s.json] (no underscore, no extension) is returned when it is a
    content-valid regular file of the listing and no entry is acceptable
    for the two patterns tried before, the name as it is and the name
    without the underscore. *)
Theorem findSidecarFile_underscore_bare (fs : FS) (path dir s ext : string)
    (entries : list DirEntry) :
  filepath.Ext (s +:+ "_" +:+ ext) = ext ->
  FindStringSubmatch (s +:+ "_") = None ->
  utf8.ValidString s = true ->
  ReadDir fs dir = Some entries ->
  In (mkDirEntry (s +:+ ".json") false) entries ->
  isGooglePhotosSidecar fs (filepath.Join dir (s +:+ ".json")) = true ->
  (forall e, In e entries ->
     ~ acceptable fs dir
         [regexp.Quoted (s +:+ "_" +:+ ext); regexp.OptDotAny;
          regexp.Quoted ".json"] e) ->
  (forall e, In e entries ->
     ~ acceptable fs dir
         [regexp.Quoted (s +:+ ext); regexp.OptDotAny;
          regexp.Quoted ".json"] e) ->
  findSidecarFile fs (mkMediaFile path (s +:+ "_" +:+ ext) dir)
  = filepath.Join dir (s +:+ ".json").
Proof.
  intros He Hf Hu Hr Hin Hv H1 H2.
  rewrite (precedence_facts.findSidecarFile_rounds _ _ entries) by exact Hr.
  rewrite (underscore_facts.sidecarPatterns_underscore _ _ _ _ He Hf).
  cbn [rangeOver].
  rewrite (precedence_facts.patternRound_skipped fs _ entries)
    by (right; exact H1).
  rewrite (precedence_facts.patternRound_skipped fs _ entries)
    by (right; exact H2).
  unfold patternRound, regexp.Compile.
  cbn [forallb regexp.pieceValid]. rewrite Hu.
  change (utf8.ValidString ".json") with true. cbn [andb].
  rewrite (rangeOver_unique _ entries (mkDirEntry (s +:+ ".json") false)
             (filepath.Join dir (s +:+ ".json"))); auto.
  - apply sidecarBody_Some. split; [|reflexivity].
    split; [reflexivity|]. split; [|exact Hv].
    apply underscore_facts.bare_match_self.
  - intros y r' Hy Hb. apply sidecarBody_Some in Hb as [(_ & Hm & _) ->].
    cbn [Dir]. now rewrite (underscore_facts.bare_match _ _ Hm).
Qed.

(** The pair of [TestTrailingUnderscoreEdgeCase]. *)
Lemma findSidecarFile_underscore_bare_witness :
  findSidecarFile
    (testDir ["47931_1530376731723_1003886514_1589589_6447425.json";
              "47931_1530376731723_1003886514_1589589_6447425_.jpg"])
    (mkMediaFile "/t/47931_1530376731723_1003886514_1589589_6447425_.jpg"
       ("47931_1530376731723_1003886514_1589589_6447425" +:+ "_" +:+ ".jpg")
       "/t")
  = filepath.Join "/t"
      ("47931_1530376731723_1003886514_1589589_6447425" +:+ ".json").
Proof.
  apply (findSidecarFile_underscore_bare
           (testDir ["47931_1530376731723_1003886514_1589589_6447425.json";
                     "47931_1530376731723_1003886514_1589589_6447425_.jpg"])
           "/t/47931_1530376731723_1003886514_1589589_6447425_.jpg" "/t"
           "47931_1530376731723_1003886514_1589589_6447425" ".jpg"
           (testEntries
              ["47931_1530376731723_1003886514_1589589_6447425.json";
               "47931_1530376731723_1003886514_1589589_6447425_.jpg"])).
  - vm_compute. reflexivity.
  - vm_compute. reflexivity.
  - vm_compute. reflexivity.
  - reflexivity.
  - simpl. tauto.
  - vm_compute. reflexivity.
  - intros e He (_ & Hm & _). simpl in He.
    destruct He as [<- | [<- | []]]; vm_compute in Hm; discriminate Hm.
  - intros e He (_ & Hm & _). simpl in He.
    destruct He as [<- | [<- | []]]; vm_compute in Hm; discriminate Hm.
Defined.

(** * Further properties of the process handle *)

Module framing_facts.

#[local] Arguments String.append : simpl nomatch.

Lemma readOutput_ready (before after : list (string * option error))
    (e fin : option error) (output : string) :
  (forall l e', In (l, e') before -> l <> readyMarker) ->
  readOutput (before ++ (readyMarker, e) :: after) fin output
  = (output +:+ joinLines before, mkScanner after fin e).
Proof.
  revert output. induction before as [|[l e'] before IH]; intros output Hn.
  - simpl. now rewrite string_facts.append_nil_r.
  - cbn [app readOutput joinLines].
    destruct (String.eqb_spec l readyMarker) as [-> | _].
    + exfalso. apply (Hn readyMarker e'); [now left | reflexivity].
    + rewrite IH by (intros l0 e0 H; apply (Hn l0 e0); now right).
      now rewrite !string_facts.append_assoc.
Qed.

Lemma readOutput_end (before : list (string * option error))
    (fin : option error) (output : string) :
  (forall l e', In (l, e') before -> l <> readyMarker) ->
  readOutput before fin output
  = (output +:+ joinLines before, mkScanner [] fin fin).
Proof.
  revert output. induction before as [|[l e'] before IH]; intros output Hn.
  - simpl. now rewrite string_facts.append_nil_r.
  - cbn [readOutput joinLines].
    destruct (String.eqb_spec l readyMarker) as [-> | _].
    + exfalso. apply (Hn readyMarker e'); [now left | reflexivity].
    + rewrite IH by (intros l0 e0 H; apply (Hn l0 e0); now right).
      now rewrite !string_facts.append_assoc.
Qed.

Lemma drainOutput_ready (before after : list (string * option error))
    (e fin : option error) :
  (forall l e', In (l, e') before -> l <> readyMarker /\ ~ flagged l) ->
  drainOutput (before ++ (readyMarker, e) :: after) fin
  = (None, mkScanner after fin e).
Proof.
  induction before as [|[l e'] before IH]; intros Hn.
  - reflexivity.
  - cbn [app drainOutput]. destruct (Hn l e') as [Hl Hf]; [now left|].
    destruct (String.eqb_spec l readyMarker); [contradiction|].
    destruct (strings.Contains l "Error:" || strings.Contains l "Warning:")
      eqn:Hc.
    + exfalso. apply Hf. now apply handle_facts.flagged_Contains.
    + apply IH. intros l0 e0 H. apply (Hn l0 e0). now right.
Qed.

Lemma drainOutput_end (before : list (string * option error))
    (fin : option error) :
  (forall l e', In (l, e') before -> l <> readyMarker /\ ~ flagged l) ->
  drainOutput before fin = (None, mkScanner [] fin fin).
Proof.
  induction before as [|[l e'] before IH]; intros Hn.
  - reflexivity.
  - cbn [drainOutput]. destruct (Hn l e') as [Hl Hf]; [now left|].
    destruct (String.eqb_spec l readyMarker); [contradiction|].
    destruct (strings.Contains l "Error:" || strings.Contains l "Warning:")
      eqn:Hc.
    + exfalso. apply Hf. now apply handle_facts.flagged_Contains.
    + apply IH. intros l0 e0 H. apply (Hn l0 e0). now right.
Qed.

(** The handle after [GetMetadata], whatever it returns. *)
Lemma GetMetadata_handle (float64_ok : list ascii -> bool)
    (etp : ExifToolProcess) (filePath : string) :
  stdinWrite etp (length (sent etp)) = None ->
  snd (GetMetadata float64_ok etp filePath)
  = mkProcess (stdinWrite etp) (sent etp ++ [readCommand filePath])
      (snd (readOutput (lines (scanner etp)) (final (scanner etp))
                       EmptyString))
      (exit etp) (closeCalls etp).
Proof.
  intros Hw. unfold GetMetadata, Write. rewrite Hw.
  cbn [scanner lines final].
  destruct (readOutput _ _ _) as [output sc]. cbn [snd].
  destruct (err sc); [reflexivity|].
  destruct (String.eqb _ _); [reflexivity|].
  destruct (exifjson.Unmarshal _ _) as [e|[|first rest]]; reflexivity.
Qed.

End framing_facts.

(** X6.  [GetMetadata] reads one response: when the command is written and
    the output holds a ready marker, the handle afterwards has the command
    appended to what was sent and has consumed the lines up to and
    including the first ready marker, and no line after it. *)
Theorem GetMetadata_reads_one_response (float64_ok : list ascii -> bool)
    (etp : ExifToolProcess) (filePath : string)
    (before after : list (string * option error)) (e : option error) :
  stdinWrite etp (length (sent etp)) = None ->
  lines (scanner etp) = before ++ (readyMarker, e) :: after ->
  (forall l e', In (l, e') before -> l <> readyMarker) ->
  lines (scanner (snd (GetMetadata float64_ok etp filePath))) = after
  /\ sent (snd (GetMetadata float64_ok etp filePath))
     = sent etp ++ [readCommand filePath]
  /\ closeCalls (snd (GetMetadata float64_ok etp filePath)) = closeCalls etp.
Proof.
  intros Hw Hl Hn.
  rewrite (framing_facts.GetMetadata_handle _ _ _ Hw), Hl.
  rewrite (framing_facts.readOutput_ready before after e _ _ Hn).
  repeat split.
Qed.

Lemma GetMetadata_reads_one_response_witness :
  lines (scanner (snd (GetMetadata (fun _ => true)
                         (processWith (exifAnswer ++ ["next"]) None)
                         "a.jpg")))
  = [("next", None)].
Proof.
  apply (GetMetadata_reads_one_response (fun _ => true)
           (processWith (exifAnswer ++ ["next"]) None) "a.jpg"
           [(quoted "[{'SourceFile': 'a.jpg', 'DateTimeOriginal': '2023:01:01 00:00:00'}]", None)]
           [("next", None)] None).
  - reflexivity.
  - reflexivity.
  - intros l e' [[= <- <-] | []]. discriminate.
Defined.

(** X7.  [UpdateAllDates] succeeds on a clean response: when the command is
    written and no line before the ready marker contains [Error:] or
    [Warning:], it returns nil, unless the scanner reports a read error
    with the ready marker, and it has consumed the response up to and
    including the ready marker. *)
Theorem UpdateAllDates_clean_response (etp : ExifToolProcess)
    (filePath dateStr : string)
    (before after : list (string * option error)) (e : option error) :
  stdinWrite etp (length (sent etp)) = None ->
  lines (scanner etp) = before ++ (readyMarker, e) :: after ->
  (forall l e', In (l, e') before -> l <> readyMarker /\ ~ flagged l) ->
  fst (UpdateAllDates etp filePath dateStr)
  = match e with
    | Some er => Some (ErrorfV "failed to read exiftool output: " er)
    | None => None
    end
  /\ lines (scanner (snd (UpdateAllDates etp filePath dateStr))) = after
  /\ sent (snd (UpdateAllDates etp filePath dateStr))
     = sent etp ++ [writeCommand filePath dateStr].
Proof.
  intros Hw Hl Hn. unfold UpdateAllDates, Write. rewrite Hw.
  cbn [scanner lines final]. rewrite Hl.
  rewrite (framing_facts.drainOutput_ready before after e _ Hn).
  cbn [err]. destruct e; repeat split.
Qed.

Lemma UpdateAllDates_clean_response_witness :
  fst (UpdateAllDates
         (processWith ["    1 image files updated"; "{ready}"] None)
         "a.jpg" "2023:01:01 00:00:00")
  = None
  /\ lines (scanner (snd (UpdateAllDates
         (processWith ["    1 image files updated"; "{ready}"] None)
         "a.jpg" "2023:01:01 00:00:00"))) = []
  /\ sent (snd (UpdateAllDates
         (processWith ["    1 image files updated"; "{ready}"] None)
         "a.jpg" "2023:01:01 00:00:00"))
     = [] ++ [writeCommand "a.jpg" "2023:01:01 00:00:00"].
Proof.
  apply (UpdateAllDates_clean_response
           (processWith ["    1 image files updated"; "{ready}"] None)
           "a.jpg" "2023:01:01 00:00:00"
           [("    1 image files updated", None)] [] None).
  - reflexivity.
  - reflexivity.
  - intros l e' [[= <- <-] | []]. split; [discriminate|].
    intros H. apply handle_facts.flagged_Contains in H. discriminate H.
Defined.

(** X8.  [UpdateAllDates] returns at the first line that reports a problem
    and leaves the rest of the response unread, ready marker included.
    The next [GetMetadata] on the handle then reads that remainder as its
    own response: it stops at the stale ready marker, and when nothing
    stands before that marker it returns the empty tag map and no error,
    with its own response still unread. *)
Theorem UpdateAllDates_leaves_response_unread
    (float64_ok : list ascii -> bool) (etp : ExifToolProcess)
    (filePath dateStr nextPath : string)
    (pre rest after : list (string * option error)) (line : string)
    (e e' : option error) :
  stdinWrite etp (length (sent etp)) = None ->
  stdinWrite etp (S (length (sent etp))) = None ->
  lines (scanner etp)
  = pre ++ (line, e) :: rest ++ (readyMarker, e') :: after ->
  (forall l e0, In (l, e0) pre -> l <> readyMarker /\ ~ flagged l) ->
  flagged line ->
  (forall l e0, In (l, e0) rest -> l <> readyMarker) ->
  let etp1 := snd (UpdateAllDates etp filePath dateStr) in
  lines (scanner etp1) = rest ++ (readyMarker, e') :: after
  /\ lines (scanner (snd (GetMetadata float64_ok etp1 nextPath))) = after
  /\ (rest = [] -> e' = None ->
      fst (GetMetadata float64_ok etp1 nextPath) = inr ∅).
Proof.
  intros Hw Hw' Hl Hpre Hf Hrest. cbv zeta.
  assert (H1 : snd (UpdateAllDates etp filePath dateStr)
               = mkProcess (stdinWrite etp)
                   (sent etp ++ [writeCommand filePath dateStr])
                   (mkScanner (rest ++ (readyMarker, e') :: after)
                              (final (scanner etp)) e)
                   (exit etp) (closeCalls etp)).
  { unfold UpdateAllDates, Write. rewrite Hw.
    cbn [scanner lines final]. rewrite Hl.
    rewrite (handle_facts.drainOutput_flagged pre _ line e _ Hpre Hf).
    reflexivity. }
  rewrite H1. cbn [scanner lines].
  assert (Hw1 : stdinWrite
                  (mkProcess (stdinWrite etp)
                     (sent etp ++ [writeCommand filePath dateStr])
                     (mkScanner (rest ++ (readyMarker, e') :: after)
                                (final (scanner etp)) e)
                     (exit etp) (closeCalls etp))
                  (length (sent etp ++ [writeCommand filePath dateStr]))
                = None).
  { cbn [stdinWrite]. rewrite length_app. cbn [length].
    now rewrite Nat.add_1_r. }
  split; [reflexivity|]. split.
  - rewrite (framing_facts.GetMetadata_handle _ _ _ Hw1).
    cbn [scanner lines final].
    now rewrite (framing_facts.readOutput_ready rest after e' _ _ Hrest).
  - intros -> ->. cbn [stdinWrite sent] in Hw1.
    unfold GetMetadata, Write. cbn [stdinWrite sent]. rewrite Hw1.
    reflexivity.
Qed.

Lemma UpdateAllDates_leaves_response_unread_witness :
  let etp1 :=
    snd (UpdateAllDates
           (processWith ["Warning: bad tag - a.jpg"; "{ready}"; "[]";
                         "{ready}"] None)
           "a.jpg" "2023:01:01 00:00:00") in
  lines (scanner etp1) = [] ++ (readyMarker, None) :: [("[]", None);
                                                       ("{ready}", None)]
  /\ lines (scanner (snd (GetMetadata (fun _ => true) etp1 "b.jpg")))
     = [("[]", None); ("{ready}", None)]
  /\ ([] = @nil (string * option error) -> @None error = None ->
      fst (GetMetadata (fun _ => true) etp1 "b.jpg") = inr ∅).
Proof.
  apply (UpdateAllDates_leaves_response_unread (fun _ => true)
           (processWith ["Warning: bad tag - a.jpg"; "{ready}"; "[]";
                         "{ready}"] None)
           "a.jpg" "2023:01:01 00:00:00" "b.jpg"
           [] [] [("[]", None); ("{ready}", None)]
           "Warning: bad tag - a.jpg" None None).
  - reflexivity.
  - reflexivity.
  - reflexivity.
  - intros l e0 [].
  - right. exists EmptyString, " bad tag - a.jpg". reflexivity.
  - intros l e0 [].
Defined.

(** X9.  The end of the output is not a failure by itself.  When the
    output of the subprocess ends before any ready marker, with no line
    that reports a problem, [UpdateAllDates] returns the read error of the
    scanner if there is one and nil otherwise: a subprocess whose output
    just ends makes the write look successful. *)
Theorem UpdateAllDates_end_of_output (etp : ExifToolProcess)
    (filePath dateStr : string) :
  stdinWrite etp (length (sent etp)) = None ->
  (forall l e', In (l, e') (lines (scanner etp)) ->
                l <> readyMarker /\ ~ flagged l) ->
  fst (UpdateAllDates etp filePath dateStr)
  = match final (scanner etp) with
    | Some er => Some (ErrorfV "failed to read exiftool output: " er)
    | None => None
    end.
Proof.
  intros Hw Hn. unfold UpdateAllDates, Write. rewrite Hw.
  cbn [scanner lines final].
  rewrite (framing_facts.drainOutput_end _ _ Hn). cbn [err].
  now destruct (final (scanner etp)).
Qed.

Lemma UpdateAllDates_end_of_output_witness :
  fst (UpdateAllDates (processWith [] None) "a.jpg" "2023:01:01 00:00:00")
  = None.
Proof.
  apply (UpdateAllDates_end_of_output (processWith [] None)
           "a.jpg" "2023:01:01 00:00:00").
  - reflexivity.
  - intros l e' [].
Defined.

Module tags_facts.

#[local] Arguments String.append : simpl nomatch.

Lemma fold_insert_lookup (ms : list (string * json.Value))
    (m : gmap string json.Value) (k : string) :
  fold_left (fun m kv => <[fst kv := snd kv]> m) ms m !! k
  = match lastValue k ms with
    | Some v => Some v
    | None => m !! k
    end.
Proof.
  revert m. induction ms as [|[k' v] ms IH]; intros m; [reflexivity|].
  cbn [fold_left lastValue fst snd]. rewrite IH.
  destruct (lastValue k ms); [reflexivity|].
  destruct (String.eqb_spec k' k) as [-> | Hne].
  - apply lookup_insert_eq.
  - now apply lookup_insert_ne.
Qed.

Lemma mapOfMembers_lookup (ms : list (string * json.Value)) (k : string) :
  exifjson.mapOfMembers ms !! k = lastValue k ms.
Proof.
  unfold exifjson.mapOfMembers. rewrite fold_insert_lookup.
  destruct (lastValue k ms); [reflexivity | apply lookup_empty].
Qed.

Lemma stringTags_lookup (m : gmap string json.Value) (k s : string) :
  stringTags m !! k = Some s <-> m !! k = Some (json.Str s).
Proof.
  unfold stringTags. rewrite lookup_omap.
  destruct (m !! k) as [v|]; cbn; [|split; discriminate].
  destruct v; split; intros H; try discriminate; now inversion H.
Qed.

Lemma storeMaps_decodable (float64_ok : list ascii -> bool)
    (es : list json.Value) :
  if forallb (decodable float64_ok) es
  then exists maps, exifjson.storeMaps float64_ok es = inr maps
  else exists e, exifjson.storeMaps float64_ok es = inl e.
Proof.
  induction es as [|v es IH]; [now exists []|].
  cbn [forallb exifjson.storeMaps].
  destruct (decodable float64_ok v) eqn:Hv; cbn [andb].
  - assert (Hs : exists m, exifjson.storeMap float64_ok v = inr m).
    { destruct v; try discriminate Hv; cbn [exifjson.storeMap].
      - now exists ∅.
      - cbn [decodable] in Hv. rewrite Hv. eauto. }
    destruct Hs as [m ->].
    destruct (forallb (decodable float64_ok) es).
    + destruct IH as [maps ->]. now exists (m :: maps).
    + destruct IH as [e ->]. now exists e.
  - assert (Hs : exists e, exifjson.storeMap float64_ok v = inl e).
    { destruct v; try discriminate Hv; cbn [exifjson.storeMap]; eauto.
      cbn [decodable] in Hv. rewrite Hv. eauto. }
    destruct Hs as [e ->]. now exists e.
Qed.

End tags_facts.

(** X10.  The tags [GetMetadata] returns.  Let the response before the
    ready marker be a JSON array whose first element is an object.  When
    every element of the array is null or an object whose numbers all fit
    a float64, the call returns a map that holds exactly the string-valued
    members of the first object: a key is bound to [s] if and only if the
    last member with that key has the string value [s], and members with
    a number, a boolean, null, an array or an object as value are left
    out.  Otherwise, that is with an element of another kind or with a
    number that does not fit, it returns a failure to parse and no
    map. *)
Theorem GetMetadata_string_tags (float64_ok : list ascii -> bool)
    (etp : ExifToolProcess) (filePath : string)
    (before after : list (string * option error))
    (ms : list (string * json.Value)) (others : list json.Value) :
  stdinWrite etp (length (sent etp)) = None ->
  lines (scanner etp) = before ++ (readyMarker, None) :: after ->
  (forall l e', In (l, e') before -> l <> readyMarker) ->
  json.Parse (strings.TrimSpace (joinLines before))
  = Some (json.Array (json.Object ms :: others)) ->
  if forallb (decodable float64_ok) (json.Object ms :: others)
  then exists m, fst (GetMetadata float64_ok etp filePath) = inr m
                 /\ forall k s, m !! k = Some s
                                <-> lastValue k ms = Some (json.Str s)
  else exists e, fst (GetMetadata float64_ok etp filePath)
                 = inl (ErrorfV "failed to parse exiftool JSON: " e).
Proof.
  intros Hw Hl Hn Hp.
  assert (Hg : fst (GetMetadata float64_ok etp filePath)
               = match exifjson.storeMaps float64_ok
                         (json.Object ms :: others) with
                 | inl e => inl (ErrorfV "failed to parse exiftool JSON: " e)
                 | inr [] => inr ∅
                 | inr (first :: _) => inr (stringTags first)
                 end).
  { unfold GetMetadata, Write. rewrite Hw. cbn [scanner lines final].
    rewrite Hl, (framing_facts.readOutput_ready before after None _ _ Hn).
    cbn [err]. change (EmptyString +:+ joinLines before)
      with (joinLines before).
    destruct (String.eqb_spec (strings.TrimSpace (joinLines before)) "")
      as [He | _].
    { rewrite He in Hp. discriminate Hp. }
    unfold exifjson.Unmarshal. rewrite Hp.
    destruct (exifjson.storeMaps float64_ok (json.Object ms :: others))
      as [e|[|first rest]]; reflexivity. }
  rewrite Hg.
  pose proof (tags_facts.storeMaps_decodable float64_ok
                (json.Object ms :: others)) as Hd.
  destruct (forallb (decodable float64_ok) (json.Object ms :: others)).
  - destruct Hd as [maps Hm]. rewrite Hm.
    cbn [exifjson.storeMaps exifjson.storeMap] in Hm.
    destruct (forallb _ ms); [|discriminate].
    destruct (exifjson.storeMaps float64_ok others); [discriminate|].
    inversion Hm; subst; clear Hm.
    exists (stringTags (exifjson.mapOfMembers ms)). split; [reflexivity|].
    intros k s. rewrite tags_facts.stringTags_lookup.
    now rewrite tags_facts.mapOfMembers_lookup.
  - destruct Hd as [e ->]. now exists e.
Qed.

Lemma GetMetadata_string_tags_witness :
  exists m,
    fst (GetMetadata (fun _ => true)
           (processWith
              [quoted "[{'SourceFile': 'a.jpg', 'ImageWidth': 640, 'CreateDate': '2020:01:01 00:00:00', 'CreateDate': '2021:02:03 04:05:06'}]";
               "{ready}"] None) "a.jpg") = inr m
    /\ forall k s,
         m !! k = Some s
         <-> lastValue k
               [("SourceFile", json.Str "a.jpg");
                ("ImageWidth", json.Number (list_ascii_of_string "640"));
                ("CreateDate", json.Str "2020:01:01 00:00:00");
                ("CreateDate", json.Str "2021:02:03 04:05:06")]
             = Some (json.Str s).
Proof.
  apply (GetMetadata_string_tags (fun _ => true)
           (processWith
              [quoted "[{'SourceFile': 'a.jpg', 'ImageWidth': 640, 'CreateDate': '2020:01:01 00:00:00', 'CreateDate': '2021:02:03 04:05:06'}]";
               "{ready}"] None) "a.jpg"
           [(quoted "[{'SourceFile': 'a.jpg', 'ImageWidth': 640, 'CreateDate': '2020:01:01 00:00:00', 'CreateDate': '2021:02:03 04:05:06'}]", None)]
           []
           [("SourceFile", json.Str "a.jpg");
            ("ImageWidth", json.Number (list_ascii_of_string "640"));
            ("CreateDate", json.Str "2020:01:01 00:00:00");
            ("CreateDate", json.Str "2021:02:03 04:05:06")]
           []).
  - reflexivity.
  - reflexivity.
  - intros l e' [[= <- <-] | []]. discriminate.
  - vm_compute. reflexivity.
Defined.

(** * Further properties of the worker pool *)

Module lifecycle_facts.

(** The start loop, when every start succeeds. *)
Lemma startLoop_succeeds (h : Host) (procs : list ExifToolProcess) :
  forall (i : Z) (hp0 sp : list ExifToolProcess) (n : nat)
         (lg : list (Z * error)),
    (forall j etp, procs !! j = Some etp ->
                   spawn h (n + j) = Started etp) ->
    startLoop h (length procs) i (seq (length hp0) (length sp))
              (mkWorld (hp0 ++ sp) n lg)
    = (Returned
         (Some (mkManager (seq (length hp0) (length (sp ++ procs)))), None),
       mkWorld (hp0 ++ sp ++ procs) (n + length procs) lg).
Proof.
  induction procs as [|etp procs IH]; intros i hp0 sp n lg Hsp;
    cbn [length startLoop].
  - now rewrite !app_nil_r, Nat.add_0_r.
  - rewrite (start_facts.startExifToolProcess_Started h _ etp).
    2:{ cbn [starts]. rewrite <- (Nat.add_0_r n). now apply Hsp. }
    cbn [heap starts logged].
    replace (seq (length hp0) (length sp) ++ [length (hp0 ++ sp)])
      with (seq (length hp0) (length (sp ++ [etp]))).
    2:{ rewrite !length_app. cbn [length].
        rewrite Nat.add_1_r, seq_S. reflexivity. }
    rewrite <- app_assoc.
    rewrite (IH (i + 1) hp0 (sp ++ [etp]) (S n) lg).
    + rewrite <- !app_assoc. cbn [app].
      now replace (S n + length procs)%nat
        with (n + S (length procs))%nat by lia.
    + intros j etq Hj. replace (S n + j)%nat with (n + S j)%nat by lia.
      now apply Hsp.
Qed.

(** Closing the handles allocated last through the loop of [Close]. *)
Lemma closeLoop_seq (sp : list ExifToolProcess) :
  forall (i : Z) (lastErr : option error) (hp0 : list ExifToolProcess)
         (n : nat) (lg : list (Z * error)),
    exists lg',
      closeLoop (seq (length hp0) (length sp)) i lastErr
                (mkWorld (hp0 ++ sp) n lg)
      = Returned (match lastFailure (map exit sp) with
                  | Some e => Some e
                  | None => lastErr
                  end,
                  mkWorld (hp0 ++ map closed sp) n lg').
Proof.
  induction sp as [|etp sp IH]; intros i lastErr hp0 n lg;
    cbn [length seq closeLoop map lastFailure].
  - exists lg. reflexivity.
  - rewrite (pool_facts.closeAt_valid _ _ etp)
      by (cbn [heap]; now apply list_lookup_middle).
    cbn [heap starts logged].
    assert (Hi : <[length hp0 := closed etp]> (hp0 ++ etp :: sp)
                 = (hp0 ++ [closed etp]) ++ sp).
    { rewrite <- app_assoc. cbn [app].
      pose proof (insert_app_r hp0 (etp :: sp) 0 (closed etp)) as Hi.
      rewrite Nat.add_0_r in Hi. exact Hi. }
    rewrite Hi.
    replace (S (length hp0)) with (length (hp0 ++ [closed etp]))
      by (rewrite length_app; simpl; lia).
    destruct (exit etp) as [e|] eqn:He.
    + destruct (IH (i + 1) (Some e) (hp0 ++ [closed etp]) n
                   (lg ++ [(i, e)])) as [lg' H].
      exists lg'. rewrite H, <- app_assoc. cbn [app].
      now destruct (lastFailure (map exit sp)).
    + destruct (IH (i + 1) lastErr (hp0 ++ [closed etp]) n lg) as [lg' H].
      exists lg'. rewrite H, <- app_assoc. cbn [app].
      now destruct (lastFailure (map exit sp)).
Qed.

(** The start loop never panics, and starts at most [remaining]
    subprocesses. *)
Lemma startLoop_returns (h : Host) :
  forall (remaining : nat) (i : Z) (hp0 sp : list ExifToolProcess)
         (n : nat) (lg : list (Z * error)),
    exists r w',
      startLoop h remaining i (seq (length hp0) (length sp))
                (mkWorld (hp0 ++ sp) n lg)
      = (Returned r, w')
      /\ (n <= starts w' <= n + remaining)%nat
      /\ logged w' = lg.
Proof.
  induction remaining as [|r IH]; intros i hp0 sp n lg; cbn [startLoop].
  - eexists _, _. split; [reflexivity|]. cbn [starts logged].
    split; [lia | reflexivity].
  - unfold startExifToolProcess. cbn [heap starts logged].
    destruct (spawn h n) as [e|e|e|etp];
      try (rewrite start_facts.closeStarted_seq; eexists _, _;
           split; [reflexivity|]; cbn [starts logged];
           split; [lia | reflexivity]).
    replace (seq (length hp0) (length sp) ++ [length (hp0 ++ sp)])
      with (seq (length hp0) (length (sp ++ [etp]))).
    2:{ rewrite !length_app. cbn [length].
        rewrite Nat.add_1_r, seq_S. reflexivity. }
    rewrite <- app_assoc.
    destruct (IH (i + 1) hp0 (sp ++ [etp]) (S n) lg)
      as (res & w' & H & Hb & Hlg).
    exists res, w'. split; [exact H|]. split; [lia | exact Hlg].
Qed.

End lifecycle_facts.

(** X11.  When [exiftool] is found, the slice for [workerCount] handles
    can be allocated and every one of the [workerCount] starts of a
    subprocess succeeds, [NewExifToolManager] returns a pool and no error;
    the pool holds the new handles in the order of the starts, the handles
    that existed before are untouched, and nothing is closed or logged. *)
Theorem NewExifToolManager_all_started (h : Host) (workerCount : Z)
    (w : World) (procs : list ExifToolProcess) :
  lookPath h = None ->
  makeReturns h workerCount = true ->
  workerCount = Z.of_nat (length procs) ->
  (forall j etp, procs !! j = Some etp ->
                 spawn h (starts w + j) = Started etp) ->
  NewExifToolManager h workerCount w
  = (Returned
       (Some (mkManager (seq (length (heap w)) (length procs))), None),
     mkWorld (heap w ++ procs) (starts w + length procs) (logged w)).
Proof.
  intros Hl Hm -> Hsp. unfold NewExifToolManager. rewrite Hl, Hm.
  destruct (Z.ltb_spec (Z.of_nat (length procs)) 0) as [Hneg | _]; [lia|].
  cbn [negb orb].
  rewrite Nat2Z.id. destruct w as [hp n lg]. cbn [heap starts logged] in *.
  pose proof (lifecycle_facts.startLoop_succeeds h procs 0 hp [] n lg Hsp)
    as H.
  cbn [length seq app] in H. rewrite app_nil_r in H. exact H.
Qed.

Lemma NewExifToolManager_all_started_witness :
  NewExifToolManager thirdFails 2 (mkWorld [] 0 [])
  = (Returned (Some (mkManager (seq 0 2)), None),
     mkWorld ([] ++ [processWith [] None; processWith [] None]) (0 + 2) []).
Proof.
  apply (NewExifToolManager_all_started thirdFails 2 (mkWorld [] 0 [])
           [processWith [] None; processWith [] None]).
  - reflexivity.
  - reflexivity.
  - reflexivity.
  - intros [|[|j]] etp Hj; try discriminate Hj;
      injection Hj as <-; reflexivity.
Defined.

(** X12.  Constructing a pool and closing it: when every start succeeds,
    [Close] on the pool [NewExifToolManager] returned closes each of the
    new handles exactly once, leaves the older handles untouched, starts
    no subprocess, and returns the error of the last handle whose
    subprocess did not exit cleanly (nil if all did). *)
Theorem NewExifToolManager_then_Close (h : Host) (workerCount : Z)
    (w w1 : World) (m : ExifToolManager) (er : option error)
    (procs : list ExifToolProcess) :
  lookPath h = None ->
  workerCount = Z.of_nat (length procs) ->
  (forall j etp, procs !! j = Some etp ->
                 spawn h (starts w + j) = Started etp) ->
  NewExifToolManager h workerCount w = (Returned (Some m, er), w1) ->
  exists w2,
    ExifToolManager_Close m w1
    = Returned (lastFailure (map exit procs), w2)
    /\ heap w2 = heap w ++ map closed procs
    /\ starts w2 = (starts w + length procs)%nat.
Proof.
  intros Hl -> Hsp. unfold NewExifToolManager. rewrite Hl.
  destruct (Z.ltb_spec (Z.of_nat (length procs)) 0) as [Hneg | _]; [lia|].
  destruct (makeReturns h (Z.of_nat (length procs))); [|discriminate].
  cbn [negb orb].
  rewrite Nat2Z.id. destruct w as [hp n lg]. cbn [heap starts logged] in *.
  pose proof (lifecycle_facts.startLoop_succeeds h procs 0 hp [] n lg Hsp)
    as H.
  cbn [length seq app] in H. rewrite app_nil_r in H. rewrite H.
  intros Heq. inversion Heq; subst; clear Heq.
  unfold ExifToolManager_Close. cbn [processes].
  destruct (lifecycle_facts.closeLoop_seq procs 0 None hp
              (n + length procs) lg) as [lg' Hc].
  exists (mkWorld (hp ++ map closed procs) (n + length procs) lg').
  rewrite Hc. split; [|split; reflexivity].
  now destruct (lastFailure (map exit procs)).
Qed.

Lemma NewExifToolManager_then_Close_witness :
  exists w2,
    ExifToolManager_Close (mkManager (seq 0 2))
      (mkWorld [processWith [] None; processWith [] None] 2 [])
    = Returned (lastFailure
                  (map exit [processWith [] None; processWith [] None]), w2)
    /\ heap w2
       = [] ++ map closed [processWith [] None; processWith [] None]
    /\ starts w2 = (0 + 2)%nat.
Proof.
  apply (NewExifToolManager_then_Close thirdFails 2 (mkWorld [] 0 [])
           (mkWorld [processWith [] None; processWith [] None] 2 [])
           (mkManager (seq 0 2)) None
           [processWith [] None; processWith [] None]).
  - reflexivity.
  - reflexivity.
  - intros [|[|j]] etp Hj; try discriminate Hj;
      injection Hj as <-; reflexivity.
  - reflexivity.
Defined.

(** X13.  [NewExifToolManager] fails to return exactly when [exiftool] is
    found and the slice of handles cannot be made: the worker count is
    negative, or too large for [make] on the host.  When [exiftool] is not
    found it returns the error without starting a subprocess or touching a
    handle.  In every other case it returns, having started at most
    [workerCount] subprocesses and logged nothing. *)
Theorem NewExifToolManager_returns (h : Host) (workerCount : Z) (w : World) :
  (fst (NewExifToolManager h workerCount w) = Panic
   <-> lookPath h = None
       /\ (workerCount < 0 \/ makeReturns h workerCount = false))
  /\ (forall e, lookPath h = Some e ->
        NewExifToolManager h workerCount w
        = (Returned (None, Some (ErrorfV "exiftool not found in PATH: " e)),
           w))
  /\ (starts w <= starts (snd (NewExifToolManager h workerCount w))
      <= starts w + Z.to_nat workerCount)%nat
  /\ logged (snd (NewExifToolManager h workerCount w)) = logged w.
Proof.
  unfold NewExifToolManager.
  destruct (lookPath h) as [e|] eqn:Hl.
  - cbn [fst snd]. split; [split; [discriminate | intros [H _]; discriminate H]|].
    split; [now intros e' [= <-]|]. split; [lia | reflexivity].
  - destruct (Z.ltb_spec workerCount 0) as [Hneg | Hpos]; cbn [orb].
    + cbn [fst snd]. split; [split; auto|]. split; [discriminate|].
      split; [lia | reflexivity].
    + destruct (makeReturns h workerCount) eqn:Hm; cbn [negb].
      * destruct w as [hp n lg].
        destruct (lifecycle_facts.startLoop_returns h (Z.to_nat workerCount)
                    0 hp [] n lg) as (r & w' & H & Hb & Hlg).
        cbn [length seq] in H. rewrite app_nil_r in H. rewrite H.
        cbn [fst snd starts logged].
        split; [split; [discriminate | intros [_ [Hc | Hc]]; [lia|]]|].
        { discriminate Hc. }
        split; [discriminate|]. split; [exact Hb | exact Hlg].
      * cbn [fst snd]. split; [split; auto|]. split; [discriminate|].
        split; [lia | reflexivity].
Qed.

(** X14.  The handles of a pool.  When [NewExifToolManager] returns a pool
    for [workerCount] workers, [GetProcessForWorker] returns for each
    worker index from 0 to [workerCount - 1] a handle of its own: the
    subprocess started for that index, and different indices get
    different handles.  For any other index it panics. *)
Theorem GetProcessForWorker_own_handle (h : Host) (workerCount : Z)
    (w w' : World) (m : ExifToolManager) (er : option error) :
  NewExifToolManager h workerCount w = (Returned (Some m, er), w') ->
  (forall i, 0 <= i < workerCount ->
     exists etp,
       GetProcessForWorker m i
       = Returned (length (heap w) + Z.to_nat i)%nat
       /\ heap w' !! (length (heap w) + Z.to_nat i)%nat = Some etp
       /\ spawn h (starts w + Z.to_nat i) = Started etp)
  /\ (forall i j p q, GetProcessForWorker m i = Returned p ->
        GetProcessForWorker m j = Returned q -> i <> j -> p <> q)
  /\ (forall i, i < 0 \/ workerCount <= i ->
        GetProcessForWorker m i = Panic).
Proof.
  unfold NewExifToolManager.
  destruct (lookPath h); [discriminate|].
  destruct (Z.ltb_spec workerCount 0) as [Hneg | Hpos]; [discriminate|].
  destruct (makeReturns h workerCount); [|discriminate].
  cbn [negb orb].
  intros H.
  apply start_facts.startLoop_Some in H
    as (_ & procs & Hlen & Hsp & Hh & Hp).
  cbn [app] in Hp.
  assert (Hget : forall i, 0 <= i -> (Z.to_nat i < Z.to_nat workerCount)%nat ->
            GetProcessForWorker m i
            = Returned (length (heap w) + Z.to_nat i)%nat).
  { intros i Hi Hlt. unfold GetProcessForWorker.
    destruct (Z.ltb_spec i 0); [lia|].
    now rewrite Hp, lookup_seq_lt. }
  assert (Hout : forall i, i < 0 \/ workerCount <= i ->
            GetProcessForWorker m i = Panic).
  { intros i Hi. unfold GetProcessForWorker.
    destruct (Z.ltb_spec i 0); [reflexivity|].
    rewrite Hp, lookup_seq_ge; [reflexivity | lia]. }
  split; [|split; [|exact Hout]].
  - intros i [Hi Hlt].
    destruct (lookup_lt_is_Some_2 procs (Z.to_nat i)) as [etp He]; [lia|].
    exists etp. split; [apply Hget; lia|]. split.
    + rewrite Hh, lookup_app_r by lia.
      now replace (length (heap w) + Z.to_nat i - length (heap w))%nat
        with (Z.to_nat i) by lia.
    + now apply Hsp.
  - intros i j p q Hi Hj Hne.
    destruct (Z_lt_le_dec i 0) as [Hi0 | Hi0];
      [rewrite Hout in Hi by lia; discriminate|].
    destruct (Z_le_gt_dec workerCount i) as [Hi1 | Hi1];
      [rewrite Hout in Hi by lia; discriminate|].
    destruct (Z_lt_le_dec j 0) as [Hj0 | Hj0];
      [rewrite Hout in Hj by lia; discriminate|].
    destruct (Z_le_gt_dec workerCount j) as [Hj1 | Hj1];
      [rewrite Hout in Hj by lia; discriminate|].
    rewrite Hget in Hi by lia. rewrite Hget in Hj by lia.
    injection Hi as <-. injection Hj as <-. lia.
Qed.

Lemma GetProcessForWorker_own_handle_witness :
  GetProcessForWorker (mkManager (seq 0 2)) 1 = Returned 1%nat
  /\ GetProcessForWorker (mkManager (seq 0 2)) 2 = Panic.
Proof.
  pose proof (GetProcessForWorker_own_handle thirdFails 2 (mkWorld [] 0 [])
                (mkWorld [processWith [] None; processWith [] None] 2 [])
                (mkManager (seq 0 2)) None eq_refl) as (Hin & _ & Hout).
  split.
  - destruct (Hin 1) as (etp & H & _); [lia | exact H].
  - apply Hout. right. lia.
Defined.

(** * Further properties of the per-file pipeline *)

Module pipeline_facts.

#[local] Arguments String.append : simpl nomatch.

(** What [GetMetadata] has sent, whatever it returns. *)
Lemma GetMetadata_sent (float64_ok : list ascii -> bool)
    (etp : ExifToolProcess) (filePath : string) :
  sent (snd (GetMetadata float64_ok etp filePath))
  = sent etp ++ [readCommand filePath].
Proof.
  unfold GetMetadata, Write.
  destruct (stdinWrite etp (length (sent etp))); [reflexivity|].
  cbn [scanner lines final].
  destruct (readOutput _ _ _) as [output sc].
  destruct (err sc); [reflexivity|].
  destruct (String.eqb _ _); [reflexivity|].
  destruct (exifjson.Unmarshal _ _) as [e|[|first rest]]; reflexivity.
Qed.

(** What [UpdateAllDates] has sent, whatever it returns. *)
Lemma UpdateAllDates_sent (etp : ExifToolProcess)
    (filePath dateStr : string) :
  sent (snd (UpdateAllDates etp filePath dateStr))
  = sent etp ++ [writeCommand filePath dateStr].
Proof.
  unfold UpdateAllDates, Write.
  destruct (stdinWrite etp (length (sent etp))); [reflexivity|].
  cbn [scanner lines final].
  destruct (drainOutput _ _) as [[line|] sc]; [reflexivity|].
  destruct (err sc); reflexivity.
Qed.

Section Finish.

Context {W : Type} (env : Env W).

(** The end of [processMediaFile] leaves the world as it is in a dry run
    and when files are not moved. *)
Lemma finishMediaFile_world (config : Config) (file : MediaFile)
    (result : Result) (creationDate : time.Time) (w : W) :
  DryRun config = true \/ Move config = false ->
  snd (finishMediaFile env config file result creationDate w) = w.
Proof.
  intros H. unfold finishMediaFile.
  destruct (Move config) eqn:Hm; cbn [andb].
  - destruct H as [H | H]; [|discriminate]. rewrite H.
    destruct (negb (time.IsZero creationDate)); [|reflexivity].
    destruct (negb (String.eqb (getAlbumName env w (Dir file)) EmptyString));
      reflexivity.
  - reflexivity.
Qed.

End Finish.

End pipeline_facts.

(** X15.  In a dry run, and when files are not to be moved,
    [processMediaFile] makes none of its own changes to the file system:
    whatever [os.MkdirAll], [os.Rename], [os.Remove] and [os.Symlink]
    would do, the state they act on is returned as it was, so no
    directory is made, no file renamed, no link removed or created by the
    program.  What can still change a file is the subprocess alone: the
    commands sent to it are the read command for the file and after it at
    most one write command, which rewrites the media file, and none in a
    dry run. *)
Theorem processMediaFile_no_os_change {W : Type} (env : Env W)
    (config : Config) (exifTool : ExifToolProcess) (file : MediaFile)
    (w : W) :
  DryRun config = true \/ Move config = false ->
  snd (processMediaFile env config exifTool file w) = w
  /\ (sent (snd (fst (processMediaFile env config exifTool file w)))
      = sent exifTool ++ [readCommand (Path file)]
      \/ exists dateStr,
           DryRun config = false
           /\ sent (snd (fst (processMediaFile env config exifTool file w)))
              = sent exifTool ++ [readCommand (Path file);
                                  writeCommand (Path file) dateStr]).
Proof.
  intros H.
  pose proof (pipeline_facts.GetMetadata_sent (float64_ok env) exifTool
                (Path file)) as Hs.
  unfold processMediaFile.
  destruct (GetMetadata _ exifTool (Path file)) as [[e|exifData] etp1];
    cbn [snd] in Hs; [split; [reflexivity | now left]|].
  destruct (findExifDate env exifData exifDateTags) as [date|].
  - pose proof (pipeline_facts.finishMediaFile_world env config file
                  (mkResult file false EmptyString None) date w H) as Hf.
    destruct (finishMediaFile env config file _ date w) as [r w'].
    split; [exact Hf | now left].
  - destruct (negb (String.eqb (findSidecarFile (fsOf env w) file)
                               EmptyString));
      [|split; [reflexivity | now left]].
    destruct (parseSidecarDate (fsOf env w) _) as [e|date];
      [split; [reflexivity | now left]|].
    assert (Hu : sent (snd (updateExifDate env config etp1 (Path file) date))
                 = sent exifTool ++ [readCommand (Path file)]
                 \/ exists dateStr,
                      DryRun config = false
                      /\ sent (snd (updateExifDate env config etp1
                                      (Path file) date))
                         = sent exifTool
                           ++ [readCommand (Path file);
                               writeCommand (Path file) dateStr]).
    { unfold updateExifDate. destruct (DryRun config); [now left|].
      right. eexists. split; [reflexivity|].
      rewrite pipeline_facts.UpdateAllDates_sent, Hs, <- app_assoc.
      reflexivity. }
    destruct (updateExifDate env config etp1 (Path file) date)
      as [[e|] etp2]; cbn [snd] in Hu; [split; [reflexivity | exact Hu]|].
    pose proof (pipeline_facts.finishMediaFile_world env config file
                  (withAction (mkResult file false EmptyString None)
                              "Updated EXIF from sidecar") date w H) as Hf.
    destruct (finishMediaFile env config file _ date w) as [r w'].
    split; [exact Hf | exact Hu].
Qed.

(** With recorded calls: nothing is recorded in a dry run that moves
    files, nor in a run that does not move them; a run that moves the
    file records its calls. *)
Lemma processMediaFile_no_os_change_witness :
  snd (processMediaFile logEnv (mkConfig "/src" "/out" true true 4)
         (processWith exifAnswer None)
         (mkMediaFile "/src/a.jpg" "a.jpg" "/src") []) = []
  /\ snd (processMediaFile logEnv (mkConfig "/src" "/out" false false 4)
            (processWith exifAnswer None)
            (mkMediaFile "/src/a.jpg" "a.jpg" "/src") []) = []
  /\ snd (processMediaFile logEnv (mkConfig "/src" "/out" true false 4)
            (processWith exifAnswer None)
            (mkMediaFile "/src/a.jpg" "a.jpg" "/src") [])
     = ["MkdirAll /out/ALL_PHOTOS/2023/01/01";
        "Rename /src/a.jpg /out/ALL_PHOTOS/2023/01/01/a.jpg"].
Proof.
  split; [|split].
  - apply (processMediaFile_no_os_change logEnv
             (mkConfig "/src" "/out" true true 4)
             (processWith exifAnswer None)
             (mkMediaFile "/src/a.jpg" "a.jpg" "/src") []).
    left. reflexivity.
  - apply (processMediaFile_no_os_change logEnv
             (mkConfig "/src" "/out" false false 4)
             (processWith exifAnswer None)
             (mkMediaFile "/src/a.jpg" "a.jpg" "/src") []).
    right. reflexivity.
  - vm_compute. reflexivity.
Defined.

(** X16.  In a dry run [processMediaFile] only reads from the subprocess:
    the handle it leaves is the one [GetMetadata] left, so the one command
    sent is the read command for the file and no write command. *)
Theorem processMediaFile_dry_run_reads_only {W : Type} (env : Env W)
    (config : Config) (exifTool : ExifToolProcess) (file : MediaFile)
    (w : W) :
  DryRun config = true ->
  snd (fst (processMediaFile env config exifTool file w))
  = snd (GetMetadata (float64_ok env) exifTool (Path file))
  /\ sent (snd (fst (processMediaFile env config exifTool file w)))
     = sent exifTool ++ [readCommand (Path file)].
Proof.
  intros Hd.
  assert (H : snd (fst (processMediaFile env config exifTool file w))
              = snd (GetMetadata (float64_ok env) exifTool (Path file))).
  { unfold processMediaFile.
    destruct (GetMetadata _ exifTool (Path file)) as [[e|exifData] etp1];
      [reflexivity|].
    destruct (findExifDate env exifData exifDateTags) as [date|].
    - destruct (finishMediaFile env config file _ date w) as [r w'].
      reflexivity.
    - destruct (negb (String.eqb (findSidecarFile (fsOf env w) file)
                                 EmptyString)); [|reflexivity].
      destruct (parseSidecarDate (fsOf env w) _) as [e|date]; [reflexivity|].
      unfold updateExifDate. rewrite Hd.
      destruct (finishMediaFile env config file _ date w) as [r w'].
      reflexivity. }
  split; [exact H|]. rewrite H. apply pipeline_facts.GetMetadata_sent.
Qed.

Lemma processMediaFile_dry_run_reads_only_witness :
  snd (fst (processMediaFile exampleEnv (mkConfig "/src" "/out" true true 4)
              (processWith ["{ready}"] None)
              (mkMediaFile "/src/a.jpg" "a.jpg" "/src") tt))
  = snd (GetMetadata (float64_ok exampleEnv) (processWith ["{ready}"] None)
           "/src/a.jpg")
  /\ sent (snd (fst (processMediaFile exampleEnv
                       (mkConfig "/src" "/out" true true 4)
                       (processWith ["{ready}"] None)
                       (mkMediaFile "/src/a.jpg" "a.jpg" "/src") tt)))
     = [] ++ [readCommand "/src/a.jpg"].
Proof.
  apply (processMediaFile_dry_run_reads_only exampleEnv
           (mkConfig "/src" "/out" true true 4)
           (processWith ["{ready}"] None)
           (mkMediaFile "/src/a.jpg" "a.jpg" "/src") tt).
  reflexivity.
Defined.

(** X17.  A file with an embedded capture date is never rewritten: when
    [GetMetadata] returns tags among which [findExifDate] finds a date,
    [processMediaFile] sends no further command to the subprocess, and
    when files are not to be moved it succeeds with the action
    [No action needed]. *)
Theorem processMediaFile_embedded_date {W : Type} (env : Env W)
    (config : Config) (exifTool etp1 : ExifToolProcess) (file : MediaFile)
    (w : W) (exifData : gmap string string) (date : time.Time) :
  GetMetadata (float64_ok env) exifTool (Path file) = (inr exifData, etp1) ->
  findExifDate env exifData exifDateTags = Some date ->
  snd (fst (processMediaFile env config exifTool file w)) = etp1
  /\ (Move config = false ->
      fst (fst (processMediaFile env config exifTool file w))
      = mkResult file true "No action needed" None).
Proof.
  intros Hg Hf. unfold processMediaFile. rewrite Hg, Hf.
  split.
  - destruct (finishMediaFile env config file _ date w) as [r w'].
    reflexivity.
  - intros Hm. unfold finishMediaFile. rewrite Hm. reflexivity.
Qed.

Lemma processMediaFile_embedded_date_witness :
  snd (fst (processMediaFile exampleEnv
              (mkConfig "/src" "/out" false false 4)
              (processWith exifAnswer None)
              (mkMediaFile "a.jpg" "a.jpg" ".") tt))
  = snd (GetMetadata (float64_ok exampleEnv) (processWith exifAnswer None)
           "a.jpg")
  /\ (Move (mkConfig "/src" "/out" false false 4) = false ->
      fst (fst (processMediaFile exampleEnv
                  (mkConfig "/src" "/out" false false 4)
                  (processWith exifAnswer None)
                  (mkMediaFile "a.jpg" "a.jpg" ".") tt))
      = mkResult (mkMediaFile "a.jpg" "a.jpg" ".") true "No action needed"
                 None).
Proof.
  apply (processMediaFile_embedded_date exampleEnv
           (mkConfig "/src" "/out" false false 4)
           (processWith exifAnswer None) _
           (mkMediaFile "a.jpg" "a.jpg" ".") tt
           (stringTags (exifjson.mapOfMembers
              [("SourceFile", json.Str "a.jpg");
               ("DateTimeOriginal", json.Str "2023:01:01 00:00:00")]))
           (time.DateUTC 2023 1 1 0 0 0)).
  - vm_compute. reflexivity.
  - vm_compute. reflexivity.
Defined.

(** X18.  The write from a companion file.  When the tags hold no usable
    date, a companion file is found and its date parses, and the run is
    not a dry run, [processMediaFile] sends exactly two commands: the read
    command for the file and then the write command for the file with the
    companion's date formatted as year:month:day hour:minute:second.  It
    fails with the error of the write if the write fails, and the file is
    not moved then. *)
Theorem processMediaFile_writes_sidecar_date {W : Type} (env : Env W)
    (config : Config) (exifTool etp1 : ExifToolProcess) (file : MediaFile)
    (w : W) (exifData : gmap string string) (date : time.Time) :
  DryRun config = false ->
  GetMetadata (float64_ok env) exifTool (Path file) = (inr exifData, etp1) ->
  findExifDate env exifData exifDateTags = None ->
  findSidecarFile (fsOf env w) file <> EmptyString ->
  parseSidecarDate (fsOf env w) (findSidecarFile (fsOf env w) file)
  = inr date ->
  let dateStr := time_Format env date "2006:01:02 15:04:05" in
  let out := processMediaFile env config exifTool file w in
  sent (snd (fst out))
  = sent exifTool ++ [readCommand (Path file);
                      writeCommand (Path file) dateStr]
  /\ (forall e, fst (UpdateAllDates etp1 (Path file) dateStr) = Some e ->
        fst (fst out)
        = mkResult file false EmptyString
            (Some (ErrorfV "failed to update EXIF date: " e))
        /\ snd out = w).
Proof.
  intros Hd Hg Hf Hs Hp. cbv zeta.
  pose proof (pipeline_facts.GetMetadata_sent (float64_ok env) exifTool
                (Path file)) as Hsent1.
  rewrite Hg in Hsent1. cbn [snd] in Hsent1.
  pose proof (pipeline_facts.UpdateAllDates_sent etp1 (Path file)
                (time_Format env date "2006:01:02 15:04:05")) as Hsent2.
  unfold processMediaFile. rewrite Hg, Hf.
  destruct (String.eqb_spec (findSidecarFile (fsOf env w) file) EmptyString)
    as [He | _]; [contradiction|].
  cbn [negb]. rewrite Hp. unfold updateExifDate. rewrite Hd.
  destruct (UpdateAllDates etp1 (Path file) _) as [[e|] etp2];
    cbn [fst snd] in *.
  - split.
    + now rewrite Hsent2, Hsent1, <- app_assoc.
    + intros e' [= <-]. split; reflexivity.
  - destruct (finishMediaFile env config file _ date w) as [r w'].
    cbn [fst snd]. split; [|discriminate].
    now rewrite Hsent2, Hsent1, <- app_assoc.
Qed.

Lemma processMediaFile_writes_sidecar_date_witness :
  let out :=
    processMediaFile sidecarEnv (mkConfig "/t" "/out" false false 4)
      (processWith ["{ready}"; "{ready}"] None) (testFile "IMG_123.jpg") tt in
  sent (snd (fst out))
  = [] ++ [readCommand "/t/IMG_123.jpg";
           writeCommand "/t/IMG_123.jpg" "2023:01:01 00:00:00"]
  /\ (forall e,
        fst (UpdateAllDates
               (snd (GetMetadata (fun _ => true)
                       (processWith ["{ready}"; "{ready}"] None)
                       "/t/IMG_123.jpg"))
               "/t/IMG_123.jpg" "2023:01:01 00:00:00") = Some e ->
        fst (fst out)
        = mkResult (testFile "IMG_123.jpg") false EmptyString
            (Some (ErrorfV "failed to update EXIF date: " e))
        /\ snd out = tt).
Proof.
  apply (processMediaFile_writes_sidecar_date sidecarEnv
           (mkConfig "/t" "/out" false false 4)
           (processWith ["{ready}"; "{ready}"] None) _
           (testFile "IMG_123.jpg") tt ∅ (time.Unix 1672531200)).
  - reflexivity.
  - vm_compute. reflexivity.
  - reflexivity.
  - vm_compute. discriminate.
  - vm_compute. reflexivity.
Defined.

(** X19.  The priority of the date tags.  [findExifDate] returns a date
    exactly when some tag of the list has a value that is not empty and
    parses while every tag before it is absent, empty or does not parse;
    the date is that of this first usable tag.  In particular a tag whose
    value does not parse does not stop the search. *)
Theorem findExifDate_priority {W : Type} (env : Env W)
    (exifData : gmap string string) (tags : list string)
    (date : time.Time) :
  findExifDate env exifData tags = Some date
  <-> exists before tag after dateStr,
        tags = before ++ tag :: after
        /\ (forall t, In t before -> unusable env exifData t)
        /\ exifData !! tag = Some dateStr
        /\ dateStr <> EmptyString
        /\ parseExifDate env dateStr = inr date.
Proof.
  induction tags as [|tag tags IH]; cbn [findExifDate].
  - split; [discriminate|]. intros (before & t & after & s & H & _).
    destruct before; discriminate H.
  - assert (Hskip : unusable env exifData tag ->
              (findExifDate env exifData tags = Some date
               <-> exists before tag0 after dateStr,
                     tag :: tags = before ++ tag0 :: after
                     /\ (forall t, In t before -> unusable env exifData t)
                     /\ exifData !! tag0 = Some dateStr
                     /\ dateStr <> EmptyString
                     /\ parseExifDate env dateStr = inr date)).
    { intros Hu. rewrite IH. split.
      - intros (before & t & after & s & -> & Hb & Hrest).
        exists (tag :: before), t, after, s. split; [reflexivity|].
        split; [|exact Hrest]. intros t' [<- | Ht]; auto.
      - intros (before & t & after & s & Heq & Hb & Hl & Hne & Hp).
        destruct before as [|b before]; cbn [app] in Heq.
        + injection Heq as <- _. unfold unusable in Hu. rewrite Hl in Hu.
          destruct Hu as [-> | [e He]]; [contradiction | congruence].
        + injection Heq as <- ->.
          exists before, t, after, s. split; [reflexivity|].
          split; [|now repeat split]. intros t' Ht. apply Hb. now right. }
    destruct (exifData !! tag) as [dateStr|] eqn:Hl.
    + destruct (String.eqb_spec dateStr EmptyString) as [-> | Hne];
        cbn [negb].
      * apply Hskip. unfold unusable. rewrite Hl. now left.
      * destruct (parseExifDate env dateStr) as [e|d] eqn:Hp.
        -- apply Hskip. unfold unusable. rewrite Hl. right. now exists e.
        -- split.
           ++ intros [= <-]. exists [], tag, tags, dateStr.
              repeat split; auto. intros t [].
           ++ intros (before & t & after & s & Heq & Hb & Hl' & Hne' & Hp').
              destruct before as [|b before]; cbn [app] in Heq.
              ** injection Heq as <- _. congruence.
              ** injection Heq as <- _.
                 assert (Hu : unusable env exifData tag)
                   by (apply Hb; now left).
                 unfold unusable in Hu. rewrite Hl in Hu.
                 destruct Hu as [-> | [e He]]; [contradiction | congruence].
    + apply Hskip. unfold unusable. now rewrite Hl.
Qed.

(** X20.  Once the file is moved the file is a success.  When files are
    moved, the date is not the zero time and the run is not a dry run,
    the end of [processMediaFile] fails exactly when [moveFile] fails,
    with the error of the move and without touching the album links; when
    the move succeeds the result is a success whose action starts with
    the note of the move, whatever becomes of the album link. *)
Theorem finishMediaFile_after_move {W : Type} (env : Env W)
    (config : Config) (file : MediaFile) (result : Result)
    (creationDate : time.Time) (w : W) :
  Move config = true ->
  DryRun config = false ->
  time.IsZero creationDate = false ->
  let destPath :=
    generateDestinationPath env (OutputDir config) (BaseName file)
                            creationDate in
  let out := finishMediaFile env config file result creationDate w in
  match moveFile env w (Path file) destPath with
  | (Some e, w1) =>
      out = (failWith result (ErrorfV "failed to move file: " e), w1)
  | (None, w1) =>
      Success (fst out) = true
      /\ Error (fst out) = Error result
      /\ strings.HasPrefix (Action (fst out))
           (Action result +:+ " | Moved to: " +:+ destPath) = true
  end.
Proof.
  intros Hm Hd Hz. cbv zeta. unfold finishMediaFile.
  rewrite Hm, Hd, Hz. cbn [andb negb].
  destruct (moveFile env w (Path file) _) as [[e|] w1]; [reflexivity|].
  assert (Hend : forall (r : Result) (w' : W) (tail : string),
            Error r = Error result ->
            Action r = (Action result +:+ " | Moved to: "
                        +:+ generateDestinationPath env (OutputDir config)
                              (BaseName file) creationDate) +:+ tail ->
            let out :=
              (let result'' :=
                 if String.eqb (Action r) EmptyString
                 then withAction r "No action needed" else r in
               (mkResult (File result'') true (Action result'')
                         (Error result''), w')) in
            Success (fst out) = true
            /\ Error (fst out) = Error result
            /\ strings.HasPrefix (Action (fst out))
                 (Action result +:+ " | Moved to: "
                  +:+ generateDestinationPath env (OutputDir config)
                        (BaseName file) creationDate) = true).
  { intros r w' tail He Ha. cbv zeta.
    destruct (String.eqb_spec (Action r) EmptyString) as [Hx | _].
    - exfalso. rewrite Ha in Hx.
      destruct (Action result); discriminate Hx.
    - cbn [fst Success Error Action]. split; [reflexivity|].
      split; [exact He|]. rewrite Ha.
      unfold strings.HasPrefix. apply string_facts.prefix_spec.
      now exists tail. }
  destruct (negb (String.eqb (getAlbumName env w1 (Dir file)) EmptyString)).
  - destruct (createAlbumSymlink env w1 _ _) as [[e|] w2].
    + apply (Hend _ _ (" | Symlink error: " +:+ errorString e));
        [reflexivity|].
      cbn [withAction Action]. now rewrite !string_facts.append_assoc.
    + apply (Hend _ _ (" | Album symlink created: "
                       +:+ generateAlbumSymlinkPath (OutputDir config)
                             (getAlbumName env w1 (Dir file))
                             (BaseName file))); [reflexivity|].
      cbn [withAction Action]. now rewrite !string_facts.append_assoc.
  - apply (Hend _ _ EmptyString); [reflexivity|].
    cbn [withAction Action]. now rewrite string_facts.append_nil_r.
Qed.

Lemma finishMediaFile_after_move_witness :
  let out :=
    finishMediaFile exampleEnv (mkConfig "/src" "/out" true false 4)
      (mkMediaFile "/src/a.jpg" "a.jpg" "/src")
      (mkResult (mkMediaFile "/src/a.jpg" "a.jpg" "/src") false
                EmptyString None)
      (time.DateUTC 2023 1 1 0 0 0) tt in
  Success (fst out) = true
  /\ Error (fst out) = None
  /\ strings.HasPrefix (Action (fst out))
       (EmptyString +:+ " | Moved to: "
        +:+ generateDestinationPath exampleEnv "/out" "a.jpg"
              (time.DateUTC 2023 1 1 0 0 0)) = true.
Proof.
  apply (finishMediaFile_after_move exampleEnv
           (mkConfig "/src" "/out" true false 4)
           (mkMediaFile "/src/a.jpg" "a.jpg" "/src")
           (mkResult (mkMediaFile "/src/a.jpg" "a.jpg" "/src") false
                     EmptyString None)
           (time.DateUTC 2023 1 1 0 0 0) tt); reflexivity.
Defined.

(** * The configuration check *)

(** X21.  What [validateConfig] accepts.  It returns nil exactly when the
    source and the output directory are given, the check of the source
    directory does not say that it does not exist, and, unless the run is
    a dry run, the output directory can be made.  A source directory that
    cannot be examined for another reason is accepted. *)
Theorem validateConfig_accepts_iff {W : Type} (env : Env W)
    (os_Stat : W -> string -> option error)
    (os_IsNotExist : option error -> bool) (config : Config) (w : W) :
  fst (fst (validateConfig env os_Stat os_IsNotExist config w)) = None
  <-> SourceDir config <> EmptyString
      /\ OutputDir config <> EmptyString
      /\ os_IsNotExist (os_Stat w (SourceDir config)) = false
      /\ (DryRun config = false ->
          fst (os_MkdirAll env w (OutputDir config)) = None).
Proof.
  unfold validateConfig.
  destruct (String.eqb_spec (SourceDir config) EmptyString) as [Hs | Hs].
  { cbn [fst]. split; [discriminate | intros (H & _); contradiction]. }
  destruct (String.eqb_spec (OutputDir config) EmptyString) as [Ho | Ho].
  { cbn [fst]. split; [discriminate | intros (_ & H & _); contradiction]. }
  assert (Hc : forall c : Config,
            c = (if Workers config <=? 0
                 then mkConfig (SourceDir config) (OutputDir config)
                               (Move config) (DryRun config) 4
                 else config) ->
            SourceDir c = SourceDir config /\ OutputDir c = OutputDir config
            /\ DryRun c = DryRun config).
  { intros c ->. destruct (Workers config <=? 0); repeat split. }
  destruct (Hc _ eq_refl) as (-> & -> & ->).
  destruct (os_IsNotExist (os_Stat w (SourceDir config))).
  { cbn [fst]. split; [discriminate | intros (_ & _ & H & _); discriminate]. }
  destruct (DryRun config); cbn [negb].
  - cbn [fst]. split; [|reflexivity]. intros _. repeat split; auto.
    discriminate.
  - destruct (os_MkdirAll env w (OutputDir config)) as [[e|] w1]; cbn [fst].
    + split; [discriminate|]. intros (_ & _ & _ & H).
      discriminate (H eq_refl).
    + split; [|reflexivity]. intros _. repeat split; auto.
Qed.

(** X22.  After the check the only way not to get a pool or an error is
    a worker count too large to allocate.  When [validateConfig] returns
    nil, the configuration it leaves has a positive worker count, the one
    given if that was positive and 4 otherwise, and is unchanged in every
    other field; a dry run has left the state of the [os] calls as it
    was; and [NewExifToolManager] on that worker count fails to return
    exactly when [exiftool] is found and [make] cannot allocate that many
    handles.  The check puts no upper limit on the worker count. *)
Theorem validateConfig_then_NewExifToolManager {W : Type} (env : Env W)
    (os_Stat : W -> string -> option error)
    (os_IsNotExist : option error -> bool) (config : Config) (w : W)
    (h : Host) (pool : World) :
  fst (fst (validateConfig env os_Stat os_IsNotExist config w)) = None ->
  let config' := snd (fst (validateConfig env os_Stat os_IsNotExist config w)) in
  config' = mkConfig (SourceDir config) (OutputDir config) (Move config)
                     (DryRun config)
                     (if Workers config <=? 0 then 4 else Workers config)
  /\ 0 < Workers config'
  /\ (DryRun config = true ->
      snd (validateConfig env os_Stat os_IsNotExist config w) = w)
  /\ (fst (NewExifToolManager h (Workers config') pool) = Panic
      <-> lookPath h = None /\ makeReturns h (Workers config') = false).
Proof.
  intros Hnil. cbv zeta.
  assert (Hcfg : snd (fst (validateConfig env os_Stat os_IsNotExist config w))
                 = mkConfig (SourceDir config) (OutputDir config)
                     (Move config) (DryRun config)
                     (if Workers config <=? 0 then 4 else Workers config)
                 /\ (DryRun config = true ->
                     snd (validateConfig env os_Stat os_IsNotExist config w)
                     = w)).
  { revert Hnil. unfold validateConfig.
    destruct (String.eqb (SourceDir config) EmptyString); [discriminate|].
    destruct (String.eqb (OutputDir config) EmptyString); [discriminate|].
    assert (Hc : (if Workers config <=? 0
                  then mkConfig (SourceDir config) (OutputDir config)
                                (Move config) (DryRun config) 4
                  else config)
                 = mkConfig (SourceDir config) (OutputDir config)
                     (Move config) (DryRun config)
                     (if Workers config <=? 0 then 4 else Workers config)).
    { destruct (Workers config <=? 0); [reflexivity|]. now destruct config. }
    rewrite Hc. cbn [SourceDir OutputDir DryRun].
    destruct (os_IsNotExist _); [discriminate|].
    destruct (DryRun config); cbn [negb].
    - intros _. split; reflexivity.
    - destruct (os_MkdirAll env w (OutputDir config)) as [[e|] w1];
        [discriminate|].
      intros _. split; [reflexivity | discriminate]. }
  destruct Hcfg as [Hcfg Hdry]. rewrite Hcfg. cbn [Workers].
  assert (Hpos : 0 < (if Workers config <=? 0 then 4 else Workers config)).
  { destruct (Z.leb_spec (Workers config) 0); lia. }
  split; [reflexivity|]. split; [exact Hpos|]. split; [exact Hdry|].
  unfold NewExifToolManager.
  destruct (lookPath h).
  { cbn [fst]. split; [discriminate | intros [H _]; discriminate H]. }
  destruct (Z.ltb_spec (if Workers config <=? 0 then 4 else Workers config) 0)
    as [Hneg | _]; [lia|].
  cbn [orb].
  destruct (makeReturns h _); cbn [negb].
  - destruct pool as [hp n lg].
    destruct (lifecycle_facts.startLoop_returns h
                (Z.to_nat (if Workers config <=? 0 then 4
                           else Workers config))
                0 hp [] n lg) as (r & w' & H & _).
    cbn [length seq] in H. rewrite app_nil_r in H. rewrite H. cbn [fst].
    split; [discriminate | intros [_ Hc]; discriminate Hc].
  - cbn [fst]. split; auto.
Qed.

(** A worker count of 2^60 passes the check and the constructor then
    fails in [make]. *)
Lemma validateConfig_then_NewExifToolManager_witness :
  let config' :=
    snd (fst (validateConfig exampleEnv (fun _ _ => None) (fun _ => false)
                (mkConfig "/src" "/out" false true (2 ^ 60)) tt)) in
  config' = mkConfig "/src" "/out" false true (2 ^ 60)
  /\ fst (NewExifToolManager thirdFails (Workers config') (mkWorld [] 0 []))
     = Panic.
Proof.
  pose proof (validateConfig_then_NewExifToolManager exampleEnv
                (fun _ _ => None) (fun _ => false)
                (mkConfig "/src" "/out" false true (2 ^ 60)) tt thirdFails
                (mkWorld [] 0 []) eq_refl) as (Hc & _ & _ & Hp).
  split; [exact Hc|]. apply Hp. split; reflexivity.
Defined.

(** * The scan for media files *)

Module scan_facts.

#[local] Arguments String.append : simpl nomatch.

Lemma walkLoop_acc (visits : list Visit) (acc : list MediaFile) :
  walkLoop visits acc
  = (acc ++ fst (walkLoop visits []), snd (walkLoop visits [])).
Proof.
  revert acc. induction visits as [|v visits IH]; intros acc;
    cbn [walkLoop].
  - now rewrite app_nil_r.
  - destruct (visitErr v); [now rewrite app_nil_r|].
    destruct (visitIsDir v); [apply IH|].
    destruct (supported _); [|apply IH].
    rewrite (IH (acc ++ [mediaOf (visitPath v)])).
    rewrite (IH ([] ++ [mediaOf (visitPath v)])).
    cbn [fst snd app]. now rewrite <- app_assoc.
Qed.

Lemma walkLoop_split (before after : list Visit) :
  (forall v, In v before -> visitErr v = None) ->
  match after with
  | [] => True
  | v :: _ => visitErr v <> None
  end ->
  walkLoop (before ++ after) []
  = (map (fun v => mediaOf (visitPath v)) (List.filter isMedia before),
     match after with
     | [] => None
     | v :: _ => visitErr v
     end).
Proof.
  intros Hb Ha. induction before as [|v before IH]; cbn [app].
  - destruct after as [|v after]; [reflexivity|]. cbn [walkLoop].
    destruct (visitErr v); [reflexivity | contradiction].
  - cbn [walkLoop List.filter]. rewrite (Hb v) by now left.
    unfold isMedia at 1.
    assert (IH' := IH (fun x H => Hb x (or_intror H))).
    destruct (visitIsDir v); cbn [negb andb]; [exact IH'|].
    destruct (supported _); [|exact IH'].
    rewrite walkLoop_acc, IH'. reflexivity.
Qed.

Lemma supported_In (ext : string) :
  supported ext = true <-> In ext supportedExtList.
Proof.
  unfold supported, supportedExts. split.
  - destruct (list_to_map _ !! ext) as [b|] eqn:Hl; [|discriminate].
    intros ->. apply elem_of_list_to_map_2 in Hl.
    apply list_elem_of_In, in_map_iff in Hl as (e & [= <-] & He).
    exact He.
  - intros Hin.
    assert (Hl : (list_to_map (map (fun e => (e, true)) supportedExtList)
                  : gmap string bool) !! ext = Some true).
    { apply elem_of_list_to_map_1.
      - vm_compute. repeat (apply NoDup_cons_2;
          [intros H; apply list_elem_of_In in H; simpl in H;
           repeat (destruct H as [H | H]; [discriminate H|]); exact H|]).
        apply NoDup_nil_2.
      - apply list_elem_of_In, in_map_iff. now exists ext. }
    now rewrite Hl.
Qed.

Lemma Ext_append_json (a : string) :
  filepath.Ext (a +:+ ".json") = ".json".
Proof.
  induction a as [|c a IH]; [reflexivity|].
  cbn [String.append filepath.Ext].
  assert (H : filepath.hasSepOrDot (a +:+ ".json") = true).
  { clear. induction a as [|c a IH]; [reflexivity|].
    cbn [String.append filepath.hasSepOrDot]. rewrite IH.
    now rewrite orb_true_r. }
  now rewrite H.
Qed.

End scan_facts.

(** X23.  [scanMediaFiles] and errors of the walk.  The walk ends at the
    first entry it could not read: the function returns the error of that
    entry together with the media files met before it, in the order of
    the walk; without such an entry it returns nil and all the media files
    of the walk.  A media file is an entry that is not a directory and
    whose extension, in lower case, is a supported one. *)
Theorem scanMediaFiles_until_error (walk : string -> list Visit)
    (sourceDir : string) (before after : list Visit) :
  walk sourceDir = before ++ after ->
  (forall v, In v before -> visitErr v = None) ->
  match after with
  | [] => True
  | v :: _ => visitErr v <> None
  end ->
  scanMediaFiles walk sourceDir
  = (map (fun v => mediaOf (visitPath v)) (List.filter isMedia before),
     match after with
     | [] => None
     | v :: _ => visitErr v
     end).
Proof.
  intros Hw Hb Ha. unfold scanMediaFiles. rewrite Hw.
  now apply scan_facts.walkLoop_split.
Qed.

Lemma scanMediaFiles_until_error_witness :
  scanMediaFiles
    (fun _ => [mkVisit "/src" true None;
               mkVisit "/src/IMG_1.JPG" false None;
               mkVisit "/src/IMG_1.JPG.json" false None;
               mkVisit "/src/locked" true
                 (Some (LibError "open" "permission denied"));
               mkVisit "/src/z.png" false None]) "/src"
  = (map (fun v => mediaOf (visitPath v))
       (List.filter isMedia
          [mkVisit "/src" true None;
           mkVisit "/src/IMG_1.JPG" false None;
           mkVisit "/src/IMG_1.JPG.json" false None]),
     Some (LibError "open" "permission denied")).
Proof.
  apply (scanMediaFiles_until_error _ "/src"
           [mkVisit "/src" true None;
            mkVisit "/src/IMG_1.JPG" false None;
            mkVisit "/src/IMG_1.JPG.json" false None]
           [mkVisit "/src/locked" true
              (Some (LibError "open" "permission denied"));
            mkVisit "/src/z.png" false None]).
  - reflexivity.
  - intros v [<- | [<- | [<- | []]]]; reflexivity.
  - discriminate.
Defined.

(** X24.  What [scanMediaFiles] returns.  Every file it returns stands for
    an entry of the walk that is not a directory and was read without
    error; its base name and directory are those of the path; its
    extension in lower case is one of the supported ones; and its name
    does not end in [.json], so a companion file is never taken for a
    media file. *)
Theorem scanMediaFiles_files (walk : string -> list Visit)
    (sourceDir : string) (file : MediaFile) :
  In file (fst (scanMediaFiles walk sourceDir)) ->
  (exists v, In v (walk sourceDir)
             /\ visitIsDir v = false
             /\ visitErr v = None
             /\ visitPath v = Path file)
  /\ BaseName file = filepath_Base (Path file)
  /\ Dir file = filepath.Dir (Path file)
  /\ In (strings_ToLower (filepath.Ext (Path file))) supportedExtList
  /\ strings.HasSuffix (Path file) ".json" = false.
Proof.
  unfold scanMediaFiles.
  assert (H : forall visits,
            In file (fst (walkLoop visits [])) ->
            exists v, In v visits /\ visitIsDir v = false
                      /\ visitErr v = None
                      /\ supported (strings_ToLower
                                      (filepath.Ext (visitPath v))) = true
                      /\ file = mediaOf (visitPath v)).
  { induction visits as [|v visits IH]; cbn [walkLoop fst]; [intros []|].
    assert (Hrest : In file (fst (walkLoop visits [])) ->
              exists v0, In v0 (v :: visits) /\ visitIsDir v0 = false
                         /\ visitErr v0 = None
                         /\ supported (strings_ToLower
                                         (filepath.Ext (visitPath v0))) = true
                         /\ file = mediaOf (visitPath v0)).
    { intros Hin. destruct (IH Hin) as (v0 & H0 & Hrest).
      exists v0. split; [now right | exact Hrest]. }
    destruct (visitErr v) eqn:He; [intros []|].
    destruct (visitIsDir v) eqn:Hd; [exact Hrest|].
    destruct (supported _) eqn:Hs; [|exact Hrest].
    rewrite scan_facts.walkLoop_acc. cbn [fst app].
    intros [<- | Hin]; [|now apply Hrest].
    exists v. split; [now left|]. auto. }
  intros Hin. destruct (H _ Hin) as (v & Hv & Hd & He & Hs & ->).
  cbn [mediaOf Path BaseName Dir].
  split; [exists v; auto|]. split; [reflexivity|]. split; [reflexivity|].
  split; [now apply scan_facts.supported_In|].
  destruct (strings.HasSuffix (visitPath v) ".json") eqn:Hj; [|reflexivity].
  apply string_facts.HasSuffix_spec in Hj as [a Ha].
  rewrite Ha, scan_facts.Ext_append_json in Hs. discriminate Hs.
Qed.

Lemma scanMediaFiles_files_witness :
  (exists v, In v [mkVisit "/src" true None;
                   mkVisit "/src/IMG_1.JPG" false None;
                   mkVisit "/src/IMG_1.JPG.json" false None]
             /\ visitIsDir v = false
             /\ visitErr v = None
             /\ visitPath v = "/src/IMG_1.JPG")
  /\ "IMG_1.JPG" = filepath_Base "/src/IMG_1.JPG"
  /\ "/src" = filepath.Dir "/src/IMG_1.JPG"
  /\ In (strings_ToLower (filepath.Ext "/src/IMG_1.JPG")) supportedExtList
  /\ strings.HasSuffix "/src/IMG_1.JPG" ".json" = false.
Proof.
  apply (scanMediaFiles_files
           (fun _ => [mkVisit "/src" true None;
                      mkVisit "/src/IMG_1.JPG" false None;
                      mkVisit "/src/IMG_1.JPG.json" false None])
           "/src" (mkMediaFile "/src/IMG_1.JPG" "IMG_1.JPG" "/src")).
  vm_compute. left. reflexivity.
Defined.

(** * The worker *)

Module worker_facts.

#[local] Arguments String.append : simpl nomatch.

Section Jobs.

Context {W : Type} (env : Env W).

Lemma processMediaFile_wellFormed (config : Config)
    (exifTool : ExifToolProcess) (file : MediaFile) (w : W) :
  wellFormed (fst (fst (processMediaFile env config exifTool file w)))
  /\ File (fst (fst (processMediaFile env config exifTool file w))) = file.
Proof.
  unfold processMediaFile.
  destruct (GetMetadata _ exifTool (Path file)) as [[e|exifData] etp1].
  - cbn [fst]. split; [now apply outcome_facts.failWith_wellFormed|].
    reflexivity.
  - destruct (findExifDate env exifData exifDateTags) as [date|].
    + pose proof (outcome_facts.finishMediaFile_wellFormed env config file
                    (mkResult file false EmptyString None) date w
                    eq_refl eq_refl) as Hf.
      destruct (finishMediaFile env config file _ date w) as [r w'].
      exact Hf.
    + destruct (negb (String.eqb (findSidecarFile (fsOf env w) file)
                                 EmptyString)).
      * destruct (parseSidecarDate (fsOf env w) _) as [e|date].
        -- cbn [fst]. split; [now apply outcome_facts.failWith_wellFormed|].
           reflexivity.
        -- destruct (updateExifDate env config etp1 (Path file) date)
             as [[e|] etp2].
           ++ cbn [fst].
              split; [now apply outcome_facts.failWith_wellFormed|].
              reflexivity.
           ++ pose proof (outcome_facts.finishMediaFile_wellFormed env
                            config file
                            (withAction
                               (mkResult file false EmptyString None)
                               "Updated EXIF from sidecar")
                            date w eq_refl eq_refl) as Hf.
              destruct (finishMediaFile env config file _ date w) as [r w'].
              exact Hf.
      * cbn [fst]. split; [now apply outcome_facts.failWith_wellFormed|].
        reflexivity.
Qed.

Lemma processMediaFile_dry_sent (config : Config)
    (exifTool : ExifToolProcess) (file : MediaFile) (w : W) :
  DryRun config = true ->
  sent (snd (fst (processMediaFile env config exifTool file w)))
  = sent exifTool ++ [readCommand (Path file)].
Proof.
  intros Hd.
  rewrite <- (pipeline_facts.GetMetadata_sent (float64_ok env)).
  unfold processMediaFile.
  destruct (GetMetadata _ exifTool (Path file)) as [[e|exifData] etp1];
    [reflexivity|].
  destruct (findExifDate env exifData exifDateTags) as [date|].
  - destruct (finishMediaFile env config file _ date w) as [r w'].
    reflexivity.
  - destruct (negb (String.eqb (findSidecarFile (fsOf env w) file)
                               EmptyString)); [|reflexivity].
    destruct (parseSidecarDate (fsOf env w) _) as [e|date]; [reflexivity|].
    unfold updateExifDate. rewrite Hd.
    destruct (finishMediaFile env config file _ date w) as [r w'].
    reflexivity.
Qed.

Lemma workerLoop_spec (config : Config) (jobs : list (MediaFile * W)) :
  forall process : ExifToolProcess,
    map File (fst (workerLoop env config process jobs)) = map fst jobs
    /\ (forall r, In r (fst (workerLoop env config process jobs)) ->
                  wellFormed r)
    /\ (DryRun config = true ->
        sent (snd (workerLoop env config process jobs))
        = sent process
          ++ map (fun job => readCommand (Path (fst job))) jobs).
Proof.
  induction jobs as [|[file w] jobs IH]; intros process; cbn [workerLoop].
  - cbn [fst snd map]. split; [reflexivity|]. split; [intros r []|].
    intros _. now rewrite app_nil_r.
  - pose proof (processMediaFile_wellFormed config process file w) as Hwf.
    pose proof (processMediaFile_dry_sent config process file w) as Hds.
    destruct (processMediaFile env config process file w)
      as [[result process1] w1].
    cbn [fst snd] in Hwf, Hds.
    destruct (IH process1) as (Hf & Hw & Hs).
    destruct (workerLoop env config process1 jobs) as [results process2].
    cbn [fst snd map] in *. destruct Hwf as [Hwf Hfile].
    split; [now rewrite Hfile, Hf|]. split.
    + intros r [<- | Hr]; [exact Hwf | now apply Hw].
    + intros Hd. rewrite (Hs Hd), (Hds Hd), <- app_assoc. reflexivity.
Qed.

End Jobs.

End worker_facts.

(** X25.  A worker answers every job, in order, on its own handle.  When
    the worker's index names a handle of the pool, [worker] sends one
    result for each job it receives, in the order of the jobs and each for
    the file of its job; every result is a success with an action or a
    failure with an error; only the worker's own handle changes; and in a
    dry run the commands it sends are the read commands for the files of
    its jobs, one each, in order. *)
Theorem worker_results {W : Type} (env : Env W) (workerID : Z)
    (config : Config) (exifTool : ExifToolManager) (pool : World)
    (jobs : list (MediaFile * W)) (p : nat) (process : ExifToolProcess) :
  GetProcessForWorker exifTool workerID = Returned p ->
  heap pool !! p = Some process ->
  exists results process',
    worker env workerID config exifTool pool jobs
    = Returned (results,
                mkWorld (<[p := process']> (heap pool)) (starts pool)
                        (logged pool))
    /\ map File results = map fst jobs
    /\ (forall r, In r results -> wellFormed r)
    /\ (DryRun config = true ->
        sent process'
        = sent process
          ++ map (fun job => readCommand (Path (fst job))) jobs).
Proof.
  intros Hg Hp. unfold worker. rewrite Hg.
  destruct (worker_facts.workerLoop_spec env config jobs process)
    as (Hf & Hw & Hs).
  destruct jobs as [|job jobs].
  - exists [], process. rewrite list_insert_id by exact Hp.
    split; [now destruct pool|]. split; [reflexivity|].
    split; [intros r []|]. intros _. cbn [map]. now rewrite app_nil_r.
  - rewrite Hp.
    destruct (workerLoop env config process (job :: jobs))
      as [results process'].
    exists results, process'. cbn [fst snd] in *. auto.
Qed.

Lemma worker_results_witness :
  exists results process',
    worker exampleEnv 1 (mkConfig "/src" "/out" false true 2)
      (mkManager (seq 0 2))
      (mkWorld [processWith [] None; processWith exifAnswer None] 2 [])
      [(mkMediaFile "a.jpg" "a.jpg" ".", tt)]
    = Returned (results,
                mkWorld (<[1%nat := process']>
                           [processWith [] None; processWith exifAnswer None])
                        2 [])
    /\ map File results = map fst [(mkMediaFile "a.jpg" "a.jpg" ".", tt)]
    /\ (forall r, In r results -> wellFormed r)
    /\ (true = true ->
        sent process'
        = [] ++ map (fun job : MediaFile * unit => readCommand (Path (fst job)))
                    [(mkMediaFile "a.jpg" "a.jpg" ".", tt)]).
Proof.
  apply (worker_results exampleEnv 1 (mkConfig "/src" "/out" false true 2)
           (mkManager (seq 0 2))
           (mkWorld [processWith [] None; processWith exifAnswer None] 2 [])
           [(mkMediaFile "a.jpg" "a.jpg" ".", tt)] 1%nat
           (processWith exifAnswer None)); reflexivity.
Defined.

(** * The summary *)

Module summary_facts.

Lemma countAction_cons (a : string) (r : Result) (results : list Result) :
  countAction a (r :: results)
  = (if Success r && String.eqb (Action r) a then 1 else 0)
    + countAction a results.
Proof.
  unfold countAction. cbn [List.filter].
  destruct (Success r && String.eqb (Action r) a); cbn [length]; lia.
Qed.

Lemma countAction_nonneg (a : string) (results : list Result) :
  0 <= countAction a results.
Proof. unfold countAction. lia. Qed.

Lemma summaryLoop_spec (results : list Result) :
  forall s : Summary,
    errorLines (summaryLoop results s)
    = errorLines s
      ++ map errorLine (List.filter (fun r => negb (Success r)) results)
    /\ total (summaryLoop results s) = total s
    /\ successful (summaryLoop results s)
       = successful s + Z.of_nat (length (List.filter Success results))
    /\ failed (summaryLoop results s)
       = failed s
         + Z.of_nat (length (List.filter (fun r => negb (Success r))
                                         results))
    /\ forall a,
         actions (summaryLoop results s) !! a
         = if countAction a results =? 0 then actions s !! a
           else Some (match actions s !! a with
                      | Some n => n
                      | None => 0
                      end + countAction a results).
Proof.
  induction results as [|r results IH]; intros s.
  - cbn [summaryLoop List.filter map length]. rewrite app_nil_r.
    repeat split; try lia; try reflexivity.
  - cbn [summaryLoop List.filter].
    destruct (Success r) eqn:Hs; cbn [negb].
    + destruct (IH (mkSummary (errorLines s) (total s) (successful s + 1)
                      (failed s)
                      (<[Action r := match actions s !! Action r with
                                     | Some n => n + 1
                                     | None => 1
                                     end]> (actions s))))
        as (He & Ht & Hsu & Hf & Ha).
      cbn [errorLines total successful failed actions] in *.
      split; [exact He|]. split; [exact Ht|].
      split; [rewrite Hsu; cbn [length]; lia|]. split; [exact Hf|].
      intros a. rewrite Ha, countAction_cons, Hs. cbn [andb].
      pose proof (countAction_nonneg a results) as Hc.
      destruct (String.eqb_spec (Action r) a) as [-> | Hne].
      * rewrite lookup_insert_eq.
        destruct (Z.eqb_spec (countAction a results) 0) as [H0 | H0];
          destruct (Z.eqb_spec (1 + countAction a results) 0) as [H1 | H1];
          try lia; destruct (actions s !! a); f_equal; lia.
      * rewrite lookup_insert_ne by exact Hne. reflexivity.
    + destruct (IH (mkSummary (errorLines s ++ [errorLine r]) (total s)
                      (successful s) (failed s + 1) (actions s)))
        as (He & Ht & Hsu & Hf & Ha).
      cbn [errorLines total successful failed actions] in *.
      split; [rewrite He, <- app_assoc; reflexivity|]. split; [exact Ht|].
      split; [exact Hsu|]. split; [rewrite Hf; cbn [length]; lia|].
      intros a. rewrite Ha, countAction_cons, Hs. reflexivity.
Qed.

End summary_facts.

(** X26.  The counts of [printSummary].  The number of successes and the
    number of failures add up to the number of results; one error line is
    printed for each failed result, in order; and the action lines count,
    for each action, the successful results with that action, an action
    no successful result has having no line.  The lines of the actions
    therefore add up to the successes, and failed results are not counted
    under their action. *)
Theorem printSummary_counts (results : list Result) :
  let s := printSummary results in
  total s = Z.of_nat (length results)
  /\ successful s = Z.of_nat (length (List.filter Success results))
  /\ successful s + failed s = total s
  /\ errorLines s
     = map errorLine (List.filter (fun r => negb (Success r)) results)
  /\ forall a, actions s !! a
               = if countAction a results =? 0 then None
                 else Some (countAction a results).
Proof.
  cbv zeta. unfold printSummary.
  destruct (summary_facts.summaryLoop_spec results
              (mkSummary [] (Z.of_nat (length results)) 0 0 ∅))
    as (He & Ht & Hs & Hf & Ha).
  cbn [errorLines total successful failed actions app] in *.
  split; [exact Ht|]. split; [rewrite Hs; lia|]. split.
  - rewrite Hs, Hf, Ht. clear.
    induction results as [|r results IH]; [reflexivity|].
    cbn [List.filter]. destruct (Success r); cbn [negb length]; lia.
  - split; [exact He|]. intros a. rewrite Ha, lookup_empty.
    now destruct (countAction a results =? 0).
Qed.

(** * A companion with a doubled dot *)

Module doubledot_facts.

#[local] Arguments String.append : simpl nomatch.

Lemma append_cancel_l (a x y : string) : a +:+ x = a +:+ y -> x = y.
Proof.
  induction a as [|c a IH]; cbn [String.append]; [auto|].
  intros [= H]. now apply IH.
Qed.

(** The extension starts with a dot and has no other dot. *)
Lemma Ext_shape (path : string) (c : ascii) (r : string) :
  filepath.Ext path = String c r ->
  c = "."%char /\ filepath.hasSepOrDot r = false.
Proof.
  induction path as [|d path IH]; cbn [filepath.Ext]; [discriminate|].
  destruct (filepath.hasSepOrDot path) eqn:Hs; [exact IH|].
  destruct (filepath.isDot d) eqn:Hd; [|discriminate].
  intros [= <- <-]. split; [|exact Hs].
  unfold filepath.isDot in Hd. now apply Ascii.eqb_eq in Hd.
Qed.

(** A name that matches a pattern starts with the first quoted piece. *)
Lemma pieces_prefix (b : string) (rest : list regexp.piece) (name : string) :
  regexp.MatchString (regexp.piecesRe (regexp.Quoted b :: rest)) name = true ->
  exists tail,
    name = b +:+ tail
    /\ regexp.lang (regexp.piecesRe rest) (list_ascii_of_string tail).
Proof.
  intros H. apply prefix_facts.MatchString_lang in H.
  cbn [regexp.piecesRe regexp.pieceRe] in H.
  apply prefix_facts.lang_Lit_app in H as (t & Ht & Hl).
  exists (string_of_list_ascii t). split.
  - apply string_facts.list_of_inj.
    now rewrite Ht, string_facts.list_of_append,
      list_ascii_of_string_of_list_ascii.
  - now rewrite list_ascii_of_string_of_list_ascii.
Qed.

Section Pair.

Variables (file : MediaFile) (stem ext : string).
Hypothesis Hbase : BaseName file = stem +:+ ext.
Hypothesis Hext : filepath.Ext (BaseName file) = ext.
Hypothesis Hlen : (1 < String.length ext)%nat.
Hypothesis Hnum : FindStringSubmatch stem = None.

Lemma baseNameNoExt_stem : baseNameNoExt file = stem.
Proof.
  unfold baseNameNoExt. rewrite Hext, Hbase.
  apply string_facts.TrimSuffix_append.
Qed.

Lemma ext_shape :
  exists c r, ext = String "." (String c r) /\ c <> "."%char.
Proof.
  destruct ext as [|c1 [|c2 r]] eqn:He; cbn [String.length] in Hlen;
    try lia.
  destruct (Ext_shape _ _ _ Hext) as [-> Hr].
  exists c2, r. split; [reflexivity|]. intros ->.
  cbn [filepath.hasSepOrDot] in Hr. discriminate Hr.
Qed.

(** No exact pattern matches the name with the doubled dot. *)
Lemma exact_patterns_fail (pattern : list regexp.piece) :
  In pattern (sidecarPatterns file) ->
  regexp.MatchString (regexp.piecesRe pattern) (stem +:+ "..json") = false.
Proof.
  destruct ext_shape as (c & r & He & Hc).
  unfold sidecarPatterns, sidecarBase. rewrite baseNameNoExt_stem, Hnum.
  rewrite Hext, Hbase, string_facts.TrimSuffix_append.
  cbn [negb String.eqb].
  assert (H1 : regexp.MatchString
                 (regexp.piecesRe
                    [regexp.Quoted (stem +:+ ext); regexp.OptDotAny;
                     regexp.Quoted ".json"]) (stem +:+ "..json") = false).
  { match goal with
      | |- ?m = false => destruct m eqn:Hm; [|reflexivity]
      end.
    apply pieces_prefix in Hm as (tail & Ht & _).
    rewrite string_facts.append_assoc in Ht.
    apply append_cancel_l in Ht. rewrite He in Ht.
    cbn [String.append] in Ht. injection Ht as Hx _. congruence. }
  destruct (strings.HasSuffix stem "_") eqn:Hu.
  - apply string_facts.HasSuffix_spec in Hu as (s' & Hs).
    rewrite Hs, string_facts.TrimSuffix_append.
    destruct (negb (String.eqb (s' +:+ ext) ((s' +:+ "_") +:+ ext)));
      cbn [In]; intros Hin;
      repeat match type of Hin with
      | _ \/ _ => destruct Hin as [<- | Hin]
      | False => destruct Hin
      end.
    + rewrite <- Hs. exact H1.
    + match goal with
      | |- ?m = false => destruct m eqn:Hm; [|reflexivity]
      end.
      apply pieces_prefix in Hm as (tail & Ht & _).
      rewrite !string_facts.append_assoc in Ht.
      apply append_cancel_l in Ht. rewrite He in Ht.
      cbn [String.append] in Ht. discriminate Ht.
    + match goal with
      | |- ?m = false => destruct m eqn:Hm; [|reflexivity]
      end.
      apply pieces_prefix in Hm as (tail & Ht & Hl).
      rewrite !string_facts.append_assoc in Ht.
      apply append_cancel_l in Ht. subst tail.
      cbn [regexp.piecesRe regexp.pieceRe] in Hl.
      apply prefix_facts.lang_Lit_app in Hl as (t & Ht & _).
      discriminate Ht.
    + rewrite <- Hs. exact H1.
  - rewrite String.eqb_refl. cbn [negb In].
    intros [<- | []]. exact H1.
Qed.

(** The fallback takes no entry with that name. *)
Lemma fallback_fails (fs : FS) (k : nat) (entry : DirEntry) (p : string) :
  Name entry = stem +:+ "..json" ->
  prefixCandidate fs file k entry <> Some p.
Proof.
  intros Hn Hc.
  apply prefix_facts.prefixCandidate_Some in Hc
    as (_ & _ & _ & mid & Hname & _ & Hbound & _).
  unfold prefixBase in Hname, Hbound.
  rewrite baseNameNoExt_stem, Hnum in Hname, Hbound.
  cbn [fst snd] in Hname, Hbound.
  assert (Hl : String.length (String.substring 0 k stem +:+ mid)
               = S (String.length stem)).
  { apply (f_equal String.length) in Hname.
    rewrite Hn, !string_facts.length_append in Hname.
    rewrite string_facts.length_append. cbn [String.length] in Hname. lia. }
  rewrite Hl in Hbound. lia.
Qed.

End Pair.

End doubledot_facts.

(** X27.  A companion with a doubled dot is not found.  For a media file
    [stem.ext] without a number in parentheses, a companion named
    [stem..json], the stem followed by two dots and [json], is matched by
    no exact pattern, since it lacks the extension, and is refused by the
    fallback, since its name without [.json] is longer than the stem.  So
    when the valid regular files of the directory all carry that name,
    [findSidecarFile] returns the empty string. *)
Theorem findSidecarFile_double_dot (fs : FS) (file : MediaFile)
    (stem ext : string) (entries : list DirEntry) :
  BaseName file = stem +:+ ext ->
  filepath.Ext (BaseName file) = ext ->
  (1 < String.length ext)%nat ->
  FindStringSubmatch stem = None ->
  ReadDir fs (Dir file) = Some entries ->
  (forall entry, In entry entries -> IsDir entry = false ->
     isGooglePhotosSidecar fs (filepath.Join (Dir file) (Name entry)) = true ->
     Name entry = stem +:+ "..json") ->
  findSidecarFile fs file = EmptyString.
Proof.
  intros Hbase Hext Hlen Hnum Hr Hall.
  unfold findSidecarFile. rewrite Hr. cbv zeta.
  match goal with
  | |- context [rangeOver ?b (sidecarPatterns file)] =>
      destruct (rangeOver b (sidecarPatterns file)) as [r|] eqn:Hp
  end.
  - exfalso.
    apply rangeOver_Some in Hp as (l1 & pattern & l2 & Hl & Hb & _).
    unfold regexp.Compile in Hb.
    destruct (forallb regexp.pieceValid pattern); [|discriminate].
    apply rangeOver_Some in Hb as (b1 & entry & b2 & -> & Hb & _).
    apply sidecarBody_Some in Hb as [(Hd & Hm & Hv) _].
    assert (Hin : In entry (b1 ++ entry :: b2))
      by (apply in_or_app; right; now left).
    rewrite (Hall entry Hin Hd Hv) in Hm.
    rewrite (doubledot_facts.exact_patterns_fail file stem ext Hbase Hext
               Hlen Hnum pattern) in Hm; [discriminate|].
    rewrite Hl. apply in_or_app. right. now left.
  - destruct (String.eqb_spec (findSidecarWithPrefixMatching fs file entries)
                              EmptyString) as [He | Hne]; [exact He|].
    exfalso.
    destruct (prefix_rounds.fallback_candidate _ _ _ Hne)
      as (k & entry & Hin & Hc).
    destruct (prefix_facts.prefixCandidate_Some _ _ _ _ _ Hc)
      as (Hd & Hp' & Hv & _).
    rewrite Hp' in Hv.
    apply (doubledot_facts.fallback_fails file stem ext Hbase Hext Hlen Hnum
             fs k entry _ (Hall entry Hin Hd Hv) Hc).
Qed.

Lemma findSidecarFile_double_dot_witness :
  findSidecarFile
    (testDir ["25159_1382026223053_1003886514_1164687_6240_n.jpg";
              "25159_1382026223053_1003886514_1164687_6240_n..json"])
    (testFile "25159_1382026223053_1003886514_1164687_6240_n.jpg")
  = EmptyString.
Proof.
  apply (findSidecarFile_double_dot _ _
           "25159_1382026223053_1003886514_1164687_6240_n" ".jpg"
           (testEntries
              ["25159_1382026223053_1003886514_1164687_6240_n.jpg";
               "25159_1382026223053_1003886514_1164687_6240_n..json"])).
  - reflexivity.
  - reflexivity.
  - simpl. lia.
  - vm_compute. reflexivity.
  - reflexivity.
  - intros entry [<- | [<- | []]] _ Hv.
    + vm_compute in Hv. discriminate Hv.
    + reflexivity.
Defined.

(** * The album of a directory *)

Module album_facts.

Lemma storeMembers_title (ms : list (string * json.Value)) :
  forall cur m : json.AlbumMetadata,
    json.storeMembers json.storeAlbumField ms cur = inr m ->
    (json.AlbumTitle m = json.AlbumTitle cur
     /\ forall k v, In (k, v) ms -> json.keyMatches "title" k = true ->
                    v = json.Null)
    \/ exists before k after,
         ms = before ++ (k, json.Str (json.AlbumTitle m)) :: after
         /\ json.keyMatches "title" k = true
         /\ forall k' v', In (k', v') after ->
                          json.keyMatches "title" k' = true ->
                          v' = json.Null.
Proof.
  induction ms as [|[k v] ms IH]; intros cur m; cbn [json.storeMembers].
  - intros [= <-]. left. split; [reflexivity|]. intros k v [].
  - unfold json.storeAlbumField at 1.
    assert (Hext : forall cur',
              json.AlbumTitle cur' = json.AlbumTitle cur ->
              (json.keyMatches "title" k = true -> v = json.Null) ->
              json.storeMembers json.storeAlbumField ms cur' = inr m ->
              (json.AlbumTitle m = json.AlbumTitle cur
               /\ forall k0 v0, In (k0, v0) ((k, v) :: ms) ->
                    json.keyMatches "title" k0 = true -> v0 = json.Null)
              \/ exists before k0 after,
                   (k, v) :: ms
                   = before ++ (k0, json.Str (json.AlbumTitle m)) :: after
                   /\ json.keyMatches "title" k0 = true
                   /\ forall k' v', In (k', v') after ->
                                    json.keyMatches "title" k' = true ->
                                    v' = json.Null).
    { intros cur' Hc Hv H.
      destruct (IH _ _ H) as [[Ht Hall] | (b & k0 & a & -> & Hk0 & Ha)].
      - left. split; [congruence|].
        intros k0 v0 [[= <- <-] | Hin]; [exact Hv | now apply (Hall k0)].
      - right. exists ((k, v) :: b), k0, a. auto. }
    destruct (json.keyMatches "title" k) eqn:Hk.
    + destruct v; cbn [json.storeString]; try discriminate.
      * apply Hext; auto.
      * intros H.
        destruct (IH _ _ H) as [[Ht Hall] | (b & k0 & a & -> & Hk0 & Ha)].
        -- right. cbn [json.AlbumTitle] in Ht. rewrite Ht.
           exists [], k, ms. split; [reflexivity|]. split; [exact Hk|].
           exact Hall.
        -- right. exists ((k, json.Str s) :: b), k0, a. auto.
    + apply Hext; [reflexivity | discriminate].
Qed.

End album_facts.

(** X28.  The album of a directory.  When [getAlbumName] returns a name
    that is not empty, the file [metadata.json] of the directory was read
    and holds a JSON object with a member named [title], in any case of
    the letters, whose value is that name as a string, and every member
    of that name after it is null.  So a directory without such a file or
    without a title gets no album link. *)
Theorem getAlbumName_title {W : Type} (env : Env W) (w : W)
    (dir t : string) :
  getAlbumName env w dir = t ->
  t <> EmptyString ->
  exists data before k after,
    os_ReadFile env w (filepath.Join dir "metadata.json") = Some data
    /\ json.Parse data
       = Some (json.Object (before ++ (k, json.Str t) :: after))
    /\ json.keyMatches "title" k = true
    /\ forall k' v', In (k', v') after ->
                     json.keyMatches "title" k' = true -> v' = json.Null.
Proof.
  unfold getAlbumName.
  destruct (os_ReadFile env w _) as [data|] eqn:Hr; [|congruence].
  unfold json.UnmarshalAlbumMetadata.
  destruct (json.Parse data) as [v|] eqn:Hp; [|congruence].
  destruct v; cbn [json.storeStruct]; try congruence;
    try (intros <- Hne; exfalso; now apply Hne).
  destruct (json.storeMembers _ _ _) as [e|m] eqn:Hs; [congruence|].
  intros <- Hne.
  destruct (album_facts.storeMembers_title _ _ _ Hs)
    as [[Ht _] | (b & k & a & -> & Hk & Ha)].
  - cbn [json.AlbumTitle] in Ht. contradiction.
  - exists data, b, k, a. auto.
Qed.

Lemma getAlbumName_title_witness :
  exists data before k after,
    os_ReadFile albumEnv tt (filepath.Join "/a" "metadata.json") = Some data
    /\ json.Parse data
       = Some (json.Object (before ++ (k, json.Str "Trip") :: after))
    /\ json.keyMatches "title" k = true
    /\ forall k' v', In (k', v') after ->
                     json.keyMatches "title" k' = true -> v' = json.Null.
Proof.
  apply (getAlbumName_title albumEnv tt "/a" "Trip").
  - vm_compute. reflexivity.
  - discriminate.
Defined.
